(** * Health dashboard: paginated fetch, range resolution, TTL cache and
      metric panels

    A shallow embedding of [src/lib/api.js] and of the metric panels under
    [src/components/] (the heart-rate panel in full; the series processing
    and the statistics of the SpO2 panel; the series processing of the
    blood-pressure, stress and HRV panels; the sleep score, the rings of
    the activity summary, the real-time dashboard and the date filter of
    the dashboard page), with the properties the specification states
    about them.

    Conventions.
    - A JavaScript value that is [null]/[undefined] or a string is an
      [option string]; it is truthy when it is a non-empty string.
    - A JSON number is the rational that its literal writes.  Comparisons,
      minima and maxima are taken on these rationals, and so are the
      bounds of the Y axis; sums, means and percentages are computed in
      binary64, every operation rounded to the nearest double
      ([Float64]).
    - An [async] function is split at its [await]: the part before it, and
      the continuation that runs when the awaited promise settles.
    - An exception is the [Throw] case of [Result].
    - The network ([authenticatedFetch], from the module [tokenManager] that
      [api.js] imports) is a parameter: a function from the requested URL and
      the server's state to a settled response and the next server state.
    - The definitions come first, one module per source file; the
      properties follow, in modules named after what they are about. *)

From Stdlib Require Import ZArith QArith Qround Qminmax String Ascii List Lia.
From Stdlib Require Import Sorted Permutation.
From Stdlib Require Import Lqa.
From Stdlib Require Import SpecFloat.
From stdpp Require Import base gmap strings list pretty.

Set Warnings "-register-all".
Local Open Scope string_scope.
Local Open Scope list_scope.

(** ** JavaScript values *)

Module Js.

(** A parsed JSON document, as [response.json()] produces it.  A JSON number
    is a decimal literal, hence a rational. *)
Inductive Json : Type :=
| JNull
| JBool (b : bool)
| JNum (q : Q)
| JStr (s : string)
| JArr (items : list Json)
| JObj (fields : list (string * Json)).

(** What [throw] carries: an [Error] object with its [name], its optional
    [code] and its [message]. *)
Record JsError : Type := mkJsError {
  err_name : string;
  err_code : option string;
  err_message : string
}.

(** [new Error(message)] *)
Definition Error (message : string) : JsError :=
  {| err_name := "Error"; err_code := None; err_message := message |}.

(** The error of calling a method that a value does not have. *)
Definition TypeError (message : string) : JsError :=
  {| err_name := "TypeError"; err_code := None; err_message := message |}.

Definition RangeError (message : string) : JsError :=
  {| err_name := "RangeError"; err_code := None; err_message := message |}.

Inductive Result (A : Type) : Type :=
| Ok (a : A)
| Throw (e : JsError).
Arguments Ok {A} a.
Arguments Throw {A} e.

(** [if (s)] for a string: the empty string is falsy. *)
Definition truthy_string (s : string) : bool :=
  negb (String.eqb s "").

(** [if (v)] for a value that is [null] or a string. *)
Definition truthy_opt (v : option string) : bool :=
  match v with
  | Some s => truthy_string s
  | None => false
  end.

(** [`${v}`] for a value that is [null] or a string. *)
Definition template_opt (v : option string) : string :=
  match v with
  | Some s => s
  | None => "null"
  end.

(** [if (v)] for a JSON value. *)
Definition truthy (v : Json) : bool :=
  match v with
  | JNull => false
  | JBool b => b
  | JNum q => negb (Qeq_bool q 0)
  | JStr s => truthy_string s
  | JArr _ => true
  | JObj _ => true
  end.

(** [obj[key]] on the own properties of a parsed object. *)
Fixpoint field (key : string) (fields : list (string * Json)) : option Json :=
  match fields with
  | [] => None
  | (k, v) :: rest => if String.eqb k key then Some v else field key rest
  end.

(** [v.key]: [None] stands for [undefined]. *)
Definition prop (key : string) (v : Json) : option Json :=
  match v with
  | JObj fields => field key fields
  | _ => None
  end.

Definition truthy_prop (v : option Json) : bool :=
  match v with
  | Some j => truthy j
  | None => false
  end.

Section ToString.
(** [Number.prototype.toString], which is not modelled. *)
Variable Number_toString : Q -> string.

(** [`${v}`] for a JSON value. *)
Fixpoint ToString (v : Json) : string :=
  match v with
  | JNull => "null"
  | JBool true => "true"
  | JBool false => "false"
  | JNum q => Number_toString q
  | JStr s => s
  | JArr items =>
      (fix join (l : list Json) : string :=
         match l with
         | [] => ""
         | x :: rest =>
             let shown := match x with JNull => "" | _ => ToString x end in
             match rest with
             | [] => shown
             | _ :: _ => shown +:+ "," +:+ join rest
             end
         end) items
  | JObj _ => "[object Object]"
  end.
End ToString.

End Js.

(** ** [src/lib/api.js] *)

Module Api.
Import Js.

Definition API_BASE_URL : string := "https://jeewanjyoti-backend.smart.org.np".

(** A Fetch [Response]: its status, and what [response.json()] settles to. *)
Record Response : Type := mkResponse {
  status : N;
  json : Result Json
}.

(** [response.ok]: the status is in the range 200-299. *)
Definition ok (r : Response) : bool :=
  (200 <=? status r)%N && (status r <=? 299)%N.

(** [nextUrl.replace(/^http:\/\//, 'https://')] *)
Definition secure (url : string) : string :=
  if String.prefix "http://" url
  then "https://" +:+ String.substring 7 (String.length url - 7) url
  else url.

(** [data && typeof data === 'object' && 'results' in data &&
    Array.isArray(data.results)]: the [results] of a paginated envelope. *)
Definition envelope_results (data : Json) : option (list Json) :=
  match data with
  | JObj fields =>
      match field "results" fields with
      | Some (JArr results) => Some results
      | _ => None
      end
  | _ => None
  end.

Section Fetch.
Context {Srv : Type}.
Variable Number_toString : Q -> string.
(** The authenticated request wrapper: the response to the request for a
    URL in a server state, and the next server state. *)
Variable authenticatedFetch : string -> Srv -> Result Response * Srv.

(** The server, and the URLs requested so far, oldest first. *)
Record World : Type := mkWorld {
  server : Srv;
  requests : list string
}.

Definition request (url : string) (w : World) : Result Response * World :=
  let '(r, s') := authenticatedFetch url (server w) in
  (r, {| server := s'; requests := requests w ++ [url] |}).

(** [apiRequest(endpoint)] *)
Definition apiRequest (endpoint : string) (w : World) : Result Response * World :=
  request (API_BASE_URL +:+ endpoint) w.

(** The [while (nextUrl)] loop of [fetchAllPages]; [fuel] bounds the
    number of pages, and [None] is a loop that has not ended within it. *)
Fixpoint fetchAllPages_loop (fuel : nat) (allResults : list Json)
    (nextUrl : Json) (useAbsolute : bool) (w : World)
    : option (Result (list Json) * World) :=
  if negb (truthy nextUrl) then Some (Ok allResults, w) else
  match fuel with
  | O => None
  | S fuel' =>
      let '(fetched, w1) :=
        if useAbsolute then
          match nextUrl with
          | JStr url => request (secure url) w
          | _ => (Throw (TypeError "nextUrl.replace is not a function"), w)
          end
        else apiRequest (ToString Number_toString nextUrl) w in
      match fetched with
      | Throw e => Some (Throw e, w1)
      | Ok response =>
          if negb (ok response) then
            Some (Throw (Error ("Failed to fetch data: " +:+ pretty (status response))), w1)
          else
            match json response with
            | Throw e => Some (Throw e, w1)
            | Ok data =>
                match envelope_results data with
                | Some results =>
                    let allResults' := allResults ++ results in
                    match prop "next" data with
                    | Some next =>
                        if truthy next
                        then fetchAllPages_loop fuel' allResults' next true w1
                        else fetchAllPages_loop fuel' allResults' JNull useAbsolute w1
                    | None => fetchAllPages_loop fuel' allResults' JNull useAbsolute w1
                    end
                | None =>
                    match data with
                    | JArr items =>
                        fetchAllPages_loop fuel' (allResults ++ items) JNull useAbsolute w1
                    | _ =>
                        fetchAllPages_loop fuel' (allResults ++ [data]) JNull useAbsolute w1
                    end
                end
            end
      end
  end.

Definition fetchAllPages (fuel : nat) (initialUrl : string) (w : World)
    : option (Result (list Json) * World) :=
  fetchAllPages_loop fuel [] (JStr initialUrl) false w.

(** *** Pages *)

(** The URL that one turn of the loop requests. *)
Definition target (nextUrl : Json) (useAbsolute : bool) : option string :=
  if useAbsolute then
    match nextUrl with
    | JStr url => Some (secure url)
    | _ => None
    end
  else Some (API_BASE_URL +:+ ToString Number_toString nextUrl).

(** The request for [url] in world [w] is answered with a success status
    and a paginated envelope holding [results] and the link [next]. *)
Definition serves (url : string) (w : World) (results : list Json)
    (next : Json) (w' : World) : Prop :=
  exists response data,
    request url w = (Ok response, w') /\
    ok response = true /\
    json response = Ok data /\
    envelope_results data = Some results /\
    prop "next" data = Some next.

(** [reads k nextUrl useAbsolute w got nextUrl' useAbsolute' w']: from the
    loop variables [nextUrl], [useAbsolute] in world [w], the server
    answers [k] requests in a row with an envelope that links to a further
    page; [got] is the concatenation of their results, and the loop
    variables and the world after them are [nextUrl'], [useAbsolute'],
    [w']. *)
Inductive reads : nat -> Json -> bool -> World -> list Json ->
                  Json -> bool -> World -> Prop :=
| reads_none nextUrl useAbsolute w :
    reads 0 nextUrl useAbsolute w [] nextUrl useAbsolute w
| reads_page k nextUrl useAbsolute w url results next w1 got nextUrl' useAbsolute' w' :
    truthy nextUrl = true ->
    target nextUrl useAbsolute = Some url ->
    serves url w results next w1 ->
    truthy next = true ->
    reads k next true w1 got nextUrl' useAbsolute' w' ->
    reads (S k) nextUrl useAbsolute w (results ++ got) nextUrl' useAbsolute' w'.

(** *** The loop, turn by turn *)

(** What one turn of the [while (nextUrl)] loop comes to: the function
    has returned or thrown, or the loop goes on with new variables. *)
Inductive Turn : Type :=
| Ended (result : Result (list Json)) (w : World)
| Goes (allResults : list Json) (nextUrl : Json) (useAbsolute : bool) (w : World).

(** The test of the loop and one pass through its body. *)
Definition fetchAllPages_turn (allResults : list Json) (nextUrl : Json)
    (useAbsolute : bool) (w : World) : Turn :=
  if negb (truthy nextUrl) then Ended (Ok allResults) w else
  let '(fetched, w1) :=
    if useAbsolute then
      match nextUrl with
      | JStr url => request (secure url) w
      | _ => (Throw (TypeError "nextUrl.replace is not a function"), w)
      end
    else apiRequest (ToString Number_toString nextUrl) w in
  match fetched with
  | Throw e => Ended (Throw e) w1
  | Ok response =>
      if negb (ok response) then
        Ended (Throw (Error ("Failed to fetch data: " +:+ pretty (status response)))) w1
      else
        match json response with
        | Throw e => Ended (Throw e) w1
        | Ok data =>
            match envelope_results data with
            | Some results =>
                match prop "next" data with
                | Some next =>
                    if truthy next
                    then Goes (allResults ++ results) next true w1
                    else Goes (allResults ++ results) JNull useAbsolute w1
                | None => Goes (allResults ++ results) JNull useAbsolute w1
                end
            | None =>
                match data with
                | JArr items => Goes (allResults ++ items) JNull useAbsolute w1
                | _ => Goes (allResults ++ [data]) JNull useAbsolute w1
                end
            end
        end
  end.

(** The world when the loop has made [turns] turns, or has ended before:
    what has been requested by then, whether or not the loop ever ends. *)
Fixpoint fetchAllPages_world (turns : nat) (allResults : list Json) (nextUrl : Json)
    (useAbsolute : bool) (w : World) : World :=
  match turns with
  | O => w
  | S turns' =>
      match fetchAllPages_turn allResults nextUrl useAbsolute w with
      | Ended _ w' => w'
      | Goes allResults' nextUrl' useAbsolute' w' =>
          fetchAllPages_world turns' allResults' nextUrl' useAbsolute' w'
      end
  end.
End Fetch.

(** *** Range resolution of the metric functions *)

(** The body that [getSleepData], [getSpO2Data], [getHeartRateData],
    [getBloodPressureData], [getStressData] and [getHRVData] share; they
    differ in [path] only.  The result is the URL handed to
    [fetchAllPages]. *)
Definition metric_url (path : string) (userId fromDate toDate range : option string)
    : string :=
  let url :=
    if truthy_opt userId
    then path +:+ "?user_id=" +:+ template_opt userId
    else path +:+ "?" in
  if truthy_opt fromDate && truthy_opt toDate then
    if truthy_opt userId
    then path +:+ "?user_id=" +:+ template_opt userId +:+
         "&from=" +:+ template_opt fromDate +:+ "&to=" +:+ template_opt toDate
    else path +:+ "?from=" +:+ template_opt fromDate +:+ "&to=" +:+ template_opt toDate
  else if truthy_opt range then
    url +:+ "&range=" +:+ template_opt range
  else if truthy_opt fromDate then
    let url := url +:+ "&from=" +:+ template_opt fromDate in
    if truthy_opt toDate then url +:+ "&to=" +:+ template_opt toDate else url
  else if truthy_opt toDate then
    url +:+ "&to=" +:+ template_opt toDate
  else
    url +:+ "&range=24h".

Definition getSleepData_url := metric_url "/api/sleep-data/".
Definition getSpO2Data_url := metric_url "/api/Spo2-data/".
Definition getHeartRateData_url := metric_url "/api/HeartRate_Data/".
Definition getBloodPressureData_url := metric_url "/api/BloodPressure_Data/".
Definition getStressData_url := metric_url "/api/Stress_Data/".
Definition getHRVData_url := metric_url "/api/HRV_Iso_Data/".

(** [getHeartRateData(userId, fromDate, toDate, range)] *)
Definition getHeartRateData {Srv : Type} (Number_toString : Q -> string)
    (authenticatedFetch : string -> Srv -> Result Response * Srv) (fuel : nat)
    (userId fromDate toDate range : option string) (w : World)
    : option (Result (list Json) * World) :=
  fetchAllPages Number_toString authenticatedFetch fuel
    (getHeartRateData_url userId fromDate toDate range) w.

(** What the six functions above put before the range or date parameters. *)
Definition query_head (path : string) (userId : option string) : string :=
  if truthy_opt userId
  then path +:+ "?user_id=" +:+ template_opt userId
  else path +:+ "?".

(** The six functions that go through [fetchAllPages], each with its path. *)
Definition paginated_metrics
    : list ((option string -> option string -> option string -> option string -> string) * string) :=
  [ (getSleepData_url, "/api/sleep-data/");
    (getSpO2Data_url, "/api/Spo2-data/");
    (getHeartRateData_url, "/api/HeartRate_Data/");
    (getBloodPressureData_url, "/api/BloodPressure_Data/");
    (getStressData_url, "/api/Stress_Data/");
    (getHRVData_url, "/api/HRV_Iso_Data/") ].

(** The relative range tokens of the backend. *)
Definition range_tokens : list string := ["24h"; "7d"; "30d"].

(** [haystack.includes(needle)] *)
Fixpoint includes (needle haystack : string) : bool :=
  String.prefix needle haystack ||
  match haystack with
  | EmptyString => false
  | String _ rest => includes needle rest
  end.

(** [URLSearchParams]: the pairs appended so far, and their serialisation
    as [application/x-www-form-urlencoded], byte by byte. *)
Definition URLSearchParams : Type := list (string * string).

Definition append (name value : string) (params : URLSearchParams) : URLSearchParams :=
  params ++ [(name, value)].

Definition hex_digit (n : N) : ascii :=
  ascii_of_N (if (n <? 10)%N then 48 + n else 55 + n).

Definition percent_encode (c : ascii) : string :=
  let n := N_of_ascii c in
  String "%" (String (hex_digit (n / 16)) (String (hex_digit (n mod 16)) "")).

(** The bytes the serialiser leaves as they are: ASCII letters and digits,
    [*], [-], [.] and [_]. *)
Definition form_safe (c : ascii) : bool :=
  let n := N_of_ascii c in
  ((48 <=? n) && (n <=? 57) || (65 <=? n) && (n <=? 90) || (97 <=? n) && (n <=? 122) ||
   (n =? 42) || (n =? 45) || (n =? 46) || (n =? 95))%N.

Fixpoint form_urlencode (s : string) : string :=
  match s with
  | EmptyString => ""
  | String c rest =>
      (if Ascii.eqb c " " then "+"
       else if form_safe c then String c "" else percent_encode c)
      +:+ form_urlencode rest
  end.

(** [params.toString()] *)
Fixpoint params_toString (params : URLSearchParams) : string :=
  match params with
  | [] => ""
  | (name, value) :: rest =>
      let pair := form_urlencode name +:+ "=" +:+ form_urlencode value in
      match rest with
      | [] => pair
      | _ :: _ => pair +:+ "&" +:+ params_toString rest
      end
  end.

(** The URL that [getStepsData(userId, fromDate, toDate, range)] requests. *)
Definition getStepsData_url (userId fromDate toDate range : option string) : string :=
  let url := "/api/Steps/" in
  let params : URLSearchParams := [] in
  let params := if truthy_opt userId then append "user" (template_opt userId) params else params in
  let params :=
    if truthy_opt fromDate && truthy_opt toDate then
      append "to" (template_opt toDate) (append "from" (template_opt fromDate) params)
    else if truthy_opt fromDate then append "from" (template_opt fromDate) params
    else if truthy_opt toDate then append "to" (template_opt toDate) params
    else if truthy_opt range then append "range" (template_opt range) params
    else params in
  if truthy_string (params_toString params)
  then url +:+ "?" +:+ params_toString params
  else url.

(** The URL that [getDayTotalActivity(userId, range)] requests. *)
Definition getDayTotalActivity_url (userId range : option string) : string :=
  let url := "/api/Day_total_activity/" in
  let params : URLSearchParams := [] in
  let params := if truthy_opt userId then append "user_id" (template_opt userId) params else params in
  let params := if truthy_opt range then append "range" (template_opt range) params else params in
  if truthy_string (params_toString params)
  then url +:+ "?" +:+ params_toString params
  else url.

(** A URL of the insecure scheme. *)
Definition plain_http (url : string) : bool := String.prefix "http://" url.

(** How often a character occurs in a string. *)
Fixpoint count_char (c : ascii) (s : string) : nat :=
  match s with
  | EmptyString => 0
  | String c' rest => (if Ascii.eqb c' c then 1 else 0) + count_char c rest
  end.

(** The characters an encoded value is made of: the bytes left as they
    are, [+] for a space, and [%] before two hexadecimal digits. *)
Definition harmless (c : ascii) : bool :=
  form_safe c || Ascii.eqb c "+" || Ascii.eqb c "%".

End Api.


(** ** JavaScript numbers: binary64 arithmetic *)

Module Float64.
Local Open Scope Q_scope.

(** A JavaScript number: a finite binary64 value, an infinity, or [NaN].
    The two zeros are one value: no function modelled here divides by a
    zero that it has computed, or shows the sign of one. *)
Inductive Number : Type :=
| Finite (q : Q)
| Infinity (negative : bool)
| NaN.

(** The integer nearest to [x], the even one of two that are equally near. *)
Definition nearest_even (x : Q) : Z :=
  let f := Qfloor x in
  match Qcompare (x - inject_Z f) (1 # 2) with
  | Lt => f
  | Gt => (f + 1)%Z
  | Eq => if Z.even f then f else (f + 1)%Z
  end.

(** The bits of [x >= 0], counted in units of [2^-1074], that the 53 bits
    of a significand cannot hold. *)
Definition dropped_bits (x : Q) : Z := Z.max 0 (Z.log2 (Qfloor x) - 52).

(** [x >= 0], counted in units of [2^-1074], rounded to 53 significant
    bits. *)
Definition round_units (x : Q) : Z :=
  let s := dropped_bits x in
  (nearest_even (x / inject_Z (2 ^ s)) * 2 ^ s)%Z.

(** The double nearest to a magnitude, with its sign: an infinity from
    [2^1024] on. *)
Definition round_magnitude (negative : bool) (q : Q) : Number :=
  let units := round_units (q * inject_Z (2 ^ 1074)) in
  if (2 ^ 2098 <=? units)%Z then Infinity negative
  else Finite (Qred ((if negative then - units else units)%Z # 2 ^ 1074)).

(** The number that a real is rounded to, to nearest and ties to even:
    what [JSON.parse] makes of a literal, and what every arithmetic
    operation makes of its exact result. *)
Definition to_double (q : Q) : Number :=
  let q := Qred q in
  if Qle_bool 0 q then round_magnitude false q else round_magnitude true (- q).

Definition negative_of (q : Q) : bool := negb (Qle_bool 0 q).

(** [a + b] *)
Definition add (a b : Number) : Number :=
  match a, b with
  | Finite x, Finite y => to_double (x + y)
  | NaN, _ | _, NaN => NaN
  | Infinity s, Infinity t => if Bool.eqb s t then Infinity s else NaN
  | Infinity s, Finite _ | Finite _, Infinity s => Infinity s
  end.

(** [- a] *)
Definition neg (a : Number) : Number :=
  match a with
  | Finite x => Finite (- x)
  | Infinity s => Infinity (negb s)
  | NaN => NaN
  end.

(** [a - b] *)
Definition sub (a b : Number) : Number := add a (neg b).

(** [a * b] *)
Definition mul (a b : Number) : Number :=
  match a, b with
  | Finite x, Finite y => to_double (x * y)
  | NaN, _ | _, NaN => NaN
  | Infinity s, Infinity t => Infinity (xorb s t)
  | Infinity s, Finite y | Finite y, Infinity s =>
      if Qeq_bool y 0 then NaN else Infinity (xorb s (negative_of y))
  end.

(** [a / b]; a zero divisor is taken as [+0]. *)
Definition div (a b : Number) : Number :=
  match a, b with
  | Finite x, Finite y =>
      if Qeq_bool y 0 then (if Qeq_bool x 0 then NaN else Infinity (negative_of x))
      else to_double (x / y)
  | NaN, _ | _, NaN => NaN
  | Infinity _, Infinity _ => NaN
  | Infinity s, Finite y => Infinity (xorb s (negative_of y))
  | Finite _, Infinity _ => Finite 0
  end.

(** [Math.round(x)]: the nearest integer, the greater one of two that are
    equally near. *)
Definition Math_round (x : Number) : Number :=
  match x with
  | Finite q => Finite (inject_Z (Qfloor (q + (1 # 2))))
  | other => other
  end.

(** [Math.min(a, b)] *)
Definition Math_min (a b : Number) : Number :=
  match a, b with
  | NaN, _ | _, NaN => NaN
  | Infinity true, _ | _, Infinity true => Infinity true
  | Infinity false, other | other, Infinity false => other
  | Finite x, Finite y => Finite (Qmin x y)
  end.

(** [if (a)] for a number: zero and [NaN] are falsy. *)
Definition truthy (a : Number) : bool :=
  match a with
  | Finite x => negb (Qeq_bool x 0)
  | Infinity _ => true
  | NaN => false
  end.

(** [a <= b] *)
Definition le (a b : Number) : Prop :=
  match a, b with
  | Finite x, Finite y => x <= y
  | Infinity true, Finite _ | Finite _, Infinity false => True
  | Infinity s, Infinity t => s = true \/ t = false
  | _, _ => False
  end.

(** The number that a value of the standard library's specification of
    floating-point arithmetic stands for. *)
Definition of_spec (f : spec_float) : Number :=
  match f with
  | S754_zero _ => Finite 0
  | S754_infinity negative => Infinity negative
  | S754_nan => NaN
  | S754_finite negative m e =>
      let magnitude :=
        if (0 <=? e)%Z then inject_Z (Z.pos m * 2 ^ e)
        else Z.pos m # 2 ^ Z.to_pos (- e) in
      Finite (Qred (if negative then - magnitude else magnitude))
  end.

(** A literal that writes a whole number from [lo] to [hi]. *)
Definition whole (lo hi : Z) (q : Q) : Prop :=
  exists z, q == inject_Z z /\ (lo <= z <= hi)%Z.

End Float64.

(** ** The [Date] runtime and the code the panels share *)

Module Dates.

(** What the panels use of JavaScript's [Date]: a time value is a number of
    milliseconds, and [None] is [Invalid Date].  The panels are modelled
    over any such runtime. *)
Class Runtime : Type := {
  (** [new Date(s)] *)
  Date_parse : string -> option Z;
  (** [d.toISOString().split('T')[0]] for a valid date *)
  toISODate : Z -> string;
  (** [d.toLocaleTimeString('en-US', ...)] *)
  toLocaleTimeString : option Z -> string;
  (** [d.toLocaleString('en-US', ...)], seconds included *)
  toLocaleString : option Z -> string;
  (** [d.toLocaleString('en-US', ...)], without the seconds *)
  toLocaleStringShort : option Z -> string
}.

End Dates.

(** ** A [Date] runtime: the calendar of [Date.parse] and [toISOString]

    The properties hold for every runtime; this one, which computes in
    UTC, is the runtime of the examples. *)

Module Calendar.
Import Dates.
Local Open Scope Z_scope.

(** The number of days from 1970-01-01 to the day [d] of month [m] of year
    [y] in the proleptic Gregorian calendar. *)
Definition days_from_civil (y m d : Z) : Z :=
  let y := if m <=? 2 then y - 1 else y in
  let era := y / 400 in
  let yoe := y - era * 400 in
  let doy := (153 * (if 2 <? m then m - 3 else m + 9) + 2) / 5 + d - 1 in
  let doe := yoe * 365 + yoe / 4 - yoe / 100 + doy in
  era * 146097 + doe - 719468.

(** Year, month and day of a number of days from 1970-01-01. *)
Definition civil_from_days (days : Z) : Z * Z * Z :=
  let z := days + 719468 in
  let era := z / 146097 in
  let doe := z - era * 146097 in
  let yoe := (doe - doe / 1460 + doe / 36524 - doe / 146096) / 365 in
  let doy := doe - (365 * yoe + yoe / 4 - yoe / 100) in
  let mp := (5 * doy + 2) / 153 in
  let d := doy - (153 * mp + 2) / 5 + 1 in
  let m := if mp <? 10 then mp + 3 else mp - 9 in
  let y := yoe + era * 400 in
  (if m <=? 2 then y + 1 else y, m, d).

Definition msPerDay : Z := 86400000.

Definition digit (n : Z) : ascii := ascii_of_N (48 + Z.to_N (n mod 10)).

(** [n] in [width] decimal digits, with leading zeros. *)
Fixpoint digits (width : nat) (n : Z) : string :=
  match width with
  | O => ""
  | S width' => digits width' (n / 10) +:+ String (digit n) ""
  end.

(** The year of [toISOString]: four digits from 0 to 9999, and a sign and
    six digits outside. *)
Definition iso_year (y : Z) : string :=
  if (0 <=? y) && (y <=? 9999) then digits 4 y
  else if y <? 0 then "-" +:+ digits 6 (- y)
  else "+" +:+ digits 6 y.

(** [d.toISOString().split('T')[0]] *)
Definition toISODate (t : Z) : string :=
  let '(y, m, d) := civil_from_days (t / msPerDay) in
  iso_year y +:+ "-" +:+ digits 2 m +:+ "-" +:+ digits 2 d.

Definition is_digit (c : ascii) : bool :=
  let n := N_of_ascii c in (48 <=? n)%N && (n <=? 57)%N.

(** The number that a string of decimal digits writes. *)
Fixpoint number (cs : list ascii) (acc : Z) : option Z :=
  match cs with
  | [] => Some acc
  | c :: rest =>
      if is_digit c then number rest (10 * acc + (Z.of_N (N_of_ascii c) - 48))
      else None
  end.

Definition leap (y : Z) : bool :=
  (y mod 4 =? 0) && (negb (y mod 100 =? 0) || (y mod 400 =? 0)).

Definition days_in_month (y m : Z) : Z :=
  if m =? 2 then (if leap y then 29 else 28)
  else if (m =? 4) || (m =? 6) || (m =? 9) || (m =? 11) then 30
  else 31.

(** The time value of midnight UTC of a date, when the date exists. *)
Definition date_value (y m d : Z) : option Z :=
  if (1 <=? m) && (m <=? 12) && (1 <=? d) && (d <=? days_in_month y m)
  then Some (days_from_civil y m d * msPerDay)
  else None.

(** The milliseconds of a time of day; [24:00:00] is the end of the day. *)
Definition time_value (h mi s ms : Z) : option Z :=
  if ((h <=? 23) && (mi <=? 59) && (s <=? 59)) ||
     ((h =? 24) && (mi =? 0) && (s =? 0) && (ms =? 0))
  then Some (((h * 60 + mi) * 60 + s) * 1000 + ms)
  else None.

Definition char_is (expected : string) (c : ascii) : bool :=
  String.eqb (String c "") expected.

(** The number that the first [n] characters write, and the characters
    after them. *)
Definition read_digits (n : nat) (cs : list ascii) : option (Z * list ascii) :=
  if (length (take n cs) =? n)%nat then
    match number (take n cs) 0 with
    | Some v => Some (v, drop n cs)
    | None => None
    end
  else None.

(** A separator and two digits. *)
Definition read_field (separator : string) (cs : list ascii) : option (Z * list ascii) :=
  match cs with
  | c :: rest => if char_is separator c then read_digits 2 rest else None
  | [] => None
  end.

(** The year: four digits, or a sign and six digits; [-000000] is no year. *)
Definition read_year (cs : list ascii) : option (Z * list ascii) :=
  match cs with
  | c :: rest =>
      if char_is "+" c then read_digits 6 rest
      else if char_is "-" c then
        match read_digits 6 rest with
        | Some (y, after) => if y =? 0 then None else Some (- y, after)
        | None => None
        end
      else read_digits 4 cs
  | [] => None
  end.

(** The digits that a list of characters begins with. *)
Fixpoint leading_digits (cs : list ascii) : list ascii :=
  match cs with
  | c :: rest => if is_digit c then c :: leading_digits rest else []
  | [] => []
  end.

(** The milliseconds that the digits after the decimal point write; the
    digits after the third are dropped. *)
Definition read_fraction (cs : list ascii) : option (Z * list ascii) :=
  match cs with
  | c :: rest =>
      if char_is "." c then
        let written := leading_digits rest in
        match written with
        | [] => None
        | _ :: _ =>
            match number (take 3 (written ++ ["0"; "0"; "0"]%char)) 0 with
            | Some ms => Some (ms, drop (length written) rest)
            | None => None
            end
        end
      else Some (0, cs)
  | [] => Some (0, cs)
  end.

(** The offset from UTC in milliseconds: [Z], or a sign, hours and
    minutes; without an offset the time is local, which is UTC here. *)
Definition read_offset (cs : list ascii) : option Z :=
  match cs with
  | [] => Some 0
  | c :: rest =>
      if char_is "Z" c then (match rest with [] => Some 0 | _ :: _ => None end)
      else if char_is "+" c || char_is "-" c then
        match read_digits 2 rest with
        | Some (h, after) =>
            match read_field ":" after with
            | Some (mi, []) =>
                if (h <=? 23) && (mi <=? 59)
                then Some ((if char_is "-" c then -1 else 1) * (h * 60 + mi) * 60000)
                else None
            | _ => None
            end
        | None => None
        end
      else None
  end.

(** The time of day after the [T], and the offset: [HH:mm], [HH:mm:ss] or
    [HH:mm:ss.sss]. *)
Definition read_time (cs : list ascii) : option Z :=
  match read_digits 2 cs with
  | Some (h, after_hours) =>
      match read_field ":" after_hours with
      | Some (mi, after_minutes) =>
          let '(s, ms, after_seconds) :=
            match read_field ":" after_minutes with
            | Some (s, after) =>
                match read_fraction after with
                | Some (ms, rest) => (s, ms, rest)
                | None => (s, 0, after)
                end
            | None => (0, 0, after_minutes)
            end in
          match time_value h mi s ms, read_offset after_seconds with
          | Some time, Some offset => Some (time - offset)
          | _, _ => None
          end
      | None => None
      end
  | None => None
  end.

(** A time value is at most 100,000,000 days from the epoch. *)
Definition time_clip (t : Z) : option Z :=
  if (-8640000000000000 <=? t) && (t <=? 8640000000000000) then Some t else None.

(** [Date.parse(s)] on the date-time string format of the language:
    [YYYY], [YYYY-MM] or [YYYY-MM-DD], alone or followed by [T], a time
    and an offset.  Any other string is taken as an invalid date, where an
    engine may fall back on formats of its own. *)
Definition parse (s : string) : option Z :=
  match read_year (list_ascii_of_string s) with
  | Some (y, after_year) =>
      let '(m, d, after_date) :=
        match read_field "-" after_year with
        | Some (m, after_month) =>
            match read_field "-" after_month with
            | Some (d, after_day) => (m, d, after_day)
            | None => (m, 1, after_month)
            end
        | None => (1, 1, after_year)
        end in
      match date_value y m d, after_date with
      | Some day, [] => time_clip day
      | Some day, c :: after_t =>
          if char_is "T" c then
            match read_time after_t with
            | Some time => time_clip (day + time)
            | None => None
            end
          else None
      | None, _ => None
      end
  | None => None
  end.

Definition month_name (m : Z) : string :=
  nth (Z.to_nat (m - 1))
    ["Jan"; "Feb"; "Mar"; "Apr"; "May"; "Jun"; "Jul"; "Aug"; "Sep"; "Oct"; "Nov"; "Dec"] "".

(** The time of day on the 12-hour clock, with or without the seconds. *)
Definition clock (seconds : bool) (t : Z) : string :=
  let time := t mod msPerDay in
  let h := time / 3600000 in
  let mi := (time / 60000) mod 60 in
  let s := (time / 1000) mod 60 in
  digits 2 (if h mod 12 =? 0 then 12 else h mod 12) +:+ ":" +:+ digits 2 mi +:+
  (if seconds then ":" +:+ digits 2 s else "") +:+
  (if h <? 12 then " AM" else " PM").

(** Month and day as [en-US] writes them with [month: 'short'] and
    [day: 'numeric']. *)
Definition month_day (t : Z) : string :=
  let '(_, m, d) := civil_from_days (t / msPerDay) in
  month_name m +:+ " " +:+ pretty d.

(** The [Date] of an engine whose time zone is UTC. *)
Definition utc : Runtime := {|
  Date_parse := parse;
  Dates.toISODate := toISODate;
  toLocaleTimeString := fun d =>
    match d with
    | Some t => clock false t
    | None => "Invalid Date"
    end;
  toLocaleString := fun d =>
    match d with
    | Some t => month_day t +:+ ", " +:+ clock true t
    | None => "Invalid Date"
    end;
  toLocaleStringShort := fun d =>
    match d with
    | Some t => month_day t +:+ ", " +:+ clock false t
    | None => "Invalid Date"
    end
|}.

End Calendar.

Module Shared.
Import Js Dates.

Definition is_digit (c : ascii) : bool :=
  let n := N_of_ascii c in (48 <=? n)%N && (n <=? 57)%N.

Definition is_dash (c : ascii) : bool := Ascii.eqb c "-".

(** [/^\d{4}-\d{2}-\d{2}$/.test(date)] *)
Definition is_ymd (date : string) : bool :=
  match list_ascii_of_string date with
  | [y1; y2; y3; y4; d1; m1; m2; d2; a1; a2] =>
      is_digit y1 && is_digit y2 && is_digit y3 && is_digit y4 && is_dash d1 &&
      is_digit m1 && is_digit m2 && is_dash d2 && is_digit a1 && is_digit a2
  | _ => false
  end.

(** [formatDateForAPI(date)]; [toISOString] throws on an invalid date. *)
Definition formatDateForAPI `{Runtime} (date : option string) : Result (option string) :=
  match date with
  | None => Ok None
  | Some s =>
      if negb (truthy_string s) then Ok None
      else if is_ymd s then Ok (Some s)
      else match Date_parse s with
           | Some d => Ok (Some (toISODate d))
           | None => Throw (RangeError "Invalid time value")
           end
  end.

(** The [dateRange] prop. *)
Record DateRange : Type := mkDateRange {
  from : option string;
  to : option string;
  customRange : bool;
  period : option string
}.

(** The props a panel's fetch depends on; [dateRange] may be [undefined]. *)
Record Props : Type := mkProps {
  selectedUserId : option string;
  dateRange : option DateRange
}.

(** [dateRange?.period === name] *)
Definition period_is (name : string) (dr : option DateRange) : bool :=
  match dr with
  | Some r => match period r with
              | Some p => String.eqb p name
              | None => false
              end
  | None => false
  end.

Section Sort.
Context `{Runtime} {A : Type}.
Variable date_of : A -> string.

(** The comparator [(a, b) => new Date(a.date) - new Date(b.date)];
    [None] is [NaN]. *)
Definition by_date (a b : A) : option Z :=
  match Date_parse (date_of a), Date_parse (date_of b) with
  | Some ta, Some tb => Some (ta - tb)%Z
  | _, _ => None
  end.

(** How [Array.prototype.sort] reads a comparator's result: [NaN] is
    taken as [+0]. *)
Definition sort_compare (a b : A) : Z :=
  match by_date a b with
  | Some v => v
  | None => 0%Z
  end.

(** Two items are in order when the comparator does not put the second
    before the first. *)
Definition in_order (a b : A) : Prop := (sort_compare a b <= 0)%Z.

Fixpoint sort_insert (x : A) (sorted : list A) : list A :=
  match sorted with
  | [] => [x]
  | y :: rest =>
      if (sort_compare x y <=? 0)%Z then x :: y :: rest
      else y :: sort_insert x rest
  end.

(** [data.sort(comparator)]: the sort is stable, so on dates that all
    parse its result is the one of this insertion sort.  With an invalid
    date the comparator is not consistent and the order is left to the
    engine; the properties that speak of the order assume [all_valid]. *)
Fixpoint sort (data : list A) : list A :=
  match data with
  | [] => []
  | x :: rest => sort_insert x (sort rest)
  end.

(** Every date of the series parses. *)
Definition all_valid (data : list A) : Prop :=
  Forall (fun item => is_Some (Date_parse (date_of item))) data.
End Sort.

End Shared.

(** ** The cache of a panel: [cacheRef.current], a [Map] *)

Module Cache.

Record Entry (A : Type) : Type := mkEntry {
  data : A;
  timestamp : Z
}.
Arguments mkEntry {A} data timestamp.
Arguments data {A} e.
Arguments timestamp {A} e.

(** [5 * 60 * 1000] *)
Definition TTL : Z := (5 * 60 * 1000)%Z.

(** The lookup at the head of a fetch: [cacheRef.current.has(cacheKey)]
    and [now - cachedData.timestamp < 5 * 60 * 1000]. *)
Definition get {A : Type} (cacheKey : string) (now : Z) (cache : gmap string (Entry A))
    : option A :=
  match cache !! cacheKey with
  | Some cachedData =>
      if (now - timestamp cachedData <? TTL)%Z then Some (data cachedData) else None
  | None => None
  end.

(** [cacheRef.current.set(cacheKey, { data, timestamp: Date.now() })] *)
Definition put {A : Type} (cacheKey : string) (payload : A) (now : Z)
    (cache : gmap string (Entry A)) : gmap string (Entry A) :=
  <[cacheKey := mkEntry payload now]> cache.

(** A run of [set] calls, oldest first: key, payload and time of each. *)
Definition puts {A : Type} (calls : list (string * A * Z)) (cache : gmap string (Entry A))
    : gmap string (Entry A) :=
  fold_left (fun c '(k, payload, now) => put k payload now c) calls cache.

End Cache.

(** ** [src/components/HeartRateDataComponent.jsx] *)

Module HeartRate.
Import Js Dates Shared.

(** One record of the heart-rate endpoint, with the fields the panel reads. *)
Record Sample : Type := mkSample {
  date : string;
  once_heart_value : Q
}.

(** The locals of [fetchHeartRateData] that are alive across its [await]:
    the arguments of [getHeartRateData] and the cache key. *)
Record Pending : Type := mkPending {
  userId : option string;
  fromDate : option string;
  toDate : option string;
  range : option string;
  cacheKey : string
}.

(** The component instance: its state ([useState]), its refs ([useRef]),
    every [AbortController] it has created with the [aborted] flag of its
    signal, and the calls of the [onHeartRateDataUpdate] prop, oldest
    first.  [abortControllerRef] is an index into [controllers]. *)
Record Panel : Type := mkPanel {
  heartRateData : list Sample;
  loading : bool;
  error : option string;
  cacheRef : gmap string (Cache.Entry (list Sample));
  abortControllerRef : option nat;
  isMountedRef : bool;
  controllers : list bool;
  updates : list (list Sample)
}.

Definition initial : Panel :=
  {| heartRateData := []; loading := true; error := None; cacheRef := ∅;
     abortControllerRef := None; isMountedRef := true; controllers := [];
     updates := [] |}.

Definition setHeartRateData (v : list Sample) (p : Panel) : Panel :=
  {| heartRateData := v; loading := loading p; error := error p;
     cacheRef := cacheRef p; abortControllerRef := abortControllerRef p;
     isMountedRef := isMountedRef p; controllers := controllers p;
     updates := updates p |}.

Definition setLoading (v : bool) (p : Panel) : Panel :=
  {| heartRateData := heartRateData p; loading := v; error := error p;
     cacheRef := cacheRef p; abortControllerRef := abortControllerRef p;
     isMountedRef := isMountedRef p; controllers := controllers p;
     updates := updates p |}.

Definition setError (v : option string) (p : Panel) : Panel :=
  {| heartRateData := heartRateData p; loading := loading p; error := v;
     cacheRef := cacheRef p; abortControllerRef := abortControllerRef p;
     isMountedRef := isMountedRef p; controllers := controllers p;
     updates := updates p |}.

Definition set_cache (v : gmap string (Cache.Entry (list Sample))) (p : Panel) : Panel :=
  {| heartRateData := heartRateData p; loading := loading p; error := error p;
     cacheRef := v; abortControllerRef := abortControllerRef p;
     isMountedRef := isMountedRef p; controllers := controllers p;
     updates := updates p |}.

Definition set_mounted (v : bool) (p : Panel) : Panel :=
  {| heartRateData := heartRateData p; loading := loading p; error := error p;
     cacheRef := cacheRef p; abortControllerRef := abortControllerRef p;
     isMountedRef := v; controllers := controllers p;
     updates := updates p |}.

(** [onHeartRateDataUpdate(data)] *)
Definition onHeartRateDataUpdate (v : list Sample) (p : Panel) : Panel :=
  {| heartRateData := heartRateData p; loading := loading p; error := error p;
     cacheRef := cacheRef p; abortControllerRef := abortControllerRef p;
     isMountedRef := isMountedRef p; controllers := controllers p;
     updates := updates p ++ [v] |}.

(** [if (abortControllerRef.current) abortControllerRef.current.abort()] *)
Definition abort_current (p : Panel) : Panel :=
  match abortControllerRef p with
  | Some c =>
      {| heartRateData := heartRateData p; loading := loading p; error := error p;
         cacheRef := cacheRef p; abortControllerRef := abortControllerRef p;
         isMountedRef := isMountedRef p; controllers := <[c := true]> (controllers p);
         updates := updates p |}
  | None => p
  end.

(** [abortControllerRef.current = new AbortController()] *)
Definition new_controller (p : Panel) : Panel :=
  {| heartRateData := heartRateData p; loading := loading p; error := error p;
     cacheRef := cacheRef p; abortControllerRef := Some (length (controllers p));
     isMountedRef := isMountedRef p; controllers := controllers p ++ [false];
     updates := updates p |}.

(** [abortControllerRef.current.signal.aborted]; [None] when the ref holds
    [null]. *)
Definition current_aborted (p : Panel) : option bool :=
  match abortControllerRef p with
  | Some c => controllers p !! c
  | None => None
  end.

(** [error.name === 'AbortError' || error.code === 'ERR_CANCELED'] *)
Definition is_abort (e : JsError) : bool :=
  String.eqb (err_name e) "AbortError" ||
  match err_code e with
  | Some code => String.eqb code "ERR_CANCELED"
  | None => false
  end.

Definition failure_message : string :=
  "Failed to load heart rate data. Please try again.".

(** The [catch] block. *)
Definition on_catch (e : JsError) (p : Panel) : Panel :=
  if is_abort e || negb (isMountedRef p) then p
  else if isMountedRef p then setError (Some failure_message) p else p.

(** The [finally] block; [?.] reads the flag of a [null] ref as
    [undefined]. *)
Definition on_finally (p : Panel) : Panel :=
  if isMountedRef p &&
     negb (match current_aborted p with Some aborted => aborted | None => false end)
  then setLoading false p
  else p.

Section Fetch.
Context `{Runtime}.

(** The range resolution at the head of the [try] block: the arguments
    of the request and the cache key. *)
Definition resolve (props : Props) : Result Pending :=
  let user :=
    if truthy_opt (selectedUserId props)
    then template_opt (selectedUserId props) else "null" in
  let custom :=
    match dateRange props with
    | Some r => customRange r && truthy_opt (from r) && truthy_opt (to r)
    | None => false
    end in
  if custom then
    let r := match dateRange props with
             | Some r => r
             | None => mkDateRange None None false None
             end in
    match formatDateForAPI (from r) with
    | Throw e => Throw e
    | Ok fromDate =>
        match formatDateForAPI (to r) with
        | Throw e => Throw e
        | Ok toDate =>
            Ok {| userId := selectedUserId props; fromDate := fromDate;
                  toDate := toDate; range := None;
                  cacheKey := user +:+ "-" +:+ template_opt fromDate +:+ "-" +:+
                              template_opt toDate |}
        end
    end
  else
    let range :=
      if period_is "today" (dateRange props) then "24h"
      else if period_is "week" (dateRange props) then "7d"
      else if period_is "month" (dateRange props) then "30d"
      else "24h" in
    Ok {| userId := selectedUserId props; fromDate := None; toDate := None;
          range := Some range; cacheKey := user +:+ "-" +:+ range |}.

(** [fetchHeartRateData] up to its [await]: either it has returned
    ([None]), or it awaits [getHeartRateData] with the arguments in the
    [Pending].  [now] is what [Date.now()] returns. *)
Definition fetchHeartRateData (props : Props) (now : Z) (p : Panel)
    : Panel * option Pending :=
  let p := abort_current p in
  let p := new_controller p in
  let p := setLoading true p in
  let p := setError None p in
  match resolve props with
  | Throw e => (on_finally (on_catch e p), None)
  | Ok pending =>
      match Cache.get (cacheKey pending) now (cacheRef p) with
      | Some cached =>
          let p :=
            if isMountedRef p
            then setLoading false (onHeartRateDataUpdate cached (setHeartRateData cached p))
            else p in
          (on_finally p, None)
      | None => (p, Some pending)
      end
  end.

(** [fetchHeartRateData] from its [await] on, when the promise of
    [getHeartRateData] has settled with [outcome]. *)
Definition resume (pending : Pending) (outcome : Result (list Sample)) (now : Z)
    (p : Panel) : Panel :=
  match outcome with
  | Throw e => on_finally (on_catch e p)
  | Ok data =>
      if negb (isMountedRef p) then on_finally p
      else
        match current_aborted p with
        | None =>
            on_finally
              (on_catch (TypeError "Cannot read properties of null (reading 'signal')") p)
        | Some true => on_finally p
        | Some false =>
            match data with
            | _ :: _ =>
                let sortedData := sort date data in
                let p := set_cache (Cache.put (cacheKey pending) sortedData now (cacheRef p)) p in
                let p :=
                  if isMountedRef p
                  then onHeartRateDataUpdate sortedData (setHeartRateData sortedData p)
                  else p in
                on_finally p
            | [] =>
                let p :=
                  if isMountedRef p
                  then onHeartRateDataUpdate [] (setHeartRateData [] p)
                  else p in
                on_finally p
            end
        end
  end.

(** The body of the [useEffect]. *)
Definition effect (props : Props) (now : Z) (p : Panel) : Panel * option Pending :=
  fetchHeartRateData props now (set_mounted true p).

(** The cleanup the [useEffect] returns. *)
Definition cleanup (p : Panel) : Panel :=
  abort_current (set_mounted false p).

(** *** The panel and its requests in flight *)

Record System : Type := mkSystem {
  panel : Panel;
  (** the calls of [getHeartRateData] that have not settled, oldest first *)
  inflight : list Pending;
  (** every call of [getHeartRateData], oldest first *)
  calls : list Pending
}.

Inductive Event : Type :=
| Effect (props : Props) (now : Z)
| Cleanup
| Retry (props : Props) (now : Z)
| Settle (i : nat) (outcome : Result (list Sample)) (now : Z).

Definition start (sys : System) (r : Panel * option Pending) : System :=
  match r with
  | (p, Some pending) =>
      {| panel := p; inflight := inflight sys ++ [pending];
         calls := calls sys ++ [pending] |}
  | (p, None) => {| panel := p; inflight := inflight sys; calls := calls sys |}
  end.

Definition step (sys : System) (ev : Event) : System :=
  match ev with
  | Effect props now => start sys (effect props now (panel sys))
  | Cleanup => {| panel := cleanup (panel sys); inflight := inflight sys; calls := calls sys |}
  | Retry props now => start sys (fetchHeartRateData props now (panel sys))
  | Settle i outcome now =>
      match inflight sys !! i with
      | Some pending =>
          {| panel := resume pending outcome now (panel sys);
             inflight := delete i (inflight sys); calls := calls sys |}
      | None => sys
      end
  end.

Definition run (events : list Event) (sys : System) : System :=
  fold_left step events sys.

Definition boot : System := {| panel := initial; inflight := []; calls := [] |}.
End Fetch.

(** *** Vocabulary of the properties *)

(** The refs that only [fetchHeartRateData], the effect and its cleanup
    write. *)
Definition refs (p : Panel) : option nat * list bool * bool :=
  (abortControllerRef p, controllers p, isMountedRef p).

(** The results of the requests that settled with success in a run of
    [events] from [sys], oldest first.  A [Settle] counts when it names a
    request that is in flight. *)
Fixpoint successes `{Runtime} (events : list Event) (sys : System)
    : list (list Sample) :=
  match events with
  | [] => []
  | ev :: rest =>
      match ev with
      | Settle i (Ok data) _ =>
          match inflight sys !! i with
          | Some _ => [data]
          | None => []
          end
      | _ => []
      end ++ successes rest (step sys ev)
  end.

(** While the panel is mounted the controller in the ref is not aborted,
    and while a request is in flight the ref holds a controller. *)
Definition steady (sys : System) : Prop :=
  (isMountedRef (panel sys) = true -> current_aborted (panel sys) <> Some true) /\
  (inflight sys <> [] -> exists aborted, current_aborted (panel sys) = Some aborted).

(** A payload comes from a success when it is the sorted result of a
    request that settled with success in the run of [events] from mount;
    the empty series is the sorted result of a request that settled with no
    records. *)
Definition from_success `{Runtime} (events : list Event) (payload : list Sample) : Prop :=
  exists data, In data (successes events boot) /\ payload = sort date data.

(** Every series handed to the parent, and every series in the cache,
    comes from a success. *)
Definition sourced `{Runtime} (events : list Event) (p : Panel) : Prop :=
  Forall (from_success events) (updates p) /\
  forall key entry, cacheRef p !! key = Some entry -> from_success events (Cache.data entry).

(** *** What the component renders *)

(** The four returns of the component: the spinner, the error with its
    Retry button, the "no data" card, and the chart. *)
Inductive View : Type :=
| ViewLoading
| ViewError (message : string)
| ViewNoData
| ViewChart (series : list Sample).

Definition render (p : Panel) : View :=
  if loading p then ViewLoading
  else if truthy_opt (error p) then ViewError (template_opt (error p))
  else match heartRateData p with
       | [] => ViewNoData
       | _ :: _ => ViewChart (heartRateData p)
       end.

(** *** Derived statistics *)

(** A chart point of [processHeartRateData]. *)
Record Point : Type := mkPoint {
  time : string;
  value : Q;
  fullTime : string;
  point_date : string;
  rawDate : option Z
}.

(** [processHeartRateData(data)]; [None] is a [null] argument. *)
Definition processHeartRateData `{Runtime} (data : option (list Sample)) : list Point :=
  match data with
  | None => []
  | Some items =>
      map (fun item =>
             {| time := toLocaleTimeString (Date_parse (date item));
                value := once_heart_value item;
                fullTime := toLocaleString (Date_parse (date item));
                point_date := date item;
                rawDate := Date_parse (date item) |}) items
  end.

(** [calculateAverageHeartRate(data)]: a reading is the double of its
    literal, and the sum and the mean are computed in binary64.  The
    length of an array is a whole number below [2^32], which is a
    double. *)
Definition calculateAverageHeartRate (data : option (list Sample)) : Float64.Number :=
  match data with
  | None => Float64.Finite 0
  | Some [] => Float64.Finite 0
  | Some items =>
      let sum :=
        fold_left (fun acc item =>
                     Float64.add acc (Float64.to_double (once_heart_value item)))
                  items (Float64.Finite 0) in
      Float64.Math_round
        (Float64.div sum (Float64.Finite (inject_Z (Z.of_nat (length items)))))
  end.

Record MinMax : Type := mkMinMax { min : Q; max : Q }.

(** [calculateMinMaxHeartRate(data)]; on a non-empty list
    [Math.min(...values)] folds the minimum from the first value on. *)
Definition calculateMinMaxHeartRate (data : option (list Sample)) : MinMax :=
  match data with
  | None => {| min := 0; max := 0 |}
  | Some [] => {| min := 0; max := 0 |}
  | Some (first :: rest) =>
      let values := map once_heart_value rest in
      {| min := fold_left Qmin values (once_heart_value first);
         max := fold_left Qmax values (once_heart_value first) |}
  end.

(** [getLatestReading()]: the last record of the series, or [null]. *)
Definition getLatestReading (p : Panel) : option Sample :=
  last (heartRateData p).

(** What [getHeartRateStatus] returns. *)
Record Status : Type := mkStatus {
  status : string;
  color : string;
  bgColor : string
}.

(** [getHeartRateStatus(value)] *)
Definition getHeartRateStatus (value : Q) : Status :=
  if Qle_bool 60 value && Qle_bool value 100 then
    {| status := "Normal"; color := "text-green-600";
       bgColor := "bg-green-50 dark:bg-green-900/20" |}
  else if Qle_bool 50 value && Qle_bool value 120 then
    {| status := "Elevated"; color := "text-yellow-600";
       bgColor := "bg-yellow-50 dark:bg-yellow-900/20" |}
  else if negb (Qle_bool 50 value) then
    {| status := "Low"; color := "text-blue-600";
       bgColor := "bg-blue-50 dark:bg-blue-900/20" |}
  else
    {| status := "High"; color := "text-red-600";
       bgColor := "bg-red-50 dark:bg-red-900/20" |}.

(** The domain of the chart's Y axis:
    [Math.max(40, Math.min(60, min - 10))] and
    [Math.min(200, Math.max(120, max + 10))]. *)
Definition yMin (data : option (list Sample)) : Q :=
  Qmax 40 (Qmin 60 (min (calculateMinMaxHeartRate data) - 10)).

Definition yMax (data : option (list Sample)) : Q :=
  Qmin 200 (Qmax 120 (max (calculateMinMaxHeartRate data) + 10)).

(** *** More vocabulary of the properties *)

(** No controller but the one in the ref is live. *)
Definition one_live (p : Panel) : Prop :=
  forall c, controllers p !! c = Some false -> abortControllerRef p = Some c.

(** Whether the selection is a custom range with both of its dates. *)
Definition custom_selected (props : Props) : bool :=
  match dateRange props with
  | Some r => customRange r && truthy_opt (from r) && truthy_opt (to r)
  | None => false
  end.

(** Every series in the cache has records, and is in order when all of
    its dates parse. *)
Definition kept_well `{Runtime} (p : Panel) : Prop :=
  forall key entry,
    cacheRef p !! key = Some entry ->
    Cache.data entry <> [] /\
    (all_valid date (Cache.data entry) -> Sorted (in_order date) (Cache.data entry)).

End HeartRate.

(** ** [src/components/SpO2DataComponent.jsx] *)

Module SpO2.
Import Js Dates Shared.

Record Sample : Type := mkSample {
  date : string;
  Blood_oxygen : Q
}.

Record Point : Type := mkPoint {
  time : string;
  value : Q;
  fullTime : string;
  point_date : string;
  rawDate : option Z
}.

(** The [forEach] of [processSpO2Data]: an item is pushed to [uniqueData]
    unless its [date] is in [seenDates] already. *)
Fixpoint unique (seenDates : gset string) (data : list Sample) : list Sample :=
  match data with
  | [] => []
  | item :: rest =>
      if decide (date item ∈ seenDates) then unique seenDates rest
      else item :: unique ({[date item]} ∪ seenDates) rest
  end.

(** The chart point that the [map] of [processSpO2Data] makes of an item. *)
Definition chart_point `{Runtime} (item : Sample) : Point :=
  {| time := toLocaleTimeString (Date_parse (date item));
     value := Blood_oxygen item;
     fullTime := toLocaleString (Date_parse (date item));
     point_date := date item;
     rawDate := Date_parse (date item) |}.

(** [processSpO2Data(data)]; [None] is a [null] argument. *)
Definition processSpO2Data `{Runtime} (data : option (list Sample)) : list Point :=
  match data with
  | None => []
  | Some [] => []
  | Some items =>
      let uniqueData := unique ∅ items in
      let sortedData := sort date uniqueData in
      map chart_point sortedData
  end.

(** The first item of a series that carries a given [date]. *)
Definition first_with (d : string) (data : list Sample) : option Sample :=
  find (fun item => String.eqb (date item) d) data.

(** The point of a chart that carries a given [date]. *)
Definition point_with (d : string) (points : list Point) : option Point :=
  find (fun pt => String.eqb (point_date pt) d) points.

(** Two neighbours of a chart are in ascending order of time; a point
    whose date is invalid compares as equal to any other, as in [sort]. *)
Definition ascending (p q : Point) : Prop :=
  match rawDate p, rawDate q with
  | Some tp, Some tq => (tp <= tq)%Z
  | _, _ => True
  end.

(** [calculateAverageSpO2(data)], in binary64 as the average of the
    heart-rate panel. *)
Definition calculateAverageSpO2 (data : option (list Sample)) : Float64.Number :=
  match data with
  | None => Float64.Finite 0
  | Some [] => Float64.Finite 0
  | Some items =>
      let sum :=
        fold_left (fun acc item =>
                     Float64.add acc (Float64.to_double (Blood_oxygen item)))
                  items (Float64.Finite 0) in
      Float64.Math_round
        (Float64.div sum (Float64.Finite (inject_Z (Z.of_nat (length items)))))
  end.

Record MinMax : Type := mkMinMax { min : Q; max : Q }.

(** [calculateMinMaxSpO2(data)] *)
Definition calculateMinMaxSpO2 (data : option (list Sample)) : MinMax :=
  match data with
  | None => {| min := 0; max := 0 |}
  | Some [] => {| min := 0; max := 0 |}
  | Some (first :: rest) =>
      let values := map Blood_oxygen rest in
      {| min := fold_left Qmin values (Blood_oxygen first);
         max := fold_left Qmax values (Blood_oxygen first) |}
  end.

End SpO2.

(** ** The series processing of the other panels

    [BloodPressureDataComponent.jsx], the stress panel and the HRV panel
    turn their series into chart points with one [map], as the heart-rate
    panel does. *)

Module BloodPressure.
Import Dates.

Record Sample : Type := mkSample { date : string; sbp : Q; dbp : Q }.

Record Point : Type := mkPoint {
  time : string;
  systolic : Q;
  diastolic : Q;
  fullTime : string;
  point_date : string
}.

(** [processBPData(data)] *)
Definition processBPData `{Runtime} (data : option (list Sample)) : list Point :=
  match data with
  | None => []
  | Some items =>
      map (fun item =>
             {| time := toLocaleTimeString (Date_parse (date item));
                systolic := sbp item;
                diastolic := dbp item;
                fullTime := toLocaleStringShort (Date_parse (date item));
                point_date := date item |}) items
  end.

End BloodPressure.

Module Stress.
Import Dates.

Record Sample : Type := mkSample { date : string; stress : Q }.

Record Point : Type := mkPoint {
  time : string;
  value : Q;
  fullTime : string;
  point_date : string
}.

(** [processStressData(data)] *)
Definition processStressData `{Runtime} (data : option (list Sample)) : list Point :=
  match data with
  | None => []
  | Some items =>
      map (fun item =>
             {| time := toLocaleTimeString (Date_parse (date item));
                value := stress item;
                fullTime := toLocaleStringShort (Date_parse (date item));
                point_date := date item |}) items
  end.

End Stress.

Module HRV.
Import Dates.

Record Sample : Type := mkSample { date : string; hrv : Q }.

Record Point : Type := mkPoint {
  time : string;
  value : Q;
  fullTime : string;
  point_date : string
}.

(** [processHRVData(data)] *)
Definition processHRVData `{Runtime} (data : option (list Sample)) : list Point :=
  match data with
  | None => []
  | Some items =>
      map (fun item =>
             {| time := toLocaleTimeString (Date_parse (date item));
                value := hrv item;
                fullTime := toLocaleStringShort (Date_parse (date item));
                point_date := date item |}) items
  end.

End HRV.

(** ** Concrete inputs *)

Module Examples.
Import Js Api Dates Shared.

(** A server of three pages: the first page of the heart-rate endpoint
    links to a second page over [http], which links to a third and last
    one.  Its state counts the requests it has answered. *)
Definition page1 : Json :=
  JObj [("count", JNum 3); ("next", JStr "http://backend.example/hr?page=2");
        ("results", JArr [JNum 1])].
Definition page2 : Json :=
  JObj [("count", JNum 3); ("next", JStr "https://backend.example/hr?page=3");
        ("results", JArr [JNum 2])].
Definition page3 : Json :=
  JObj [("count", JNum 3); ("next", JNull); ("results", JArr [JNum 3])].

Definition first_url : string := "/api/HeartRate_Data/?&range=24h".

Definition three_pages (url : string) (answered : nat) : Result Response * nat :=
  if String.eqb url (API_BASE_URL +:+ first_url)
  then (Ok {| status := 200; json := Ok page1 |}, S answered)
  else if String.eqb url "https://backend.example/hr?page=2"
  then (Ok {| status := 200; json := Ok page2 |}, S answered)
  else if String.eqb url "https://backend.example/hr?page=3"
  then (Ok {| status := 200; json := Ok page3 |}, S answered)
  else (Ok {| status := 404; json := Ok JNull |}, S answered).

(** The same server with its second page broken. *)
Definition broken_second (url : string) (answered : nat) : Result Response * nat :=
  if String.eqb url "https://backend.example/hr?page=2"
  then (Ok {| status := 500; json := Throw (Error "Unexpected token") |}, S answered)
  else three_pages url answered.

(** A server that answers every request with the same body. *)
Definition always (body : Json) (url : string) (answered : nat) : Result Response * nat :=
  (Ok {| status := 200; json := Ok body |}, S answered).

Definition no_numbers (q : Q) : string := "".

Definition fresh : World (Srv := nat) := {| server := 0; requests := [] |}.

(** The [Date] runtime of the examples: an engine in the UTC time zone. *)
Definition parse_known (s : string) : option Z := Calendar.parse s.

Definition known_dates : Runtime := Calendar.utc.

Definition today : Props :=
  {| selectedUserId := Some "u1";
     dateRange := Some {| from := None; to := None; customRange := false;
                          period := Some "today" |} |}.

Definition week : Props :=
  {| selectedUserId := Some "u1";
     dateRange := Some {| from := None; to := None; customRange := false;
                          period := Some "week" |} |}.

Definition hr_morning : HeartRate.Sample :=
  {| HeartRate.date := "2026-01-01T08:00:00Z"; HeartRate.once_heart_value := 72 |}.
Definition hr_later : HeartRate.Sample :=
  {| HeartRate.date := "2026-01-01T09:00:00Z"; HeartRate.once_heart_value := 80 |}.
Definition hr_again : HeartRate.Sample :=
  {| HeartRate.date := "2026-01-01T08:00:00Z"; HeartRate.once_heart_value := 75 |}.

Definition ox_morning : SpO2.Sample :=
  {| SpO2.date := "2026-01-01T08:00:00Z"; SpO2.Blood_oxygen := 97 |}.
Definition ox_later : SpO2.Sample :=
  {| SpO2.date := "2026-01-01T09:00:00Z"; SpO2.Blood_oxygen := 95 |}.
Definition ox_again : SpO2.Sample :=
  {| SpO2.date := "2026-01-01T08:00:00Z"; SpO2.Blood_oxygen := 99 |}.

(** What the panel awaits for the last 24 hours and for the last week. *)
Definition awaiting_today : HeartRate.Pending :=
  {| HeartRate.userId := Some "u1"; HeartRate.fromDate := None; HeartRate.toDate := None;
     HeartRate.range := Some "24h"; HeartRate.cacheKey := "u1-24h" |}.

Definition awaiting_week : HeartRate.Pending :=
  {| HeartRate.userId := Some "u1"; HeartRate.fromDate := None; HeartRate.toDate := None;
     HeartRate.range := Some "7d"; HeartRate.cacheKey := "u1-7d" |}.

(** The period is switched from today to the week while the request for
    today is in flight. *)
Definition racing : HeartRate.System :=
  HeartRate.run (H := known_dates)
    [HeartRate.Effect today 0; HeartRate.Cleanup; HeartRate.Effect week 1000]
    HeartRate.boot.


(** A server that cannot be reached: every request is rejected. *)
Definition offline (url : string) (answered : nat) : Result Response * nat :=
  (Throw (TypeError "Failed to fetch"), answered).

(** A server whose first page links to page number 2 instead of a URL. *)
Definition numbered_link (url : string) (answered : nat) : Result Response * nat :=
  (Ok {| status := 200;
         json := Ok (JObj [("next", JNum 2); ("results", JArr [JNum 1])]) |},
   S answered).

(** A server whose pages never end: every page links to a further one,
    over [http]. *)
Definition endless (url : string) (answered : nat) : Result Response * nat :=
  (Ok {| status := 200;
         json := Ok (JObj [("next", JStr "http://backend.example/hr?page=more");
                           ("results", JArr [JNum 1])]) |},
   S answered).

(** The worlds after one, two and three answered requests. *)
Definition after_one : World (Srv := nat) :=
  {| server := 1; requests := [API_BASE_URL +:+ first_url] |}.

Definition after_two : World (Srv := nat) :=
  {| server := 2;
     requests := [API_BASE_URL +:+ first_url;
                  "https://backend.example/hr?page=2"] |}.

Definition after_three : World (Srv := nat) :=
  {| server := 3;
     requests := [API_BASE_URL +:+ first_url;
                  "https://backend.example/hr?page=2";
                  "https://backend.example/hr?page=3"] |}.

End Examples.

(** ** [src/components/SleepDataComponent.jsx]: the sleep score *)

Module Sleep.

(** One record of the sleep endpoint, with the fields the score reads. *)
Record Sample : Type := mkSample {
  duration : Q;
  deep_sleep_percentage : Q;
  light_sleep_percentage : Q;
  awake_percentage : Q
}.

(** [lo <= x && x <= hi] *)
Definition within (lo hi x : Q) : bool := Qle_bool lo x && Qle_bool x hi.

(** [x < bound] *)
Definition below (bound x : Q) : bool := negb (Qle_bool bound x).

(** [calculateSleepScore(data)]; [None] is a [null] argument.  The dashboard
    page holds a copy of the same function. *)
Definition calculateSleepScore (data : option Sample) : Z :=
  match data with
  | None => 0
  | Some data =>
      let score := 0%Z in
      let score :=
        if within 7 9 (duration data) then (score + 30)%Z
        else if within 6 10 (duration data) then (score + 20)%Z
        else (score + 10)%Z in
      let score :=
        if within 15 20 (deep_sleep_percentage data) then (score + 25)%Z
        else if within 10 25 (deep_sleep_percentage data) then (score + 15)%Z
        else (score + 5)%Z in
      let score :=
        if within 45 55 (light_sleep_percentage data) then (score + 25)%Z
        else if within 40 60 (light_sleep_percentage data) then (score + 15)%Z
        else (score + 5)%Z in
      let score :=
        if below 5 (awake_percentage data) then (score + 20)%Z
        else if below 10 (awake_percentage data) then (score + 10)%Z
        else (score + 5)%Z in
      Z.min score 100
  end.

End Sleep.

(** ** The real-time dashboard ([src/unnamed/part_000]) *)

Module RealTime.

(** One reading of the real-time endpoint. *)
Record Reading : Type := mkReading {
  timestamp : Z;
  heartRate : Q;
  spo2 : Q;
  systolic : Q;
  diastolic : Q
}.

(** The callback of the [reduce] in [getLatestData]. *)
Definition later_of (latest curr : Reading) : Reading :=
  if (timestamp latest <? timestamp curr)%Z then curr else latest.

(** [getLatestData(data)]; [reduce] without an initial value starts from the
    first reading. *)
Definition getLatestData (data : option (list Reading)) : option Reading :=
  match data with
  | None => None
  | Some [] => None
  | Some (first :: rest) => Some (fold_left later_of rest first)
  end.

(** The comparator [(a, b) => b.timestamp - a.timestamp]. *)
Definition newest_first (a b : Reading) : Z := (timestamp b - timestamp a)%Z.

Fixpoint sort_insert (x : Reading) (sorted : list Reading) : list Reading :=
  match sorted with
  | [] => [x]
  | y :: rest =>
      if (newest_first x y <=? 0)%Z then x :: y :: rest
      else y :: sort_insert x rest
  end.

(** [[...data].sort((a, b) => b.timestamp - a.timestamp)]: the comparator
    is consistent, so the result of the (stable) sort is the one of this
    insertion sort. *)
Fixpoint sort (data : list Reading) : list Reading :=
  match data with
  | [] => []
  | x :: rest => sort_insert x (sort rest)
  end.

(** The "Recent Readings" list: the sorted copy without its first element,
    [.sort(...).slice(1)]. *)
Definition history (data : list Reading) : list Reading :=
  drop 1 (sort data).

(** The mean arterial pressure of [BloodPressureCard]:
    [systolic && diastolic ? Math.round((systolic + 2 * diastolic) / 3) : null],
    on the doubles of the two readings. *)
Definition mean_arterial (systolic diastolic : Q) : option Float64.Number :=
  let s := Float64.to_double systolic in
  let d := Float64.to_double diastolic in
  if Float64.truthy s && Float64.truthy d
  then Some (Float64.Math_round
               (Float64.div (Float64.add s (Float64.mul (Float64.Finite 2) d))
                            (Float64.Finite 3)))
  else None.

End RealTime.

(** ** The dashboard page ([src/unnamed/part_002]): the date filter *)

Module Dashboard.
Import Js Dates Shared.

(** The state of [HomeTab] that the filter handlers write, and the period
    it reports to its parent with [setSelectedPeriod]. *)
Record State : Type := mkState {
  dateRange : DateRange;
  showDatePicker : bool;
  activeFilter : string;
  selectedPeriod : string
}.

(** The state at mount, for the [selectedPeriod] prop. *)
Definition initial (selectedPeriod : string) : State :=
  {| dateRange := {| from := None; to := None; customRange := false;
                     period := Some selectedPeriod |};
     showDatePicker := false;
     activeFilter := "today";
     selectedPeriod := selectedPeriod |}.

(** [formatDateForAPI(date)] of the page: no pass-through for a date that
    is formatted already. *)
Definition formatDateForAPI `{Runtime} (date : option string) : Result (option string) :=
  match date with
  | None => Ok None
  | Some s =>
      if negb (truthy_string s) then Ok None
      else match Date_parse s with
           | Some d => Ok (Some (toISODate d))
           | None => Throw (RangeError "Invalid time value")
           end
  end.

(** [handleFilterChange(filterType)] *)
Definition handleFilterChange (filterType : string) (st : State) : State :=
  if String.eqb filterType "custom" then
    {| dateRange := {| from := from (dateRange st); to := to (dateRange st);
                       customRange := true; period := Some filterType |};
       showDatePicker := true;
       activeFilter := filterType;
       selectedPeriod := selectedPeriod st |}
  else
    {| dateRange := {| from := None; to := None; customRange := false;
                       period := Some filterType |};
       showDatePicker := false;
       activeFilter := filterType;
       selectedPeriod := filterType |}.

(** [handleDateRangeApply(from, to)]; an invalid date makes the handler
    throw before it sets any state. *)
Definition handleDateRangeApply `{Runtime} (from to : option string) (st : State)
    : Result State :=
  match formatDateForAPI from with
  | Throw e => Throw e
  | Ok from' =>
      match formatDateForAPI to with
      | Throw e => Throw e
      | Ok to' =>
          Ok {| dateRange := {| from := from'; to := to'; customRange := true;
                                period := Some "custom" |};
                showDatePicker := false;
                activeFilter := activeFilter st;
                selectedPeriod := selectedPeriod st |}
      end
  end.

(** [handleClearFilter()] *)
Definition handleClearFilter (st : State) : State :=
  {| dateRange := {| from := None; to := None; customRange := false;
                     period := Some "today" |};
     showDatePicker := false;
     activeFilter := "today";
     selectedPeriod := "today" |}.

(** What the user can do: click a filter button, press Apply in the date
    picker with two typed dates, close the picker, clear the filter. *)
Inductive Action : Type :=
| ClickFilter (filterType : string)
| Apply (fromDate toDate : string)
| ClosePicker
| Clear.

(** The picker is rendered only while [showDatePicker] holds, and its
    [handleApply] calls [onApply] only when both of its fields are filled. *)
Definition step `{Runtime} (st : State) (action : Action) : State :=
  match action with
  | ClickFilter filterType => handleFilterChange filterType st
  | Apply fromDate toDate =>
      if showDatePicker st && truthy_string fromDate && truthy_string toDate then
        match handleDateRangeApply (Some fromDate) (Some toDate) st with
        | Ok st' => st'
        | Throw _ => st
        end
      else st
  | ClosePicker =>
      {| dateRange := dateRange st; showDatePicker := false;
         activeFilter := activeFilter st; selectedPeriod := selectedPeriod st |}
  | Clear => handleClearFilter st
  end.

Definition run `{Runtime} (actions : list Action) (st : State) : State :=
  fold_left step actions st.

(** The props that the page hands to the heart-rate panel. *)
Definition panel_props (selectedUserId : option string) (st : State) : Props :=
  {| Shared.selectedUserId := selectedUserId; Shared.dateRange := Some (dateRange st) |}.

(** What the filter handlers keep true. *)
Definition coherent (st : State) : Prop :=
  period (dateRange st) = Some (activeFilter st) /\
  (customRange (dateRange st) = true <-> activeFilter st = "custom") /\
  (showDatePicker st = true -> activeFilter st = "custom") /\
  (customRange (dateRange st) = false ->
   from (dateRange st) = None /\ to (dateRange st) = None) /\
  (is_Some (from (dateRange st)) <-> is_Some (to (dateRange st))).

End Dashboard.

(** ** [src/components/ActivitySummary.jsx]: the rings *)

Module Activity.

(** The aggregate that the component holds in [activityData], with the
    fields the rings read. *)
Record ActivityData : Type := mkActivityData {
  step : Q;
  distance : Q;
  calories : Q;
  exercise_minutes : Q;
  recordCount : nat
}.

(** [calculateOffset(percentage, circumference)] *)
Definition calculateOffset (percentage circumference : Float64.Number) : Float64.Number :=
  Float64.sub circumference
    (Float64.mul (Float64.div percentage (Float64.Finite 100)) circumference).

(** [activityData.recordCount || 1]; the count is the length of an array,
    a whole number below [2^32], which is a double. *)
Definition daysMultiplier (a : ActivityData) : Float64.Number :=
  match recordCount a with
  | O => Float64.Finite 1
  | S _ => Float64.Finite (inject_Z (Z.of_nat (recordCount a)))
  end.

(** [Math.min(Math.round((total / goal) * 100), 100)] *)
Definition percentage_of (total goal : Float64.Number) : Float64.Number :=
  Float64.Math_min
    (Float64.Math_round (Float64.mul (Float64.div total goal) (Float64.Finite 100)))
    (Float64.Finite 100).

(** The [percentage] of the four rings of [getChartData()], in the order
    steps, distance, calories, exercise; [None] is no data.  The totals
    are the doubles of their literals, and every operation is one of
    binary64. *)
Definition percentages (activityData : option ActivityData) : list Float64.Number :=
  match activityData with
  | None => [Float64.Finite 0; Float64.Finite 0; Float64.Finite 0; Float64.Finite 0]
  | Some a =>
      let m := daysMultiplier a in
      [ percentage_of (Float64.to_double (step a)) (Float64.mul (Float64.Finite 10000) m);
        Float64.Math_min
          (Float64.Math_round
             (Float64.mul
                (Float64.div (Float64.mul (Float64.to_double (distance a)) m)
                             (Float64.Finite 5))
                (Float64.Finite 100)))
          (Float64.Finite 100);
        percentage_of (Float64.to_double (calories a)) (Float64.mul (Float64.Finite 500) m);
        percentage_of (Float64.to_double (exercise_minutes a))
          (Float64.mul (Float64.Finite 60) m) ]
  end.

(** The "Overall" figure:
    [Math.round(chartData.reduce((acc, item) => acc + item.percentage, 0) /
    chartData.length)]. *)
Definition overall (activityData : option ActivityData) : Float64.Number :=
  match activityData with
  | None => Float64.Finite 0
  | Some _ =>
      let chartData := percentages activityData in
      Float64.Math_round
        (Float64.div (fold_left Float64.add chartData (Float64.Finite 0))
                     (Float64.Finite (inject_Z (Z.of_nat (length chartData)))))
  end.

End Activity.

(** ** More concrete inputs *)

Module MoreExamples.
Import Js Shared.

(** A day of 1450 steps, 4.2 km, 300 kcal and 45 minutes of exercise. *)
Definition active_day : Activity.ActivityData :=
  {| Activity.step := 1450; Activity.distance := 42 # 10; Activity.calories := 300;
     Activity.exercise_minutes := 45; Activity.recordCount := 1 |}.

(** The page after a click on Custom. *)
Definition picking : Dashboard.State :=
  Dashboard.run (H := Examples.known_dates) [Dashboard.ClickFilter "custom"]
    (Dashboard.initial "today").

End MoreExamples.
(** ** Properties of [fetchAllPages] *)

Module ApiFacts.
Import Js Api.

Section Fetch.
Context {Srv : Type}.
Variable Number_toString : Q -> string.
Variable authenticatedFetch : string -> Srv -> Result Response * Srv.

Local Abbreviation loop := (fetchAllPages_loop Number_toString authenticatedFetch).
Local Abbreviation serves := (serves authenticatedFetch).
Local Abbreviation reads := (reads Number_toString authenticatedFetch).
Local Abbreviation request := (request authenticatedFetch).
Local Abbreviation target := (target Number_toString).

Lemma request_log url (w : World) r w' :
  request url w = (r, w') -> requests w' = requests w ++ [url].
Proof.
  unfold Api.request. destruct (authenticatedFetch url (server w)) as [r0 s'].
  intros [= _ <-]. reflexivity.
Qed.

(** One turn of the loop issues the request for its target. *)
Lemma loop_turn fuel acc nextUrl useAbsolute (w : World) url :
  truthy nextUrl = true ->
  target nextUrl useAbsolute = Some url ->
  loop (S fuel) acc nextUrl useAbsolute w =
  let '(fetched, w1) := request url w in
  match fetched with
  | Throw e => Some (Throw e, w1)
  | Ok response =>
      if negb (ok response) then
        Some (Throw (Error ("Failed to fetch data: " +:+ pretty (status response))), w1)
      else
        match json response with
        | Throw e => Some (Throw e, w1)
        | Ok data =>
            match envelope_results data with
            | Some results =>
                match prop "next" data with
                | Some next =>
                    if truthy next
                    then loop fuel (acc ++ results) next true w1
                    else loop fuel (acc ++ results) JNull useAbsolute w1
                | None => loop fuel (acc ++ results) JNull useAbsolute w1
                end
            | None =>
                match data with
                | JArr items => loop fuel (acc ++ items) JNull useAbsolute w1
                | _ => loop fuel (acc ++ [data]) JNull useAbsolute w1
                end
            end
        end
  end.
Proof.
  intros Htruthy Htarget. cbn [fetchAllPages_loop]. rewrite Htruthy. cbn [negb].
  unfold Api.target in Htarget. destruct useAbsolute.
  - destruct nextUrl; try discriminate. injection Htarget as <-. reflexivity.
  - injection Htarget as <-. reflexivity.
Qed.

(** The loop ends at once on a falsy [nextUrl], whatever the fuel. *)
Lemma loop_done fuel acc nextUrl useAbsolute (w : World) :
  truthy nextUrl = false ->
  loop fuel acc nextUrl useAbsolute w = Some (Ok acc, w).
Proof. intros H. destruct fuel; cbn [fetchAllPages_loop]; rewrite H; reflexivity. Qed.

(** A page that links to a further page is consumed by one turn. *)
Lemma loop_serves fuel acc nextUrl useAbsolute (w : World) url results next w1 :
  truthy nextUrl = true ->
  target nextUrl useAbsolute = Some url ->
  serves url w results next w1 ->
  loop (S fuel) acc nextUrl useAbsolute w =
  if truthy next
  then loop fuel (acc ++ results) next true w1
  else loop fuel (acc ++ results) JNull useAbsolute w1.
Proof.
  intros Htruthy Htarget (response & data & Hreq & Hok & Hjson & Henv & Hnext).
  rewrite (loop_turn _ _ _ _ _ url) by assumption.
  rewrite Hreq, Hok, Hjson, Henv, Hnext. reflexivity.
Qed.

(** [k] linked pages are consumed by [k] turns. *)
Lemma loop_reads k nextUrl useAbsolute (w : World) got nextUrl' useAbsolute' w' :
  reads k nextUrl useAbsolute w got nextUrl' useAbsolute' w' ->
  forall fuel acc,
    loop (k + fuel) acc nextUrl useAbsolute w =
    loop fuel (acc ++ got) nextUrl' useAbsolute' w'.
Proof.
  induction 1 as [| k n a w url results next w1 got n' a' w' Htr Htg Hsrv Hnext _ IH];
    intros fuel acc.
  - rewrite app_nil_r. reflexivity.
  - cbn [Nat.add]. rewrite (loop_serves _ _ _ _ _ url results next w1) by assumption.
    rewrite Hnext, IH, app_assoc. reflexivity.
Qed.

(** Each of the [k] pages costs one request. *)
Lemma reads_requests k nextUrl useAbsolute (w : World) got nextUrl' useAbsolute' w' :
  reads k nextUrl useAbsolute w got nextUrl' useAbsolute' w' ->
  length (requests w') = length (requests w) + k.
Proof.
  induction 1 as [| k n a w url results next w1 got n' a' w' _ _ Hsrv _ _ IH].
  - lia.
  - destruct Hsrv as (response & data & Hreq & _).
    apply request_log in Hreq. rewrite IH, Hreq, length_app. cbn. lia.
Qed.

(** C3. Three linked pages: when the server answers the initial path with
    a page that links to [next2], the secured [next2] with a page that
    links to [next3], and the secured [next3] with a page whose [next] is
    [null], [fetchAllPages] returns the results of the three pages
    concatenated in page order, and has issued exactly these three
    requests. *)
Theorem fetchAllPages_three_pages (initialUrl next2 next3 : string)
    (w0 w1 w2 w3 : World) (results1 results2 results3 : list Json) (fuel : nat) :
  truthy_string initialUrl = true ->
  truthy_string next2 = true ->
  truthy_string next3 = true ->
  serves (API_BASE_URL +:+ initialUrl) w0 results1 (JStr next2) w1 ->
  serves (secure next2) w1 results2 (JStr next3) w2 ->
  serves (secure next3) w2 results3 JNull w3 ->
  3 <= fuel ->
  fetchAllPages Number_toString authenticatedFetch fuel initialUrl w0 =
    Some (Ok (results1 ++ results2 ++ results3), w3) /\
  requests w3 =
    requests w0 ++ [API_BASE_URL +:+ initialUrl; secure next2; secure next3].
Proof.
  intros Hinit H2 H3 Hp1 Hp2 Hp3 Hfuel.
  destruct fuel as [| [| [| fuel]]]; try lia.
  split.
  - unfold fetchAllPages.
    rewrite (loop_serves _ _ (JStr initialUrl) false _ _ results1 (JStr next2) w1 Hinit eq_refl Hp1).
    cbn [truthy]. rewrite H2.
    rewrite (loop_serves _ _ (JStr next2) true _ _ results2 (JStr next3) w2 H2 eq_refl Hp2).
    cbn [truthy]. rewrite H3.
    rewrite (loop_serves _ _ (JStr next3) true _ _ results3 JNull w3 H3 eq_refl Hp3).
    cbn [truthy]. rewrite loop_done by reflexivity.
    cbn [app]. rewrite <- app_assoc. reflexivity.
  - destruct Hp1 as (? & ? & Hr1 & _), Hp2 as (? & ? & Hr2 & _), Hp3 as (? & ? & Hr3 & _).
    apply request_log in Hr1, Hr2, Hr3.
    rewrite Hr3, Hr2, Hr1, <- !app_assoc. reflexivity.
Qed.

(** C4. A non-success status on any page.  After [k] pages that each link
    to a further one, a response whose status is outside 200-299 makes
    [fetchAllPages] throw an error whose message carries that status; it
    returns no results, and the failed request is the last one it
    issues. *)
Theorem fetchAllPages_page_fails (k : nat) (initialUrl : string) (w0 w w' : World)
    (got : list Json) (nextUrl : Json) (useAbsolute : bool) (url : string)
    (response : Response) (fuel : nat) :
  reads k (JStr initialUrl) false w0 got nextUrl useAbsolute w ->
  truthy nextUrl = true ->
  target nextUrl useAbsolute = Some url ->
  request url w = (Ok response, w') ->
  ok response = false ->
  k < fuel ->
  fetchAllPages Number_toString authenticatedFetch fuel initialUrl w0 =
    Some (Throw (Error ("Failed to fetch data: " +:+ pretty (status response))), w') /\
  requests w' = requests w ++ [url] /\
  length (requests w') = length (requests w0) + k + 1.
Proof.
  intros Hreads Htruthy Htarget Hreq Hok Hfuel.
  replace fuel with (k + S (fuel - k - 1)) by lia.
  split; [| split].
  - unfold fetchAllPages. rewrite (loop_reads _ _ _ _ _ _ _ _ Hreads).
    rewrite (loop_turn _ _ _ _ _ url) by assumption.
    rewrite Hreq, Hok. reflexivity.
  - eapply request_log. eassumption.
  - apply request_log in Hreq. apply reads_requests in Hreads.
    rewrite Hreq, length_app, Hreads. cbn. lia.
Qed.

(** C10. A first page that is neither an envelope nor an array: whatever
    the body is ([null], a number, a string, an object without an array
    under [results]), [fetchAllPages] returns the one-element list that
    holds it, after this single request and without an error. *)
Theorem fetchAllPages_single_body (initialUrl : string) (w w' : World)
    (response : Response) (data : Json) (fuel : nat) :
  truthy_string initialUrl = true ->
  request (API_BASE_URL +:+ initialUrl) w = (Ok response, w') ->
  ok response = true ->
  json response = Ok data ->
  envelope_results data = None ->
  (forall items, data <> JArr items) ->
  1 <= fuel ->
  fetchAllPages Number_toString authenticatedFetch fuel initialUrl w =
    Some (Ok [data], w') /\
  requests w' = requests w ++ [API_BASE_URL +:+ initialUrl].
Proof.
  intros Hinit Hreq Hok Hjson Henv Harr Hfuel.
  destruct fuel as [| fuel]; [lia |].
  split; [| eapply request_log; eassumption].
  unfold fetchAllPages.
  rewrite (loop_turn _ _ _ _ _ (API_BASE_URL +:+ initialUrl)) by (assumption || reflexivity).
  rewrite Hreq, Hok, Hjson, Henv. cbn [negb].
  destruct data; try (rewrite loop_done by reflexivity; reflexivity).
  exfalso. eapply Harr. reflexivity.
Qed.
End Fetch.

(** The bodies that are no envelope and no array include [null], every
    number and every string. *)
Lemma scalars_are_single_bodies (q : Q) (s : string) :
  Forall (fun data => envelope_results data = None /\ forall items, data <> JArr items)
         [JNull; JNum q; JStr s; JBool true; JObj [("results", JNum q)]].
Proof. repeat constructor; discriminate. Qed.

(** [getHeartRateData()] against the server of three pages. *)
Example heart_rate_default_fetch :
  getHeartRateData Examples.no_numbers Examples.three_pages 5 None None None None
    Examples.fresh =
  Some (Ok [JNum 1; JNum 2; JNum 3],
        {| server := 3;
           requests := [API_BASE_URL +:+ "/api/HeartRate_Data/?&range=24h";
                        "https://backend.example/hr?page=2";
                        "https://backend.example/hr?page=3"] |}).
Proof. reflexivity. Qed.

Lemma fetchAllPages_three_pages_witness :
  fetchAllPages Examples.no_numbers Examples.three_pages 3 Examples.first_url Examples.fresh =
    Some (Ok ([JNum 1] ++ [JNum 2] ++ [JNum 3]),
          {| server := 3;
             requests := [API_BASE_URL +:+ Examples.first_url;
                          "https://backend.example/hr?page=2";
                          "https://backend.example/hr?page=3"] |}) /\
  requests {| server := 3;
              requests := [API_BASE_URL +:+ Examples.first_url;
                           "https://backend.example/hr?page=2";
                           "https://backend.example/hr?page=3"] |} =
    requests Examples.fresh ++
      [API_BASE_URL +:+ Examples.first_url;
       secure "http://backend.example/hr?page=2";
       secure "https://backend.example/hr?page=3"].
Proof.
  apply (fetchAllPages_three_pages Examples.no_numbers Examples.three_pages
           Examples.first_url "http://backend.example/hr?page=2"
           "https://backend.example/hr?page=3" Examples.fresh
           {| server := 1; requests := [API_BASE_URL +:+ Examples.first_url] |}
           {| server := 2;
              requests := [API_BASE_URL +:+ Examples.first_url;
                           "https://backend.example/hr?page=2"] |}).
  - reflexivity.
  - reflexivity.
  - reflexivity.
  - exists {| status := 200; json := Ok Examples.page1 |}, Examples.page1.
    repeat split; reflexivity.
  - exists {| status := 200; json := Ok Examples.page2 |}, Examples.page2.
    repeat split; reflexivity.
  - exists {| status := 200; json := Ok Examples.page3 |}, Examples.page3.
    repeat split; reflexivity.
  - lia.
Defined.

Lemma fetchAllPages_page_fails_witness :
  fetchAllPages Examples.no_numbers Examples.broken_second 3 Examples.first_url Examples.fresh =
    Some (Throw (Error "Failed to fetch data: 500"),
          {| server := 2;
             requests := [API_BASE_URL +:+ Examples.first_url;
                          "https://backend.example/hr?page=2"] |}).
Proof.
  apply (fetchAllPages_page_fails Examples.no_numbers Examples.broken_second 1
           Examples.first_url Examples.fresh
           {| server := 1; requests := [API_BASE_URL +:+ Examples.first_url] |}
           {| server := 2;
              requests := [API_BASE_URL +:+ Examples.first_url;
                           "https://backend.example/hr?page=2"] |}
           ([JNum 1] ++ []) (JStr "http://backend.example/hr?page=2") true
           "https://backend.example/hr?page=2"
           {| status := 500; json := Throw (Error "Unexpected token") |} 3).
  - eapply (reads_page _ _ 0 (JStr Examples.first_url) false Examples.fresh
              (API_BASE_URL +:+ Examples.first_url)).
    + reflexivity.
    + reflexivity.
    + exists {| status := 200; json := Ok Examples.page1 |}, Examples.page1.
      repeat split; reflexivity.
    + reflexivity.
    + apply reads_none.
  - reflexivity.
  - reflexivity.
  - reflexivity.
  - reflexivity.
  - lia.
Defined.

Lemma fetchAllPages_single_body_witness :
  fetchAllPages Examples.no_numbers (Examples.always JNull) 1 Examples.first_url Examples.fresh =
    Some (Ok [JNull],
          {| server := 1; requests := [API_BASE_URL +:+ Examples.first_url] |}) /\
  [API_BASE_URL +:+ Examples.first_url] = [] ++ [API_BASE_URL +:+ Examples.first_url].
Proof.
  apply (fetchAllPages_single_body Examples.no_numbers (Examples.always JNull)
           Examples.first_url Examples.fresh
           {| server := 1; requests := [API_BASE_URL +:+ Examples.first_url] |}
           {| status := 200; json := Ok JNull |} JNull 1).
  - reflexivity.
  - reflexivity.
  - reflexivity.
  - reflexivity.
  - reflexivity.
  - discriminate.
  - lia.
Defined.

End ApiFacts.

(** ** More properties of [fetchAllPages] *)

Module ApiMore.
Import Js Api ApiFacts.

Section Fetch.
Context {Srv : Type}.
Variable Number_toString : Q -> string.
Variable authenticatedFetch : string -> Srv -> Result Response * Srv.

Local Abbreviation loop := (fetchAllPages_loop Number_toString authenticatedFetch).
Local Abbreviation reads := (reads Number_toString authenticatedFetch).
Local Abbreviation request := (request authenticatedFetch).
Local Abbreviation target := (target Number_toString).
Local Abbreviation loop_turn := (loop_turn Number_toString authenticatedFetch).
Local Abbreviation loop_reads := (loop_reads Number_toString authenticatedFetch).
Local Abbreviation loop_done := (loop_done Number_toString authenticatedFetch).
Local Abbreviation reads_requests := (reads_requests Number_toString authenticatedFetch).
Local Abbreviation request_log := (request_log authenticatedFetch).
Local Abbreviation turn := (fetchAllPages_turn Number_toString authenticatedFetch).
Local Abbreviation world := (fetchAllPages_world Number_toString authenticatedFetch).

(** X1. Any number of pages.  After [k] pages that each link to a further one,
    a page whose [next] is missing or falsy ends the loop: the result is
    the concatenation of the results of all [k + 1] pages in page order,
    after [k + 1] requests. *)
Theorem fetchAllPages_any_chain (k : nat) (initialUrl : string) (w0 w w' : World)
    (got last : list Json) (nextUrl : Json) (useAbsolute : bool) (url : string)
    (response : Response) (data : Json) (fuel : nat) :
  reads k (JStr initialUrl) false w0 got nextUrl useAbsolute w ->
  truthy nextUrl = true ->
  target nextUrl useAbsolute = Some url ->
  request url w = (Ok response, w') ->
  ok response = true ->
  json response = Ok data ->
  envelope_results data = Some last ->
  truthy_prop (prop "next" data) = false ->
  k < fuel ->
  fetchAllPages Number_toString authenticatedFetch fuel initialUrl w0 =
    Some (Ok (got ++ last), w') /\
  length (requests w') = length (requests w0) + k + 1.
Proof.
  intros Hreads Htruthy Htarget Hreq Hok Hjson Henv Hnext Hfuel.
  replace fuel with (k + S (fuel - k - 1)) by lia.
  split.
  - unfold fetchAllPages. rewrite (loop_reads _ _ _ _ _ _ _ _ Hreads).
    rewrite (loop_turn _ _ _ _ _ url) by assumption.
    rewrite Hreq, Hok, Hjson, Henv. cbn [negb app].
    destruct (prop "next" data) as [next |]; cbn [truthy_prop] in Hnext.
    + rewrite Hnext. apply loop_done. reflexivity.
    + apply loop_done. reflexivity.
  - apply request_log in Hreq. apply reads_requests in Hreads.
    rewrite Hreq, length_app, Hreads. cbn. lia.
Qed.

(** X2. A page that is no envelope, at any position.  After [k] linked pages, a
    body that is an array ends the loop with its items appended, and any
    other body that is no envelope ends it with the body itself appended as
    one record. *)
Theorem fetchAllPages_unwrapped_page (k : nat) (initialUrl : string) (w0 w w' : World)
    (got : list Json) (nextUrl : Json) (useAbsolute : bool) (url : string)
    (response : Response) (data : Json) (fuel : nat) :
  reads k (JStr initialUrl) false w0 got nextUrl useAbsolute w ->
  truthy nextUrl = true ->
  target nextUrl useAbsolute = Some url ->
  request url w = (Ok response, w') ->
  ok response = true ->
  json response = Ok data ->
  envelope_results data = None ->
  k < fuel ->
  fetchAllPages Number_toString authenticatedFetch fuel initialUrl w0 =
    Some (Ok (got ++ match data with JArr items => items | _ => [data] end), w').
Proof.
  intros Hreads Htruthy Htarget Hreq Hok Hjson Henv Hfuel.
  replace fuel with (k + S (fuel - k - 1)) by lia.
  unfold fetchAllPages. rewrite (loop_reads _ _ _ _ _ _ _ _ Hreads).
  rewrite (loop_turn _ _ _ _ _ url) by assumption.
  rewrite Hreq, Hok, Hjson, Henv. cbn [negb app].
  destruct data; apply loop_done; reflexivity.
Qed.

(** X3. A failure below [fetchAllPages].  When, after [k] linked pages, the
    request itself is rejected, or the body of a success response does not
    parse, [fetchAllPages] throws that very error; the results of the [k]
    pages are not returned. *)
Theorem fetchAllPages_rethrows (k : nat) (initialUrl : string) (w0 w w' : World)
    (got : list Json) (nextUrl : Json) (useAbsolute : bool) (url : string)
    (fetched : Result Response) (e : JsError) (fuel : nat) :
  reads k (JStr initialUrl) false w0 got nextUrl useAbsolute w ->
  truthy nextUrl = true ->
  target nextUrl useAbsolute = Some url ->
  request url w = (fetched, w') ->
  fetched = Throw e \/
    (exists response, fetched = Ok response /\ ok response = true /\
                      json response = Throw e) ->
  k < fuel ->
  fetchAllPages Number_toString authenticatedFetch fuel initialUrl w0 =
    Some (Throw e, w').
Proof.
  intros Hreads Htruthy Htarget Hreq Hfail Hfuel.
  replace fuel with (k + S (fuel - k - 1)) by lia.
  unfold fetchAllPages. rewrite (loop_reads _ _ _ _ _ _ _ _ Hreads).
  rewrite (loop_turn _ _ _ _ _ url) by assumption. rewrite Hreq.
  destruct Hfail as [-> | (response & -> & Hok & Hjson)].
  - reflexivity.
  - rewrite Hok, Hjson. reflexivity.
Qed.

(** X4. A link that is no string.  When the [next] of a page is truthy but not
    a string (a number, [true], an object), the following turn throws a
    [TypeError] before any request is issued, and the results read so far
    are not returned. *)
Theorem fetchAllPages_bad_link (k : nat) (initialUrl : string) (w0 w : World)
    (got : list Json) (next : Json) (fuel : nat) :
  reads k (JStr initialUrl) false w0 got next true w ->
  truthy next = true ->
  (forall url, next <> JStr url) ->
  k < fuel ->
  fetchAllPages Number_toString authenticatedFetch fuel initialUrl w0 =
    Some (Throw (TypeError "nextUrl.replace is not a function"), w).
Proof.
  intros Hreads Htruthy Hnostring Hfuel.
  replace fuel with (k + S (fuel - k - 1)) by lia.
  unfold fetchAllPages. rewrite (loop_reads _ _ _ _ _ _ _ _ Hreads).
  cbn [fetchAllPages_loop]. rewrite Htruthy. cbn [negb].
  destruct next; try reflexivity. exfalso. eapply Hnostring. reflexivity.
Qed.

(** *** No request over plain [http] *)

Lemma secure_not_plain url : plain_http (secure url) = false.
Proof.
  unfold secure, plain_http. destruct (String.prefix "http://" url) eqn:Hprefix.
  - reflexivity.
  - exact Hprefix.
Qed.

Lemma target_not_plain nextUrl useAbsolute url :
  target nextUrl useAbsolute = Some url -> plain_http url = false.
Proof.
  unfold Api.target. destruct useAbsolute.
  - destruct nextUrl; try discriminate. intros [= <-]. apply secure_not_plain.
  - intros [= <-]. reflexivity.
Qed.

(** The loop of [fetchAllPages] is its turn, repeated. *)
Lemma loop_by_turns fuel acc nextUrl useAbsolute (w : World) :
  loop (S fuel) acc nextUrl useAbsolute w =
  match turn acc nextUrl useAbsolute w with
  | Ended result w' => Some (result, w')
  | Goes acc' nextUrl' useAbsolute' w' => loop fuel acc' nextUrl' useAbsolute' w'
  end.
Proof.
  cbn [fetchAllPages_loop]. unfold fetchAllPages_turn.
  destruct (negb (truthy nextUrl)); [reflexivity |].
  destruct (if useAbsolute then _ else _) as [fetched w1].
  destruct fetched as [response | e]; [| reflexivity].
  destruct (negb (ok response)); [reflexivity |].
  destruct (json response) as [data | e]; [| reflexivity].
  destruct (envelope_results data) as [results |].
  - destruct (prop "next" data) as [next |]; [destruct (truthy next) |]; reflexivity.
  - destruct data; reflexivity.
Qed.

(** When the loop ends within its fuel, it ends in the world that its
    turns lead to. *)
Lemma loop_world fuel : forall acc nextUrl useAbsolute (w : World) result w',
  loop fuel acc nextUrl useAbsolute w = Some (result, w') ->
  world fuel acc nextUrl useAbsolute w = w'.
Proof.
  induction fuel as [| fuel IH]; intros acc nextUrl useAbsolute w result w' Hrun.
  - cbn [fetchAllPages_loop] in Hrun. destruct (negb (truthy nextUrl)); [| discriminate].
    injection Hrun as _ <-. reflexivity.
  - rewrite loop_by_turns in Hrun. cbn [fetchAllPages_world].
    destruct (turn acc nextUrl useAbsolute w) as [ended w1 | acc' nextUrl' useAbsolute' w1].
    + injection Hrun as _ <-. reflexivity.
    + eapply IH. exact Hrun.
Qed.

(** One turn requests at most one URL, and none over plain [http]. *)
Lemma turn_requests acc nextUrl useAbsolute (w : World) :
  let w' := match turn acc nextUrl useAbsolute w with
            | Ended _ w' => w'
            | Goes _ _ _ w' => w'
            end in
  exists more,
    requests w' = requests w ++ more /\
    Forall (fun url => plain_http url = false) more /\
    length more <= 1.
Proof.
  cbn zeta.
  assert (Hnone : exists more, requests w = requests w ++ more /\
                    Forall (fun url => plain_http url = false) more /\ length more <= 1).
  { exists []. rewrite app_nil_r. repeat split; [constructor | cbn; lia]. }
  unfold fetchAllPages_turn. destruct (negb (truthy nextUrl)); [exact Hnone |].
  assert (Hsent : (exists url,
            target nextUrl useAbsolute = Some url /\
            (if useAbsolute
             then match nextUrl with
                  | JStr url => request (secure url) w
                  | _ => (Throw (TypeError "nextUrl.replace is not a function"), w)
                  end
             else apiRequest authenticatedFetch (ToString Number_toString nextUrl) w) =
            request url w) \/
          (if useAbsolute
             then match nextUrl with
                  | JStr url => request (secure url) w
                  | _ => (Throw (TypeError "nextUrl.replace is not a function"), w)
                  end
             else apiRequest authenticatedFetch (ToString Number_toString nextUrl) w) =
            (Throw (TypeError "nextUrl.replace is not a function"), w)).
  { unfold Api.target. destruct useAbsolute; [destruct nextUrl |]; eauto. }
  destruct Hsent as [(url & Htarget & ->) | ->]; [| exact Hnone].
  destruct (request url w) as [fetched w1] eqn:Hreq.
  assert (Hone : exists more, requests w1 = requests w ++ more /\
                   Forall (fun url => plain_http url = false) more /\ length more <= 1).
  { exists [url]. repeat split.
    - eapply request_log. exact Hreq.
    - repeat constructor. eapply target_not_plain. exact Htarget.
    - cbn. lia. }
  destruct fetched as [response | e]; [| exact Hone].
  destruct (negb (ok response)); [exact Hone |].
  destruct (json response) as [data | e]; [| exact Hone].
  destruct (envelope_results data) as [results |].
  - destruct (prop "next" data) as [next |]; [destruct (truthy next) |]; exact Hone.
  - destruct data; exact Hone.
Qed.

Lemma world_requests turns : forall acc nextUrl useAbsolute (w : World),
  exists more,
    requests (world turns acc nextUrl useAbsolute w) = requests w ++ more /\
    Forall (fun url => plain_http url = false) more /\
    length more <= turns.
Proof.
  induction turns as [| turns IH]; intros acc nextUrl useAbsolute w.
  - exists []. rewrite app_nil_r. repeat split; [constructor | cbn; lia].
  - cbn [fetchAllPages_world].
    destruct (turn_requests acc nextUrl useAbsolute w) as (one & Hone & Hsafe & Hlen).
    destruct (turn acc nextUrl useAbsolute w) as [ended w1 | acc' nextUrl' useAbsolute' w1].
    + exists one. repeat split; [assumption | assumption | lia].
    + destruct (IH acc' nextUrl' useAbsolute' w1) as (more & Hmore & Hall & Hmany).
      exists (one ++ more). rewrite Hmore, Hone, <- app_assoc.
      repeat split; [apply Forall_app; split; assumption | rewrite length_app; lia].
Qed.

(** X5. Whatever the server answers, and whether or not its pages ever end,
    no URL that [fetchAllPages] requests begins with [http://]: the first
    is built on the [https] base URL, and every link is upgraded before it
    is followed.  At any number of turns of the loop, the requests made
    before the call are still in the log, at most one request per turn has
    been added, and none of them goes over plain [http]; and when the
    function returns or throws, it does so in the world that its turns
    have led to. *)
Theorem fetchAllPages_never_plain_http (turns : nat) (initialUrl : string) (w : World) :
  (exists more,
     requests (world turns [] (JStr initialUrl) false w) = requests w ++ more /\
     Forall (fun url => plain_http url = false) more /\
     length more <= turns) /\
  (forall result w',
     fetchAllPages Number_toString authenticatedFetch turns initialUrl w =
       Some (result, w') ->
     w' = world turns [] (JStr initialUrl) false w).
Proof.
  split.
  - apply world_requests.
  - intros result w' Hrun. symmetry. eapply loop_world. exact Hrun.
Qed.
End Fetch.

Lemma reads_two_pages :
  reads Examples.no_numbers Examples.three_pages 2 (JStr Examples.first_url) false
    Examples.fresh ([JNum 1] ++ [JNum 2] ++ [])
    (JStr "https://backend.example/hr?page=3") true Examples.after_two.
Proof.
  eapply (reads_page _ _ 1 (JStr Examples.first_url) false Examples.fresh
            (API_BASE_URL +:+ Examples.first_url) [JNum 1]
            (JStr "http://backend.example/hr?page=2") Examples.after_one).
  - reflexivity.
  - reflexivity.
  - exists {| status := 200; json := Ok Examples.page1 |}, Examples.page1.
    repeat split; reflexivity.
  - reflexivity.
  - eapply (reads_page _ _ 0 (JStr "http://backend.example/hr?page=2") true Examples.after_one
              "https://backend.example/hr?page=2" [JNum 2]
              (JStr "https://backend.example/hr?page=3") Examples.after_two).
    + reflexivity.
    + reflexivity.
    + exists {| status := 200; json := Ok Examples.page2 |}, Examples.page2.
      repeat split; reflexivity.
    + reflexivity.
    + apply reads_none.
Defined.

Lemma fetchAllPages_any_chain_witness :
  fetchAllPages Examples.no_numbers Examples.three_pages 3 Examples.first_url Examples.fresh =
    Some (Ok (([JNum 1] ++ [JNum 2] ++ []) ++ [JNum 3]), Examples.after_three) /\
  length (requests Examples.after_three) = length (requests Examples.fresh) + 2 + 1.
Proof.
  apply (fetchAllPages_any_chain Examples.no_numbers Examples.three_pages 2
           Examples.first_url Examples.fresh Examples.after_two Examples.after_three _ [JNum 3]
           (JStr "https://backend.example/hr?page=3") true
           "https://backend.example/hr?page=3"
           {| status := 200; json := Ok Examples.page3 |} Examples.page3 3).
  - exact reads_two_pages.
  - reflexivity.
  - reflexivity.
  - reflexivity.
  - reflexivity.
  - reflexivity.
  - reflexivity.
  - reflexivity.
  - lia.
Defined.

Lemma fetchAllPages_unwrapped_page_witness :
  fetchAllPages Examples.no_numbers (Examples.always (JArr [JNum 7; JNum 8])) 1
    Examples.first_url Examples.fresh =
  Some (Ok ([] ++ [JNum 7; JNum 8]), Examples.after_one).
Proof.
  apply (fetchAllPages_unwrapped_page Examples.no_numbers
           (Examples.always (JArr [JNum 7; JNum 8])) 0 Examples.first_url
           Examples.fresh Examples.fresh Examples.after_one [] (JStr Examples.first_url) false
           (API_BASE_URL +:+ Examples.first_url)
           {| status := 200; json := Ok (JArr [JNum 7; JNum 8]) |}
           (JArr [JNum 7; JNum 8]) 1).
  - apply reads_none.
  - reflexivity.
  - reflexivity.
  - reflexivity.
  - reflexivity.
  - reflexivity.
  - reflexivity.
  - lia.
Defined.

Lemma fetchAllPages_rethrows_witness :
  fetchAllPages Examples.no_numbers Examples.offline 1 Examples.first_url Examples.fresh =
  Some (Throw (TypeError "Failed to fetch"),
        {| server := 0; requests := [API_BASE_URL +:+ Examples.first_url] |}).
Proof.
  apply (fetchAllPages_rethrows Examples.no_numbers Examples.offline 0
           Examples.first_url Examples.fresh Examples.fresh
           {| server := 0; requests := [API_BASE_URL +:+ Examples.first_url] |}
           [] (JStr Examples.first_url) false (API_BASE_URL +:+ Examples.first_url)
           (Throw (TypeError "Failed to fetch")) (TypeError "Failed to fetch") 1).
  - apply reads_none.
  - reflexivity.
  - reflexivity.
  - reflexivity.
  - left. reflexivity.
  - lia.
Defined.

Lemma fetchAllPages_bad_link_witness :
  fetchAllPages Examples.no_numbers Examples.numbered_link 2 Examples.first_url
    Examples.fresh =
  Some (Throw (TypeError "nextUrl.replace is not a function"), Examples.after_one).
Proof.
  apply (fetchAllPages_bad_link Examples.no_numbers Examples.numbered_link 1
           Examples.first_url Examples.fresh Examples.after_one ([JNum 1] ++ []) (JNum 2) 2).
  - eapply (reads_page _ _ 0 (JStr Examples.first_url) false Examples.fresh
              (API_BASE_URL +:+ Examples.first_url) [JNum 1] (JNum 2) Examples.after_one).
    + reflexivity.
    + reflexivity.
    + eexists _, _. repeat split; reflexivity.
    + reflexivity.
    + apply reads_none.
  - reflexivity.
  - discriminate.
  - lia.
Defined.

(** A server whose pages never end: the function does not return, and the
    five requests of its first five turns all go over [https]. *)
Example endless_pages_over_https :
  fetchAllPages Examples.no_numbers Examples.endless 5 Examples.first_url Examples.fresh =
    None /\
  requests (fetchAllPages_world Examples.no_numbers Examples.endless 5 []
              (JStr Examples.first_url) false Examples.fresh) =
    [API_BASE_URL +:+ Examples.first_url;
     "https://backend.example/hr?page=more"; "https://backend.example/hr?page=more";
     "https://backend.example/hr?page=more"; "https://backend.example/hr?page=more"].
Proof. split; vm_compute; reflexivity. Qed.

End ApiMore.

(** ** Properties of the range resolution *)

Module RangeFacts.
Import Js Api.

Lemma token_cases (t : string) :
  t ∈ range_tokens -> t = "24h" \/ t = "7d" \/ t = "30d".
Proof.
  unfold range_tokens. rewrite !elem_of_cons, elem_of_nil. tauto.
Qed.

Lemma token_truthy (t : string) : t ∈ range_tokens -> truthy_opt (Some t) = true.
Proof. intros H. destruct (token_cases t H) as [-> | [-> | ->]]; reflexivity. Qed.

Lemma token_encoded (t : string) : t ∈ range_tokens -> form_urlencode t = t.
Proof. intros H. destruct (token_cases t H) as [-> | [-> | ->]]; reflexivity. Qed.

(** With a truthy [range] and no dates the shared body appends the token. *)
Lemma metric_url_range (path : string) (userId range : option string) :
  truthy_opt range = true ->
  metric_url path userId None None range =
  query_head path userId +:+ "&range=" +:+ template_opt range.
Proof.
  intros H. unfold metric_url, query_head. cbn [truthy_opt andb]. rewrite H.
  reflexivity.
Qed.

(** With nothing supplied the shared body falls back to [24h]. *)
Lemma metric_url_default (path : string) (userId : option string) :
  metric_url path userId None None None = query_head path userId +:+ "&range=24h".
Proof. reflexivity. Qed.

(** C6, as the code has it.  For a token [t] of [24h], [7d], [30d] and no
    dates, each of the eight functions puts [range=t] in its URL.  With no
    token and no dates, the six functions that go through [fetchAllPages]
    put [range=24h]; [getStepsData] and [getDayTotalActivity] put no
    [range] parameter at all: their URL carries the user when there is one
    and nothing else. *)
Theorem range_resolution (userId : option string) (t : string) :
  t ∈ range_tokens ->
  Forall (fun '(metric, path) =>
            metric userId None None (Some t) = query_head path userId +:+ "&range=" +:+ t /\
            metric userId None None None = query_head path userId +:+ "&range=24h")
         paginated_metrics /\
  getStepsData_url userId None None (Some t) =
    (if truthy_opt userId
     then "/api/Steps/?user=" +:+ form_urlencode (template_opt userId) +:+ "&range=" +:+ t
     else "/api/Steps/?range=" +:+ t) /\
  getDayTotalActivity_url userId (Some t) =
    (if truthy_opt userId
     then "/api/Day_total_activity/?user_id=" +:+ form_urlencode (template_opt userId) +:+
          "&range=" +:+ t
     else "/api/Day_total_activity/?range=" +:+ t) /\
  getStepsData_url userId None None None =
    (if truthy_opt userId
     then "/api/Steps/?user=" +:+ form_urlencode (template_opt userId)
     else "/api/Steps/") /\
  getDayTotalActivity_url userId None =
    (if truthy_opt userId
     then "/api/Day_total_activity/?user_id=" +:+ form_urlencode (template_opt userId)
     else "/api/Day_total_activity/").
Proof.
  intros Ht. pose proof (token_truthy t Ht) as Htruthy.
  pose proof (token_encoded t Ht) as Henc.
  split; [| repeat split].
  - unfold paginated_metrics.
    repeat constructor;
      solve [ apply (metric_url_range _ userId (Some t) Htruthy)
            | apply metric_url_default ].
  - unfold getStepsData_url. rewrite Htruthy.
    destruct (truthy_opt userId); cbn; rewrite Henc; reflexivity.
  - unfold getDayTotalActivity_url. rewrite Htruthy.
    destruct (truthy_opt userId); cbn; rewrite Henc; reflexivity.
  - unfold getStepsData_url. cbn [truthy_opt andb].
    destruct (truthy_opt userId); reflexivity.
  - unfold getDayTotalActivity_url. cbn [truthy_opt].
    destruct (truthy_opt userId); reflexivity.
Qed.

Lemma range_resolution_witness :
  getStepsData_url (Some "u1") None None (Some "7d") = "/api/Steps/?user=u1&range=7d" /\
  getStepsData_url (Some "u1") None None None = "/api/Steps/?user=u1".
Proof.
  pose proof (range_resolution (Some "u1") "7d") as H.
  assert (Hin : "7d" ∈ range_tokens) by (unfold range_tokens; constructor 2; constructor 1).
  destruct (H Hin) as (_ & Hsteps & _ & Hdefault & _).
  split; [exact Hsteps | exact Hdefault].
Defined.

(** C6, as the specification has it, fails for the last two functions:
    with no token and no dates the URL of [getStepsData] and the one of
    [getDayTotalActivity] do not hold [range=24h]. *)
Lemma default_range_missing :
  includes "range=24h" (getStepsData_url None None None None) = false /\
  includes "range=24h" (getDayTotalActivity_url None None) = false /\
  includes "range=24h" (getHeartRateData_url None None None None) = true.
Proof. repeat split; reflexivity. Qed.

End RangeFacts.

(** ** Properties of the cache *)

Module CacheFacts.
Import Cache.

Section Window.
Context {A : Type}.
Implicit Types (cache : gmap string (Entry A)) (calls : list (string * A * Z)).

(** [set] calls on other keys leave the entry of [key] alone. *)
Lemma puts_other key calls : forall cache,
  Forall (fun '(k, _, _) => k <> key) calls ->
  puts calls cache !! key = cache !! key.
Proof.
  induction calls as [| [[k payload] now] calls IH]; intros cache Hother.
  - reflexivity.
  - inversion Hother as [| ? ? Hk Hrest]; subst. cbn [puts fold_left].
    change (fold_left _ calls ?c) with (puts calls c).
    rewrite IH by assumption. unfold put. rewrite lookup_insert_ne by assumption.
    reflexivity.
Qed.

Lemma get_fresh key payload t now cache :
  cache !! key = Some (mkEntry payload t) ->
  (now - t < TTL)%Z ->
  get key now cache = Some payload.
Proof.
  intros Hlook Hnow. unfold get. rewrite Hlook. cbn [timestamp data].
  destruct (Z.ltb_spec (now - t) TTL); [reflexivity | lia].
Qed.

Lemma get_stale key payload t now cache :
  cache !! key = Some (mkEntry payload t) ->
  (TTL <= now - t)%Z ->
  get key now cache = None.
Proof.
  intros Hlook Hnow. unfold get. rewrite Hlook. cbn [timestamp data].
  destruct (Z.ltb_spec (now - t) TTL); [lia | reflexivity].
Qed.

(** C5. After [put key v] at time [t], and whatever is put under other keys
    afterwards, every lookup of [key] less than five minutes after [t]
    returns [v] (so two such lookups both do), and every lookup five
    minutes or more after [t] reports the entry absent. *)
Theorem cache_window key (v : A) (t : Z) calls cache (now1 now2 late : Z) :
  Forall (fun '(k, _, _) => k <> key) calls ->
  (now1 - t < TTL)%Z ->
  (now2 - t < TTL)%Z ->
  (TTL <= late - t)%Z ->
  get key now1 (puts calls (put key v t cache)) = Some v /\
  get key now2 (puts calls (put key v t cache)) = Some v /\
  get key late (puts calls (put key v t cache)) = None.
Proof.
  intros Hother H1 H2 Hlate.
  assert (Hlook : puts calls (put key v t cache) !! key = Some (mkEntry v t)).
  { rewrite puts_other by assumption. unfold put. apply lookup_insert_eq. }
  repeat split.
  - eapply get_fresh; eassumption.
  - eapply get_fresh; eassumption.
  - eapply get_stale; eassumption.
Qed.
End Window.

Lemma cache_window_witness :
  get "u1-24h" 1000 (puts [("u1-7d", [2], 500%Z)] (put "u1-24h" [1] 0 ∅)) = Some [1] /\
  get "u1-24h" 299999 (puts [("u1-7d", [2], 500%Z)] (put "u1-24h" [1] 0 ∅)) = Some [1] /\
  get "u1-24h" 300000 (puts [("u1-7d", [2], 500%Z)] (put "u1-24h" [1] 0 ∅)) = None.
Proof.
  apply (cache_window "u1-24h" [1] 0%Z [("u1-7d", [2], 500%Z)] ∅ 1000 299999 300000).
  - repeat constructor. discriminate.
  - reflexivity.
  - reflexivity.
  - discriminate.
Defined.

End CacheFacts.

(** ** Properties of the derived statistics *)

Module StatsFacts.

(** C7. On the empty sequence and on [null] the average is [0] and the
    minimum and maximum are both [0], in the heart-rate panel and in the
    SpO2 panel; the functions return a value on every input. *)
Theorem statistics_of_no_data :
  Forall (fun data =>
            HeartRate.calculateAverageHeartRate data = Float64.Finite 0 /\
            HeartRate.calculateMinMaxHeartRate data =
              {| HeartRate.min := 0; HeartRate.max := 0 |})
         [None; Some []] /\
  Forall (fun data =>
            SpO2.calculateAverageSpO2 data = Float64.Finite 0 /\
            SpO2.calculateMinMaxSpO2 data = {| SpO2.min := 0; SpO2.max := 0 |})
         [None; Some []].
Proof. split; repeat constructor. Qed.

(** The statistics of a series that is not empty, for comparison. *)
Example statistics_of_two :
  HeartRate.calculateAverageHeartRate (Some [Examples.hr_morning; Examples.hr_later]) =
    Float64.Finite 76 /\
  HeartRate.calculateMinMaxHeartRate (Some [Examples.hr_morning; Examples.hr_later]) =
    {| HeartRate.min := 72; HeartRate.max := 80 |}.
Proof. split; vm_compute; reflexivity. Qed.

End StatsFacts.

(** ** More properties of the URLs *)

Module RangeMore.
Import Js Api.

(** X6. Dates against range.  In the six functions that go through
    [fetchAllPages], two dates win over the range, and the range wins over
    a single date, which is then left out of the URL.  In [getStepsData]
    any date wins over the range. *)
Theorem dates_and_range (path : string) (userId fromDate toDate range : option string) :
  truthy_opt range = true ->
  (truthy_opt fromDate = true -> truthy_opt toDate = true ->
   metric_url path userId fromDate toDate range =
   metric_url path userId fromDate toDate None) /\
  (truthy_opt fromDate && truthy_opt toDate = false ->
   metric_url path userId fromDate toDate range =
   metric_url path userId None None range) /\
  (truthy_opt fromDate || truthy_opt toDate = true ->
   getStepsData_url userId fromDate toDate range =
   getStepsData_url userId fromDate toDate None).
Proof.
  intros Hrange. repeat split.
  - intros Hfrom Hto. unfold metric_url. rewrite Hfrom, Hto. reflexivity.
  - intros Hdates. unfold metric_url. rewrite Hdates, Hrange. reflexivity.
  - intros Hdates. unfold getStepsData_url.
    destruct (truthy_opt fromDate), (truthy_opt toDate); try discriminate; reflexivity.
Qed.

Lemma dates_and_range_witness :
  getHeartRateData_url (Some "u1") (Some "2026-01-01") None (Some "7d") =
  getHeartRateData_url (Some "u1") None None (Some "7d").
Proof.
  apply (dates_and_range "/api/HeartRate_Data/" (Some "u1") (Some "2026-01-01") None
           (Some "7d")); reflexivity.
Defined.

(** *** What a value can add to a query built with [URLSearchParams] *)

Lemma count_char_app c s1 s2 :
  count_char c (s1 +:+ s2) = count_char c s1 + count_char c s2.
Proof.
  induction s1 as [| c1 s1 IH]; [reflexivity |].
  change (String c1 s1 +:+ s2) with (String c1 (s1 +:+ s2)).
  cbn [count_char]. rewrite IH. lia.
Qed.

Lemma encoded_byte_harmless (c : ascii) :
  forallb harmless
    (list_ascii_of_string
       (if Ascii.eqb c " " then "+"
        else if form_safe c then String c "" else percent_encode c)) = true.
Proof. destruct c as [[] [] [] [] [] [] [] []]; reflexivity. Qed.

Lemma list_ascii_app s1 s2 :
  list_ascii_of_string (s1 +:+ s2) = list_ascii_of_string s1 ++ list_ascii_of_string s2.
Proof.
  induction s1 as [| c s1 IH]; [reflexivity |].
  change (String c s1 +:+ s2) with (String c (s1 +:+ s2)).
  cbn [list_ascii_of_string app]. rewrite IH. reflexivity.
Qed.

Lemma encoded_harmless (s : string) :
  forallb harmless (list_ascii_of_string (form_urlencode s)) = true.
Proof.
  induction s as [| c s IH]; [reflexivity |].
  cbn [form_urlencode]. rewrite list_ascii_app, forallb_app, IH, encoded_byte_harmless.
  reflexivity.
Qed.

Lemma harmless_count c s :
  harmless c = false ->
  forallb harmless (list_ascii_of_string s) = true ->
  count_char c s = 0.
Proof.
  intros Hc. induction s as [| c' s IH]; cbn [list_ascii_of_string forallb count_char];
    [reflexivity |].
  intros [Hhead Htail]%andb_prop. rewrite (IH Htail).
  destruct (Ascii.eqb_spec c' c) as [-> | _]; [congruence | reflexivity].
Qed.

(** X7. A user id, whatever bytes it holds, adds no separator to the URL of
    [getStepsData] or of [getDayTotalActivity]: with a range and no dates
    the URL has one [?], one [=] per parameter and one [&] between the two
    parameters, and no [#]. *)
Theorem user_cannot_add_parameters (userId : option string) (t : string) :
  t ∈ range_tokens ->
  Forall (fun url =>
            count_char "?" url = 1 /\
            count_char "&" url = (if truthy_opt userId then 1 else 0) /\
            count_char "=" url = (if truthy_opt userId then 2 else 1) /\
            count_char "#" url = 0)
         [getStepsData_url userId None None (Some t);
          getDayTotalActivity_url userId (Some t)].
Proof.
  intros Ht.
  pose proof (RangeFacts.token_truthy t Ht) as Htruthy.
  pose proof (RangeFacts.token_encoded t Ht) as Henc.
  assert (Hsteps : getStepsData_url userId None None (Some t) =
            (if truthy_opt userId
             then "/api/Steps/?user=" +:+ form_urlencode (template_opt userId) +:+
                  "&range=" +:+ t
             else "/api/Steps/?range=" +:+ t)).
  { unfold getStepsData_url. rewrite Htruthy.
    destruct (truthy_opt userId); cbn; rewrite Henc; reflexivity. }
  assert (Hactivity : getDayTotalActivity_url userId (Some t) =
            (if truthy_opt userId
             then "/api/Day_total_activity/?user_id=" +:+
                  form_urlencode (template_opt userId) +:+ "&range=" +:+ t
             else "/api/Day_total_activity/?range=" +:+ t)).
  { unfold getDayTotalActivity_url. rewrite Htruthy.
    destruct (truthy_opt userId); cbn; rewrite Henc; reflexivity. }
  rewrite Hsteps, Hactivity. clear Htruthy Henc Hsteps Hactivity.
  assert (Htoken : forall c, count_char c t = count_char c "24h" \/
                             count_char c t = count_char c "7d" \/
                             count_char c t = count_char c "30d").
  { intros c. destruct (RangeFacts.token_cases t Ht) as [-> | [-> | ->]]; auto. }
  assert (Henc : forall c, harmless c = false ->
                   count_char c (form_urlencode (template_opt userId)) = 0).
  { intros c Hc. apply harmless_count; [assumption | apply encoded_harmless]. }
  destruct (RangeFacts.token_cases t Ht) as [-> | [-> | ->]];
    destruct (truthy_opt userId);
    repeat constructor; rewrite ?count_char_app, ?Henc by reflexivity; reflexivity.
Qed.

Lemma user_cannot_add_parameters_witness :
  count_char "&" (getStepsData_url (Some "u1&range=30d") None None (Some "24h")) = 1.
Proof.
  pose proof (user_cannot_add_parameters (Some "u1&range=30d") "24h") as H.
  assert (Hin : "24h" ∈ range_tokens) by (unfold range_tokens; constructor 1).
  apply H in Hin. inversion Hin as [| ? ? (_ & Hamp & _) _]. exact Hamp.
Defined.

(** The six other functions put the user id in the URL as it is. *)
Example user_id_as_it_is :
  getHeartRateData_url (Some "u1&range=30d") None None (Some "24h") =
  "/api/HeartRate_Data/?user_id=u1&range=30d&range=24h".
Proof. reflexivity. Qed.

End RangeMore.

(** ** Properties of the series processing *)

Module SortFacts.
Import Dates Shared.

Section Sort.
Context `{Runtime} {A : Type}.
Variable date_of : A -> string.

Local Abbreviation insert := (sort_insert date_of).
Local Abbreviation sort := (Shared.sort date_of).
Local Abbreviation in_order := (Shared.in_order date_of).

Lemma insert_perm x l : Permutation (insert x l) (x :: l).
Proof.
  induction l as [| y l IH]; cbn [sort_insert].
  - reflexivity.
  - destruct (sort_compare date_of x y <=? 0)%Z.
    + reflexivity.
    + rewrite IH. apply perm_swap.
Qed.

Lemma sort_perm l : Permutation (sort l) l.
Proof.
  induction l as [| x l IH]; cbn [Shared.sort].
  - reflexivity.
  - rewrite insert_perm. apply perm_skip, IH.
Qed.

(** When the comparator puts [y] before [x], it does not put [x] before
    [y]: both dates are valid then, and the difference changes sign. *)
Lemma compare_flip x y :
  (0 < sort_compare date_of x y)%Z -> (sort_compare date_of y x <= 0)%Z.
Proof.
  unfold sort_compare, by_date.
  destruct (Date_parse (date_of x)), (Date_parse (date_of y)); lia.
Qed.

Lemma insert_head x l z :
  HdRel in_order z l -> in_order z x -> HdRel in_order z (insert x l).
Proof.
  intros Hl Hx. destruct l as [| y l]; cbn [sort_insert].
  - constructor. exact Hx.
  - destruct (sort_compare date_of x y <=? 0)%Z; constructor.
    + exact Hx.
    + inversion Hl; assumption.
Qed.

Lemma insert_sorted x l : Sorted in_order l -> Sorted in_order (insert x l).
Proof.
  induction 1 as [| y l Hsorted IH Hhd]; cbn [sort_insert].
  - repeat constructor.
  - destruct (Z.leb_spec (sort_compare date_of x y) 0) as [Hle | Hgt].
    + constructor; [constructor; assumption |]. constructor. exact Hle.
    + constructor; [exact IH |]. apply insert_head; [exact Hhd |].
      apply compare_flip. exact Hgt.
Qed.

Lemma sort_sorted l : Sorted in_order (sort l).
Proof.
  induction l as [| x l IH]; cbn [Shared.sort].
  - constructor.
  - apply insert_sorted, IH.
Qed.
End Sort.

End SortFacts.

Module SeriesFacts.
Import Dates Shared SpO2 SortFacts.

Lemma unique_from seen data x :
  In x (unique seen data) -> (date x ∉ seen) /\ In x data.
Proof.
  revert seen. induction data as [| item rest IH]; intros seen Hin; cbn [unique] in Hin.
  - contradiction.
  - destruct (decide (date item ∈ seen)) as [Hseen | Hnew].
    + destruct (IH _ Hin). split; [assumption | right; assumption].
    + destruct Hin as [<- | Hin].
      * split; [assumption | left; reflexivity].
      * destruct (IH _ Hin) as [Hx ?]. split; [| right; assumption].
        intros Hseen. apply Hx, elem_of_union_r, Hseen.
Qed.

(** No two items of [uniqueData] carry the same date. *)
Lemma unique_NoDup seen data : NoDup (map date (unique seen data)).
Proof.
  revert seen. induction data as [| item rest IH]; intros seen; cbn [unique].
  - constructor.
  - destruct (decide (date item ∈ seen)) as [Hseen | Hnew]; [apply IH |].
    cbn [map]. constructor; [| apply IH].
    rewrite list_elem_of_In, in_map_iff. intros (x & Hdate & Hin).
    apply unique_from in Hin as [Hx _]. apply Hx.
    rewrite Hdate. apply elem_of_union_l, elem_of_singleton. reflexivity.
Qed.

(** [uniqueData] keeps, of each date, the first item that carries it. *)
Lemma unique_first seen data d :
  d ∉ seen -> first_with d (unique seen data) = first_with d data.
Proof.
  revert seen. induction data as [| item rest IH]; intros seen Hd; cbn [unique].
  - reflexivity.
  - unfold first_with in *. cbn [find].
    destruct (decide (date item ∈ seen)) as [Hseen | Hnew].
    + destruct (String.eqb_spec (date item) d) as [<- | Hne]; [contradiction |].
      apply IH. assumption.
    + cbn [find]. destruct (String.eqb_spec (date item) d) as [Heq | Hne]; [reflexivity |].
      apply IH. rewrite elem_of_union, elem_of_singleton.
      intros [-> | Hseen]; [apply Hne; reflexivity | apply Hd, Hseen].
Qed.

(** Among items of distinct dates, which item carries a date does not
    depend on their order. *)
Lemma first_with_perm d l l' :
  Permutation l l' -> NoDup (map date l) -> first_with d l = first_with d l'.
Proof.
  unfold first_with.
  induction 1 as [| x l l' Hperm IH | x y l | l l' l'' H1 IH1 H2 IH2]; intros Hdup.
  - reflexivity.
  - cbn [find]. destruct (String.eqb (date x) d); [reflexivity |].
    apply IH. cbn [map] in Hdup. inversion Hdup; assumption.
  - cbn [find map] in *.
    destruct (String.eqb_spec (date y) d) as [Hy | Hy],
             (String.eqb_spec (date x) d) as [Hx | Hx]; try reflexivity.
    exfalso. inversion Hdup as [| ? ? Hnotin _]; subst.
    apply Hnotin. rewrite list_elem_of_In. left. congruence.
  - rewrite IH1 by assumption. apply IH2.
    apply (Permutation_map date) in H1. rewrite <- H1. exact Hdup.
Qed.

Section Chart.
Context `{Runtime}.

Lemma point_with_chart d items :
  point_with d (map chart_point items) = option_map chart_point (first_with d items).
Proof.
  unfold point_with, first_with.
  induction items as [| item rest IH]; cbn [map find].
  - reflexivity.
  - cbn [chart_point point_date]. destruct (String.eqb (date item) d); [reflexivity | exact IH].
Qed.

Lemma ascending_chart a b :
  Shared.in_order date a b -> ascending (chart_point a) (chart_point b).
Proof.
  unfold in_order, sort_compare, by_date, ascending. cbn [chart_point rawDate].
  destruct (Date_parse (date a)), (Date_parse (date b)); intros; trivial; lia.
Qed.

Lemma sorted_chart items :
  Sorted (Shared.in_order date) items -> Sorted ascending (map chart_point items).
Proof.
  induction 1 as [| a l Hsorted IH Hhd]; cbn [map]; constructor.
  - exact IH.
  - destruct Hhd; cbn [map]; constructor. apply ascending_chart. assumption.
Qed.

(** C8. Whatever series the SpO2 panel is given, its chart holds one point
    per date: no two points carry the same date, the point of a date is the
    one made of the first item that carries it, and the points are in
    ascending order of time.  The heart-rate, blood-pressure, stress and
    HRV panels make one point of every item, duplicates included, in the
    order of the series. *)
Theorem spo2_alone_removes_duplicates :
  (forall data : list SpO2.Sample,
     NoDup (map SpO2.point_date (processSpO2Data (Some data))) /\
     (forall d, point_with d (processSpO2Data (Some data)) =
                option_map chart_point (first_with d data)) /\
     Sorted ascending (processSpO2Data (Some data))) /\
  (forall data : list HeartRate.Sample,
     map HeartRate.point_date (HeartRate.processHeartRateData (Some data)) =
     map HeartRate.date data) /\
  (forall data : list BloodPressure.Sample,
     map BloodPressure.point_date (BloodPressure.processBPData (Some data)) =
     map BloodPressure.date data) /\
  (forall data : list Stress.Sample,
     map Stress.point_date (Stress.processStressData (Some data)) =
     map Stress.date data) /\
  (forall data : list HRV.Sample,
     map HRV.point_date (HRV.processHRVData (Some data)) = map HRV.date data).
Proof.
  split; [| repeat split].
  - intros data. destruct data as [| item rest].
    { repeat split; constructor. }
    unfold processSpO2Data.
    set (items := item :: rest).
    assert (Hperm : Permutation (sort date (unique ∅ items)) (unique ∅ items))
      by apply sort_perm.
    repeat split.
    + rewrite map_map. cbn [chart_point SpO2.point_date].
      rewrite (Permutation_map date Hperm). apply unique_NoDup.
    + intros d. rewrite point_with_chart. f_equal.
      rewrite (first_with_perm d _ _ Hperm).
      * apply unique_first, not_elem_of_empty.
      * rewrite (Permutation_map date Hperm). apply unique_NoDup.
    + apply sorted_chart, sort_sorted.
  - intros data. cbn [HeartRate.processHeartRateData]. rewrite map_map. reflexivity.
  - intros data. cbn [BloodPressure.processBPData]. rewrite map_map. reflexivity.
  - intros data. cbn [Stress.processStressData]. rewrite map_map. reflexivity.
  - intros data. cbn [HRV.processHRVData]. rewrite map_map. reflexivity.
Qed.
End Chart.

(** Two samples of the same instant: one point in the SpO2 chart, with the
    value of the first; two points in the heart-rate chart. *)
Example same_instant_twice :
  map SpO2.value
      (processSpO2Data (H := Examples.known_dates)
         (Some [Examples.ox_later; Examples.ox_morning; Examples.ox_again])) = [97; 95]%Q /\
  map HeartRate.value
      (HeartRate.processHeartRateData (H := Examples.known_dates)
         (Some [Examples.hr_later; Examples.hr_morning; Examples.hr_again])) = [80; 72; 75]%Q.
Proof. split; vm_compute; reflexivity. Qed.

End SeriesFacts.

(** ** Properties of binary64 arithmetic *)

Module Float64Facts.
Import Float64.
Local Open Scope Q_scope.

(** *** The nearest integer *)

Lemma nearest_even_whole (z : Z) : nearest_even (inject_Z z) = z.
Proof.
  unfold nearest_even. rewrite Qfloor_Z.
  destruct (Qcompare_spec (inject_Z z - inject_Z z) (1 # 2)) as [Heq | Hlt | Hgt].
  - exfalso. lra.
  - reflexivity.
  - exfalso. lra.
Qed.

Lemma nearest_even_comp (x y : Q) : x == y -> nearest_even x = nearest_even y.
Proof.
  intros Hxy. unfold nearest_even.
  assert (Hf : Qfloor x = Qfloor y) by (rewrite Hxy; reflexivity).
  rewrite Hf.
  assert (Hc : Qcompare (x - inject_Z (Qfloor y)) (1 # 2) =
               Qcompare (y - inject_Z (Qfloor y)) (1 # 2)).
  { rewrite Hxy. reflexivity. }
  rewrite Hc. reflexivity.
Qed.

(** The nearest integer lies between the floor and the floor plus one. *)
Lemma nearest_even_floor (x : Q) :
  (Qfloor x <= nearest_even x <= Qfloor x + 1)%Z.
Proof.
  unfold nearest_even.
  destruct (Qcompare (x - inject_Z (Qfloor x)) (1 # 2)); [destruct (Z.even _) | |]; lia.
Qed.

Lemma nearest_even_monotone (x y : Q) : x <= y -> (nearest_even x <= nearest_even y)%Z.
Proof.
  intros Hxy. pose proof (Qfloor_resp_le x y Hxy) as Hf.
  destruct (Z.eq_dec (Qfloor x) (Qfloor y)) as [Heq | Hne].
  - unfold nearest_even. rewrite <- Heq.
    destruct (Qcompare_spec (x - inject_Z (Qfloor x)) (1 # 2)) as [Hx | Hx | Hx];
      destruct (Qcompare_spec (y - inject_Z (Qfloor x)) (1 # 2)) as [Hy | Hy | Hy];
      try destruct (Z.even (Qfloor x)); try lia; exfalso; lra.
  - pose proof (nearest_even_floor x). pose proof (nearest_even_floor y). lia.
Qed.

Lemma nearest_even_below (x : Q) (n : Z) : x <= inject_Z n -> (nearest_even x <= n)%Z.
Proof.
  intros Hx. rewrite <- (nearest_even_whole n). apply nearest_even_monotone, Hx.
Qed.

Lemma nearest_even_above (x : Q) (n : Z) : inject_Z n <= x -> (n <= nearest_even x)%Z.
Proof.
  intros Hx. rewrite <- (nearest_even_whole n). apply nearest_even_monotone, Hx.
Qed.


(** *** Rounding to 53 significant bits *)

Lemma power_positive (s : Z) : (0 <= s)%Z -> 0 < inject_Z (2 ^ s).
Proof.
  intros Hs. change 0 with (inject_Z 0). rewrite <- Zlt_Qlt.
  apply Z.pow_pos_nonneg; lia.
Qed.

Lemma power_product (a b : Z) :
  (0 <= a)%Z -> (0 <= b)%Z -> inject_Z (2 ^ (a + b)) == inject_Z (2 ^ a) * inject_Z (2 ^ b).
Proof. intros Ha Hb. rewrite Z.pow_add_r, inject_Z_mult by assumption. reflexivity. Qed.

Lemma floor_nonneg (x : Q) : 0 <= x -> (0 <= Qfloor x)%Z.
Proof. intros Hx. change 0%Z with (Qfloor 0). apply Qfloor_resp_le, Hx. Qed.

Lemma dropped_bits_nonneg (x : Q) : (0 <= dropped_bits x)%Z.
Proof. unfold dropped_bits. lia. Qed.

(** The binade of a magnitude: it is below [2^(53+s)], and from
    [2^(52+s)] when bits are dropped. *)
Lemma binade (x : Q) :
  0 <= x ->
  x < inject_Z (2 ^ (53 + dropped_bits x)) /\
  ((0 < dropped_bits x)%Z -> inject_Z (2 ^ (52 + dropped_bits x)) <= x).
Proof.
  intros Hx. pose proof (floor_nonneg x Hx) as Hn.
  pose proof (Qfloor_le x) as Hlow. pose proof (Qlt_floor x) as Hhigh.
  unfold dropped_bits. set (n := Qfloor x) in *.
  destruct (Z.eq_dec n 0%Z) as [Hzero | Hpos].
  - rewrite Hzero in *. cbn [Z.log2 Z.sub Z.opp Z.max Z.compare Z.add].
    split; [| intros Hs; discriminate Hs].
    eapply Qlt_le_trans; [exact Hhigh |].
    rewrite <- Zle_Qle. change (1 <= 2 ^ 53)%Z. lia.
  - assert (Hn1 : (0 < n)%Z) by lia.
    pose proof (Z.log2_spec n Hn1) as [Hk1 Hk2].
    pose proof (Z.log2_nonneg n) as Hk0.
    set (k := Z.log2 n) in *. split.
    + eapply Qlt_le_trans; [exact Hhigh |]. rewrite <- Zle_Qle.
      transitivity (2 ^ Z.succ k)%Z; [lia |].
      apply Z.pow_le_mono_r; lia.
    + intros Hs. replace (52 + Z.max 0 (k - 52))%Z with k by lia.
      eapply Qle_trans; [| exact Hlow]. rewrite <- Zle_Qle. exact Hk1.
Qed.

Lemma dropped_bits_monotone (x y : Q) :
  0 <= x -> x <= y -> (dropped_bits x <= dropped_bits y)%Z.
Proof.
  intros Hx Hxy. unfold dropped_bits.
  pose proof (Qfloor_resp_le x y Hxy) as Hf.
  pose proof (Z.log2_le_mono _ _ Hf). lia.
Qed.

Lemma dropped_bits_comp (x y : Q) : x == y -> dropped_bits x = dropped_bits y.
Proof. intros Hxy. unfold dropped_bits. rewrite Hxy. reflexivity. Qed.

Lemma round_units_comp (x y : Q) : x == y -> round_units x = round_units y.
Proof.
  intros Hxy. unfold round_units. rewrite (dropped_bits_comp x y Hxy).
  f_equal. apply nearest_even_comp. rewrite Hxy. reflexivity.
Qed.

(** The rounded magnitude stays in its binade, ends included. *)
Lemma round_units_binade (x : Q) :
  0 <= x ->
  (0 <= round_units x <= 2 ^ (53 + dropped_bits x))%Z /\
  ((0 < dropped_bits x)%Z -> (2 ^ (52 + dropped_bits x) <= round_units x)%Z).
Proof.
  intros Hx. destruct (binade x Hx) as [Hhigh Hlow].
  pose proof (dropped_bits_nonneg x) as Hs. unfold round_units.
  set (s := dropped_bits x) in *.
  pose proof (power_positive s Hs) as Hp.
  assert (Hps : (0 < 2 ^ s)%Z) by (apply Z.pow_pos_nonneg; lia).
  assert (Hup : (nearest_even (x / inject_Z (2 ^ s)) <= 2 ^ 53)%Z).
  { apply nearest_even_below. apply Qle_shift_div_r; [exact Hp |].
    rewrite <- power_product by lia. apply Qlt_le_weak, Hhigh. }
  assert (Hdown : (0 <= nearest_even (x / inject_Z (2 ^ s)))%Z).
  { apply nearest_even_above. apply Qle_shift_div_l; [exact Hp |].
    change (inject_Z 0) with 0. lra. }
  split; [split |].
  - apply Z.mul_nonneg_nonneg; lia.
  - rewrite Z.pow_add_r by lia. apply Z.mul_le_mono_nonneg_r; lia.
  - intros Hpos. rewrite Z.pow_add_r by lia. apply Z.mul_le_mono_nonneg_r; [lia |].
    apply nearest_even_above. apply Qle_shift_div_l; [exact Hp |].
    rewrite <- power_product by lia. apply Hlow, Hpos.
Qed.

(** Rounding keeps the order of magnitudes. *)
Lemma round_units_monotone (x y : Q) :
  0 <= x -> x <= y -> (round_units x <= round_units y)%Z.
Proof.
  intros Hx Hxy. assert (Hy : 0 <= y) by lra.
  pose proof (dropped_bits_monotone x y Hx Hxy) as Hs.
  pose proof (dropped_bits_nonneg x) as Hsx.
  destruct (Z.eq_dec (dropped_bits x) (dropped_bits y)) as [Heq | Hne].
  - unfold round_units. rewrite Heq. set (s := dropped_bits y) in *.
    apply Z.mul_le_mono_nonneg_r; [apply Z.pow_nonneg; lia |].
    apply nearest_even_monotone.
    pose proof (power_positive s ltac:(lia)) as Hp.
    unfold Qdiv. apply Qmult_le_compat_r; [exact Hxy |].
    apply Qlt_le_weak, Qinv_lt_0_compat, Hp.
  - destruct (round_units_binade x Hx) as [[_ Hup] _].
    destruct (round_units_binade y Hy) as [_ Hdown].
    specialize (Hdown ltac:(lia)).
    transitivity (2 ^ (53 + dropped_bits x))%Z; [exact Hup |].
    transitivity (2 ^ (52 + dropped_bits y))%Z; [| exact Hdown].
    apply Z.pow_le_mono_r; lia.
Qed.

(** A magnitude of at most 53 significant bits is its own rounding. *)
Lemma round_units_exact (m t : Z) :
  (0 <= m <= 2 ^ 53)%Z -> (0 <= t)%Z ->
  round_units (inject_Z (m * 2 ^ t)) = (m * 2 ^ t)%Z.
Proof.
  intros Hm Ht.
  assert (Hpt : (0 < 2 ^ t)%Z) by (apply Z.pow_pos_nonneg; lia).
  assert (Hx : 0 <= inject_Z (m * 2 ^ t)).
  { change 0 with (inject_Z 0). rewrite <- Zle_Qle. apply Z.mul_nonneg_nonneg; lia. }
  destruct (binade _ Hx) as [_ Hlow].
  pose proof (dropped_bits_nonneg (inject_Z (m * 2 ^ t))) as Hs.
  unfold round_units. set (s := dropped_bits (inject_Z (m * 2 ^ t))) in *.
  assert (Hps : (0 < 2 ^ s)%Z) by (apply Z.pow_pos_nonneg; lia).
  assert (Hdiv : exists m', (m * 2 ^ t = m' * 2 ^ s)%Z).
  { destruct (Z.le_gt_cases s t) as [Hst | Hts].
    - exists (m * 2 ^ (t - s))%Z. rewrite <- Z.mul_assoc, <- Z.pow_add_r by lia.
      replace (t - s + s)%Z with t by lia. reflexivity.
    - specialize (Hlow ltac:(lia)). rewrite <- Zle_Qle in Hlow.
      assert (Hbig : (2 ^ 53 * 2 ^ t <= m * 2 ^ t)%Z).
      { rewrite <- Z.pow_add_r by lia. etransitivity; [| exact Hlow].
        apply Z.pow_le_mono_r; lia. }
      apply Z.mul_le_mono_pos_r in Hbig; [| exact Hpt].
      assert (Hm53 : m = (2 ^ 53)%Z) by lia.
      assert (Hs1 : s = (t + 1)%Z).
      { rewrite Hm53, <- Z.pow_add_r in Hlow by lia.
        apply Z.pow_le_mono_r_iff in Hlow; lia. }
      exists (2 ^ 52)%Z. rewrite Hm53, Hs1, <- !Z.pow_add_r by lia.
      f_equal. lia. }
  destruct Hdiv as [m' Hm']. rewrite Hm'.
  f_equal. rewrite <- (nearest_even_whole m') at 2. apply nearest_even_comp.
  rewrite inject_Z_mult. field.
  pose proof (power_positive s Hs). lra.
Qed.

(** *** The nearest double *)

Lemma Qred_whole (z : Z) : Qred (inject_Z z) = inject_Z z.
Proof.
  unfold Qred, inject_Z.
  pose proof (Z.ggcd_gcd z 1) as Hgcd. pose proof (Z.ggcd_correct_divisors z 1) as Hdiv.
  destruct (Z.ggcd z 1) as [g [q1 q2]]. cbn [fst snd] in *.
  rewrite Z.gcd_1_r in Hgcd. subst g. destruct Hdiv as [Hz Hone].
  replace q1 with z by lia. replace q2 with 1%Z by lia. reflexivity.
Qed.

Lemma to_double_comp (x y : Q) : x == y -> to_double x = to_double y.
Proof. intros Hxy. unfold to_double. rewrite (Qred_complete x y Hxy). reflexivity. Qed.

Lemma units_whole (m : Z) : ((m * 2 ^ 1074) # 2 ^ 1074) == inject_Z m.
Proof.
  unfold Qeq. cbn [Qnum Qden inject_Z]. rewrite Pos2Z.inj_pow. lia.
Qed.

(** What rounding a magnitude comes to: an infinity of its sign when the
    rounded magnitude is [2^1024] or more, and else the rounded magnitude
    with its sign. *)
Lemma round_magnitude_cases (negative : bool) (q : Q) :
  let units := round_units (q * inject_Z (2 ^ 1074)) in
  (round_magnitude negative q = Infinity negative /\ (2 ^ 2098 <= units)%Z) \/
  (exists r, round_magnitude negative q = Finite r /\
             r == ((if negative then - units else units)%Z # 2 ^ 1074) /\
             (units < 2 ^ 2098)%Z).
Proof.
  cbn zeta. unfold round_magnitude.
  destruct (Z.leb_spec (2 ^ 2098) (round_units (q * inject_Z (2 ^ 1074)))) as [Hover | Hfits].
  - left. split; [reflexivity | exact Hover].
  - right. eexists. split; [reflexivity |]. split; [apply Qred_correct | exact Hfits].
Qed.

Lemma round_magnitude_whole (negative : bool) (m : Z) :
  (0 <= m <= 2 ^ 53)%Z ->
  round_magnitude negative (inject_Z m) =
  Finite (inject_Z (if negative then - m else m)).
Proof.
  intros Hm. unfold round_magnitude.
  rewrite <- inject_Z_mult, (round_units_exact m 1074) by lia.
  assert (Hfits : (m * 2 ^ 1074 < 2 ^ 2098)%Z).
  { change 2098%Z with (1024 + 1074)%Z. rewrite Z.pow_add_r by lia.
    apply Z.mul_lt_mono_pos_r; [apply Z.pow_pos_nonneg; lia |].
    apply Z.le_lt_trans with (2 ^ 53)%Z; [lia |].
    apply Z.pow_lt_mono_r; lia. }
  destruct (Z.leb_spec (2 ^ 2098) (m * 2 ^ 1074)) as [Hover | _]; [lia |].
  f_equal. rewrite <- (Qred_whole (if negative then - m else m)%Z).
  apply Qred_complete. destruct negative.
  - rewrite <- Z.mul_opp_l. apply units_whole.
  - apply units_whole.
Qed.

(** A whole number of magnitude up to [2^53] is a double. *)
Lemma to_double_whole (z : Z) :
  (- 2 ^ 53 <= z <= 2 ^ 53)%Z -> to_double (inject_Z z) = Finite (inject_Z z).
Proof.
  intros Hz. unfold to_double. rewrite Qred_whole.
  destruct (Qle_bool 0 (inject_Z z)) eqn:Hsign.
  - apply Qle_bool_iff in Hsign. change 0 with (inject_Z 0) in Hsign.
    rewrite <- Zle_Qle in Hsign. apply (round_magnitude_whole false). lia.
  - assert (Hneg : (z < 0)%Z).
    { apply Z.lt_nge. intros Hpos. rewrite Zle_Qle in Hpos.
      apply Qle_bool_iff in Hpos. change (inject_Z 0) with 0 in Hpos. congruence. }
    change (- inject_Z z) with (inject_Z (- z)).
    rewrite (round_magnitude_whole true) by lia. rewrite Z.opp_involutive. reflexivity.
Qed.

Lemma scaled_nonneg (q : Q) : 0 <= q -> 0 <= q * inject_Z (2 ^ 1074).
Proof.
  intros Hq. apply Qmult_le_0_compat; [exact Hq |].
  apply Qlt_le_weak, power_positive. lia.
Qed.

Lemma scaled_monotone (x y : Q) :
  x <= y -> x * inject_Z (2 ^ 1074) <= y * inject_Z (2 ^ 1074).
Proof.
  intros Hxy. apply Qmult_le_compat_r; [exact Hxy |].
  apply Qlt_le_weak, power_positive. lia.
Qed.

Lemma units_order (a b : Z) : (a <= b)%Z -> (a # 2 ^ 1074) <= (b # 2 ^ 1074).
Proof.
  intros Hab. unfold Qle. cbn [Qnum Qden].
  apply Z.mul_le_mono_nonneg_r; [lia | exact Hab].
Qed.

(** Rounding to the nearest double keeps the order. *)
Lemma to_double_monotone (x y : Q) : x <= y -> le (to_double x) (to_double y).
Proof.
  intros Hxy. unfold to_double.
  pose proof (Qred_correct x) as Hx. pose proof (Qred_correct y) as Hy.
  set (x' := Qred x) in *. set (y' := Qred y) in *.
  assert (Hxy' : x' <= y') by (rewrite Hx, Hy; exact Hxy).
  clearbody x' y'. clear x y Hx Hy Hxy.
  destruct (Qle_bool 0 x') eqn:Hsx; destruct (Qle_bool 0 y') eqn:Hsy.
  - apply Qle_bool_iff in Hsx, Hsy.
    pose proof (round_units_monotone _ _ (scaled_nonneg x' Hsx) (scaled_monotone _ _ Hxy'))
      as Hunits.
    destruct (round_magnitude_cases false x') as [[-> Hox] | (rx & -> & Hrx & Hfx)];
      destruct (round_magnitude_cases false y') as [[-> Hoy] | (ry & -> & Hry & Hfy)];
      cbn [le]; auto; [lia |].
    rewrite Hrx, Hry. apply units_order, Hunits.
  - exfalso. apply Qle_bool_iff in Hsx.
    assert (Hy0 : 0 <= y') by lra. apply Qle_bool_iff in Hy0. congruence.
  - apply Qle_bool_iff in Hsy.
    assert (Hnx : 0 <= - x').
    { destruct (Qlt_le_dec x' 0) as [Hlt | Hge]; [lra |].
      apply Qle_bool_iff in Hge. congruence. }
    pose proof (round_units_binade _ (scaled_nonneg _ Hnx)) as [[Hux _] _].
    pose proof (round_units_binade _ (scaled_nonneg _ Hsy)) as [[Huy _] _].
    destruct (round_magnitude_cases true (- x')) as [[-> Hox] | (rx & -> & Hrx & Hfx)];
      destruct (round_magnitude_cases false y') as [[-> Hoy] | (ry & -> & Hry & Hfy)];
      cbn [le]; auto.
    rewrite Hrx, Hry. apply units_order. lia.
  - assert (Hnx : 0 <= - x').
    { destruct (Qlt_le_dec x' 0) as [Hlt | Hge]; [lra |].
      apply Qle_bool_iff in Hge. congruence. }
    assert (Hny : 0 <= - y').
    { destruct (Qlt_le_dec y' 0) as [Hlt | Hge]; [lra |].
      apply Qle_bool_iff in Hge. congruence. }
    assert (Hopp : - y' <= - x') by lra.
    pose proof (round_units_monotone _ _ (scaled_nonneg _ Hny) (scaled_monotone _ _ Hopp))
      as Hunits.
    destruct (round_magnitude_cases true (- x')) as [[-> Hox] | (rx & -> & Hrx & Hfx)];
      destruct (round_magnitude_cases true (- y')) as [[-> Hoy] | (ry & -> & Hry & Hfy)];
      cbn [le]; auto; [lia |].
    rewrite Hrx, Hry. apply units_order. lia.
Qed.

(** Between two doubles, the nearest double of a real is finite and lies
    between them. *)
Lemma to_double_between (lo hi q lo' hi' : Q) :
  to_double lo = Finite lo' -> to_double hi = Finite hi' ->
  lo <= q -> q <= hi ->
  exists r, to_double q = Finite r /\ lo' <= r /\ r <= hi'.
Proof.
  intros Hlo Hhi Hl Hh.
  pose proof (to_double_monotone lo q Hl) as Hbelow.
  pose proof (to_double_monotone q hi Hh) as Habove.
  rewrite Hlo in Hbelow. rewrite Hhi in Habove.
  destruct (to_double q) as [r | [|] |]; cbn [le] in *; try contradiction; eauto.
Qed.

(** Between two whole numbers. *)
Lemma to_double_between_whole (lo hi : Z) (q : Q) :
  (- 2 ^ 53 <= lo)%Z -> (hi <= 2 ^ 53)%Z ->
  inject_Z lo <= q -> q <= inject_Z hi ->
  exists r, to_double q = Finite r /\ inject_Z lo <= r /\ r <= inject_Z hi.
Proof.
  intros Hlo Hhi Hl Hh.
  assert (Horder : (lo <= hi)%Z) by (rewrite Zle_Qle; lra).
  apply (to_double_between (inject_Z lo) (inject_Z hi)); try assumption;
    apply to_double_whole; lia.
Qed.

(** [Math.round] of a number between two whole numbers. *)
Lemma Math_round_between (lo hi : Z) (r : Q) :
  inject_Z lo <= r -> r <= inject_Z hi ->
  exists k, Math_round (Finite r) = Finite (inject_Z k) /\ (lo <= k <= hi)%Z.
Proof.
  intros Hl Hh. exists (Qfloor (r + (1 # 2))). split; [reflexivity |]. split.
  - rewrite <- (Qfloor_Z lo). apply Qfloor_resp_le. lra.
  - assert (Hlt : (Qfloor (r + (1 # 2)) < hi + 1)%Z).
    { rewrite Zlt_Qlt. eapply Qle_lt_trans; [apply Qfloor_le |].
      rewrite inject_Z_plus. change (inject_Z 1) with 1. lra. }
    lia.
Qed.

(** The rounded magnitude is a significand of at most 53 bits, shifted. *)
Lemma round_units_form (x : Q) :
  0 <= x ->
  exists m, round_units x = (m * 2 ^ dropped_bits x)%Z /\ (0 <= m <= 2 ^ 53)%Z.
Proof.
  intros Hx. destruct (binade x Hx) as [Hhigh _].
  pose proof (dropped_bits_nonneg x) as Hs.
  exists (nearest_even (x / inject_Z (2 ^ dropped_bits x))). split; [reflexivity |].
  set (s := dropped_bits x) in *.
  pose proof (power_positive s Hs) as Hp. split.
  - apply nearest_even_above. apply Qle_shift_div_l; [exact Hp |].
    change (inject_Z 0) with 0. lra.
  - apply nearest_even_below. apply Qle_shift_div_r; [exact Hp |].
    rewrite <- power_product by lia. apply Qlt_le_weak, Hhigh.
Qed.

Lemma units_scaled (u : Z) : (u # 2 ^ 1074) * inject_Z (2 ^ 1074) == inject_Z u.
Proof.
  unfold Qeq, Qmult. cbn [Qnum Qden inject_Z]. rewrite Pos.mul_1_r, Pos2Z.inj_pow. lia.
Qed.

(** A double is its own nearest double. *)
Lemma to_double_idempotent (q r : Q) : to_double q = Finite r -> to_double r = Finite r.
Proof.
  assert (Hmag : forall negative x,
            0 <= x -> round_magnitude negative x = Finite r -> to_double r = Finite r).
  { intros negative x Hx Hr. unfold round_magnitude in Hr.
    pose proof (round_units_form _ (scaled_nonneg x Hx)) as (m & Hform & Hm).
    pose proof (dropped_bits_nonneg (x * inject_Z (2 ^ 1074))) as Hs.
    set (u := round_units (x * inject_Z (2 ^ 1074))) in *.
    set (s := dropped_bits (x * inject_Z (2 ^ 1074))) in *.
    assert (Hu : (0 <= u)%Z).
    { rewrite Hform. apply Z.mul_nonneg_nonneg; [lia | apply Z.pow_nonneg; lia]. }
    destruct (Z.leb_spec (2 ^ 2098) u) as [Hover | Hfits]; [discriminate |].
    assert (Hexact : round_units (inject_Z u) = u).
    { rewrite Hform. apply round_units_exact; lia. }
    assert (Hpositive : to_double (u # 2 ^ 1074) = Finite (Qred (u # 2 ^ 1074))).
    { unfold to_double.
      assert (Hsign : Qle_bool 0 (Qred (u # 2 ^ 1074)) = true).
      { apply Qle_bool_iff. rewrite Qred_correct. unfold Qle. cbn [Qnum Qden]. lia. }
      rewrite Hsign. unfold round_magnitude.
      rewrite (round_units_comp _ (inject_Z u))
        by (rewrite Qred_correct; apply units_scaled).
      rewrite Hexact. destruct (Z.leb_spec (2 ^ 2098) u); [lia | reflexivity]. }
    injection Hr as <-. rewrite (to_double_comp _ _ (Qred_correct _)).
    destruct negative; [| exact Hpositive].
    destruct (Z.eq_dec u 0%Z) as [Hzero | Hnonzero].
    - rewrite Hzero in *. exact Hpositive.
    - unfold to_double.
      assert (Hsign : Qle_bool 0 (Qred (- u # 2 ^ 1074)) = false).
      { destruct (Qle_bool 0 (Qred (- u # 2 ^ 1074))) eqn:Hle; [| reflexivity].
        apply Qle_bool_iff in Hle. rewrite Qred_correct in Hle.
        unfold Qle in Hle. cbn [Qnum Qden] in Hle. lia. }
      rewrite Hsign. unfold round_magnitude.
      rewrite (round_units_comp _ (inject_Z u)).
      + rewrite Hexact. destruct (Z.leb_spec (2 ^ 2098) u); [lia | reflexivity].
      + rewrite Qred_correct. rewrite <- (units_scaled u).
        apply Qmult_comp; [| reflexivity]. unfold Qeq, Qopp. cbn [Qnum Qden]. lia. }
  unfold to_double. destruct (Qle_bool 0 (Qred q)) eqn:Hsign.
  - apply Hmag. apply Qle_bool_iff, Hsign.
  - apply Hmag. destruct (Qlt_le_dec (Qred q) 0) as [Hlt | Hge]; [lra |].
    apply Qle_bool_iff in Hge. congruence.
Qed.

(** *** Numbers that are not negative *)

Lemma to_double_zero : to_double 0 = Finite 0.
Proof. apply (to_double_whole 0). lia. Qed.

Lemma to_double_nonneg (q : Q) : 0 <= q -> le (Finite 0) (to_double q).
Proof. intros Hq. rewrite <- to_double_zero. apply to_double_monotone, Hq. Qed.

Lemma positive_sign (y : Q) : 0 < y -> Qeq_bool y 0 = false /\ negative_of y = false.
Proof.
  intros Hy. split.
  - destruct (Qeq_bool y 0) eqn:Heq; [| reflexivity].
    apply Qeq_bool_iff in Heq. lra.
  - unfold negative_of. assert (Hle : 0 <= y) by lra.
    apply Qle_bool_iff in Hle. rewrite Hle. reflexivity.
Qed.

Lemma mul_nonneg (a : Number) (y : Q) :
  le (Finite 0) a -> 0 < y -> le (Finite 0) (mul a (Finite y)).
Proof.
  intros Ha Hy. destruct (positive_sign y Hy) as [Hzero Hsign].
  destruct a as [x | [|] |]; cbn [le] in Ha; try contradiction; cbn [mul].
  - apply to_double_nonneg. apply Qmult_le_0_compat; lra.
  - rewrite Hzero, Hsign. exact I.
Qed.

Lemma div_nonneg (a : Number) (y : Q) :
  le (Finite 0) a -> 0 < y -> le (Finite 0) (div a (Finite y)).
Proof.
  intros Ha Hy. destruct (positive_sign y Hy) as [Hzero Hsign].
  destruct a as [x | [|] |]; cbn [le] in Ha; try contradiction; cbn [div].
  - rewrite Hzero. apply to_double_nonneg. apply Qle_shift_div_l; lra.
  - rewrite Hsign. exact I.
Qed.

Lemma Qmin_first (x y : Q) : x <= y -> Qmin x y = x.
Proof.
  intros Hxy. unfold Qmin, GenericMinMax.gmin.
  destruct (Qcompare_spec x y) as [Heq | Hlt | Hgt]; try reflexivity. exfalso. lra.
Qed.

Lemma Qmin_second (x y : Q) : y < x -> Qmin x y = y.
Proof.
  intros Hxy. unfold Qmin, GenericMinMax.gmin.
  destruct (Qcompare_spec x y) as [Heq | Hlt | Hgt]; try reflexivity; exfalso; lra.
Qed.

(** [Math.min(Math.round(a), 100)] of a number that is not negative is a
    whole number from 0 to 100. *)
Lemma capped_percentage (a : Number) :
  le (Finite 0) a ->
  exists k, Math_min (Math_round a) (Finite 100) = Finite (inject_Z k) /\ (0 <= k <= 100)%Z.
Proof.
  intros Ha. destruct a as [x | [|] |]; cbn [le] in Ha; try contradiction;
    cbn [Math_round Math_min].
  - assert (Hk : (0 <= Qfloor (x + (1 # 2)))%Z).
    { change 0%Z with (Qfloor 0). apply Qfloor_resp_le. lra. }
    set (k := Qfloor (x + (1 # 2))) in *.
    destruct (Z.le_gt_cases k 100) as [Hle | Hgt].
    + exists k. split; [| lia]. f_equal. apply Qmin_first.
      change 100 with (inject_Z 100). rewrite <- Zle_Qle. exact Hle.
    + exists 100%Z. split; [| lia]. f_equal. apply Qmin_second.
      change 100 with (inject_Z 100). rewrite <- Zlt_Qlt. lia.
  - exists 100%Z. split; [reflexivity | lia].
Qed.

(** *** Agreement with the library's binary64 *)

(** On the operands of the examples below, rounding a literal, adding,
    multiplying and dividing give what the standard library's
    specification of binary64 arithmetic ([SFadd], [SFmul], [SFdiv] at
    precision 53 and exponent bound 1024) gives. *)
Example agrees_with_the_library :
  let tenth := S754_finite false 7205759403792794 (-56) in
  let fifth := S754_finite false 7205759403792794 (-55) in
  let reading1 := S754_finite false 8486470547826278 (-47) in
  let reading2 := S754_finite false 4792111478498918 (-46) in
  let reading3 := S754_finite false 5636536408630886 (-46) in
  let three := S754_finite false 6755399441055744 (-51) in
  let steps := S754_finite false 6377167441100800 (-42) in
  let goal := S754_finite false 5497558138880000 (-39) in
  let hundred := S754_finite false 7036874417766400 (-46) in
  let large := S754_finite false 6261526606686986 (-1) in
  to_double (1 # 10) = of_spec tenth /\
  to_double (603 # 10) = of_spec reading1 /\
  to_double (681 # 10) = of_spec reading2 /\
  to_double (801 # 10) = of_spec reading3 /\
  to_double 3130763303343493 = of_spec large /\
  add (of_spec tenth) (of_spec fifth) = of_spec (SFadd 53 1024 tenth fifth) /\
  add (add (of_spec reading1) (of_spec reading2)) (of_spec reading3) =
    of_spec (SFadd 53 1024 (SFadd 53 1024 reading1 reading2) reading3) /\
  div (add (add (of_spec reading1) (of_spec reading2)) (of_spec reading3)) (of_spec three) =
    of_spec (SFdiv 53 1024 (SFadd 53 1024 (SFadd 53 1024 reading1 reading2) reading3)
               three) /\
  mul (div (of_spec steps) (of_spec goal)) (of_spec hundred) =
    of_spec (SFmul 53 1024 (SFdiv 53 1024 steps goal) hundred) /\
  div (add (add (of_spec large) (of_spec large)) (of_spec large)) (of_spec three) =
    of_spec (SFdiv 53 1024 (SFadd 53 1024 (SFadd 53 1024 large large) large) three).
Proof.
  cbn zeta. repeat match goal with |- _ /\ _ => split end; vm_compute; reflexivity.
Qed.

(** Landmarks of the format: the largest double and the tie above it, the
    smallest double and the tie below it, and the first whole number that
    is no double. *)
Example landmarks :
  to_double (inject_Z (2 ^ 1024 - 2 ^ 971)) = Finite (inject_Z (2 ^ 1024 - 2 ^ 971)) /\
  to_double (inject_Z (2 ^ 1024 - 2 ^ 970 - 1)) = Finite (inject_Z (2 ^ 1024 - 2 ^ 971)) /\
  to_double (inject_Z (2 ^ 1024 - 2 ^ 970)) = Infinity false /\
  to_double (- inject_Z (2 ^ 1024 - 2 ^ 970)) = Infinity true /\
  to_double (1 # 2 ^ 1074) = Finite (1 # 2 ^ 1074) /\
  to_double (1 # 2 ^ 1075) = Finite 0 /\
  to_double (3 # 2 ^ 1076) = Finite (1 # 2 ^ 1074) /\
  to_double (inject_Z (2 ^ 53 + 1)) = Finite (inject_Z (2 ^ 53)) /\
  to_double (inject_Z (2 ^ 53 + 3)) = Finite (inject_Z (2 ^ 53 + 4)).
Proof. repeat match goal with |- _ /\ _ => split end; vm_compute; reflexivity. Qed.

End Float64Facts.

(** ** Properties of the statistics of the heart-rate panel *)

Module StatsMore.
Import HeartRate Float64Facts.

Local Open Scope Q_scope.

Lemma Qmin_cases (a b : Q) : Qmin a b = a \/ Qmin a b = b.
Proof. unfold Qmin, GenericMinMax.gmin. destruct (a ?= b); auto. Qed.

Lemma Qmax_cases (a b : Q) : Qmax a b = a \/ Qmax a b = b.
Proof. unfold Qmax, GenericMinMax.gmax. destruct (a ?= b); auto. Qed.

Lemma fold_min_below (values : list Q) : forall v,
  fold_left Qmin values v <= v /\ Forall (fun x => fold_left Qmin values v <= x) values.
Proof.
  induction values as [| a values IH]; intros v; cbn [fold_left].
  - split; [lra | constructor].
  - destruct (IH (Qmin v a)) as [Hinit Hall].
    pose proof (Q.le_min_l v a). pose proof (Q.le_min_r v a).
    split; [lra |]. constructor; [lra | exact Hall].
Qed.

Lemma fold_max_above (values : list Q) : forall v,
  v <= fold_left Qmax values v /\ Forall (fun x => x <= fold_left Qmax values v) values.
Proof.
  induction values as [| a values IH]; intros v; cbn [fold_left].
  - split; [lra | constructor].
  - destruct (IH (Qmax v a)) as [Hinit Hall].
    pose proof (Q.le_max_l v a). pose proof (Q.le_max_r v a).
    split; [lra |]. constructor; [lra | exact Hall].
Qed.

Lemma fold_min_attained (values : list Q) : forall v,
  In (fold_left Qmin values v) (v :: values).
Proof.
  induction values as [| a values IH]; intros v; cbn [fold_left].
  - left. reflexivity.
  - destruct (IH (Qmin v a)) as [Hhead | Htail].
    + destruct (Qmin_cases v a) as [Hv | Ha].
      * left. congruence.
      * right. left. congruence.
    + right. right. exact Htail.
Qed.

Lemma fold_max_attained (values : list Q) : forall v,
  In (fold_left Qmax values v) (v :: values).
Proof.
  induction values as [| a values IH]; intros v; cbn [fold_left].
  - left. reflexivity.
  - destruct (IH (Qmax v a)) as [Hhead | Htail].
    + destruct (Qmax_cases v a) as [Hv | Ha].
      * left. congruence.
      * right. left. congruence.
    + right. right. exact Htail.
Qed.

(** X17. The minimum and the maximum of a series that is not empty are values
    of the series, and every value of the series lies between them. *)
Theorem min_max_bound_the_series (first : Sample) (rest : list Sample) :
  let data := first :: rest in
  let found := calculateMinMaxHeartRate (Some data) in
  In (min found) (map once_heart_value data) /\
  In (max found) (map once_heart_value data) /\
  Forall (fun item => min found <= once_heart_value item /\
                      once_heart_value item <= max found) data.
Proof.
  cbn zeta. cbn [calculateMinMaxHeartRate min max map].
  split; [apply fold_min_attained | split; [apply fold_max_attained |]].
  destruct (fold_min_below (map once_heart_value rest) (once_heart_value first))
    as [Hmin_first Hmin_rest].
  destruct (fold_max_above (map once_heart_value rest) (once_heart_value first))
    as [Hmax_first Hmax_rest].
  constructor; [split; assumption |].
  rewrite Forall_map in Hmin_rest, Hmax_rest.
  rewrite Forall_forall in *. intros item Hitem. split; auto.
Qed.

(** *** The average *)

Lemma whole_reading (limit z : Z) (v : Q) :
  v == inject_Z z -> (0 <= z <= limit)%Z -> (limit <= 2 ^ 53)%Z ->
  Float64.to_double v = Float64.Finite (inject_Z z).
Proof.
  intros Hv Hz Hlimit. rewrite (to_double_comp _ _ Hv). apply to_double_whole. lia.
Qed.

(** The sum of whole readings, as long as it stays within 53 bits, is
    computed without any rounding. *)
Lemma sum_of_whole (limit : Z) (lo hi : Q) (items : list Sample) : forall a : Z,
  (0 <= a)%Z ->
  Forall (fun item => Float64.whole 0 limit (once_heart_value item) /\
                      lo <= once_heart_value item /\ once_heart_value item <= hi) items ->
  (a + Z.of_nat (length items) * limit <= 2 ^ 53)%Z ->
  exists total : Z,
    fold_left (fun acc item =>
                 Float64.add acc (Float64.to_double (once_heart_value item)))
              items (Float64.Finite (inject_Z a)) = Float64.Finite (inject_Z total) /\
    inject_Z a + inject_Z (Z.of_nat (length items)) * lo <= inject_Z total /\
    inject_Z total <= inject_Z a + inject_Z (Z.of_nat (length items)) * hi.
Proof.
  induction items as [| item items IH]; intros a Ha Hall Hfits; cbn [fold_left length] in *.
  - exists a. split; [reflexivity |]. change (inject_Z (Z.of_nat 0)) with 0. lra.
  - inversion Hall as [| ? ? [(z & Hz & Hrange) [Hlo Hhi]] Hrest]; subst.
    rewrite Nat2Z.inj_succ, <- Z.add_1_r in *.
    assert (Hmany : (0 <= Z.of_nat (length items) * limit)%Z)
      by (apply Z.mul_nonneg_nonneg; lia).
    rewrite (whole_reading limit z) by (assumption || lia).
    cbn [Float64.add]. rewrite <- inject_Z_plus.
    rewrite (to_double_whole (a + z)) by lia.
    destruct (IH (a + z)%Z ltac:(lia) Hrest ltac:(lia)) as (total & Hsum & Hlow & Hhigh).
    exists total. split; [exact Hsum |].
    rewrite inject_Z_plus in Hlow, Hhigh. rewrite <- Hz in Hlow, Hhigh.
    rewrite inject_Z_plus. change (inject_Z 1) with 1. split; lra.
Qed.

(** X18. The average of whole readings.  For a series that is not empty, of
    readings that are whole numbers from 0 to some limit, few enough for
    their sum to stay within 53 bits, the average is a whole number that
    lies between the minimum and the maximum of the series. *)
Theorem average_between_min_and_max (first : Sample) (rest : list Sample) (limit : Z) :
  let data := first :: rest in
  let found := calculateMinMaxHeartRate (Some data) in
  Forall (fun item => Float64.whole 0 limit (once_heart_value item)) data ->
  (Z.of_nat (length data) * limit <= 2 ^ 53)%Z ->
  exists average : Z,
    calculateAverageHeartRate (Some data) = Float64.Finite (inject_Z average) /\
    min found <= inject_Z average /\ inject_Z average <= max found.
Proof.
  intros data found Hwhole Hfits.
  assert (Hbounds : Forall (fun item => min found <= once_heart_value item /\
                                        once_heart_value item <= max found) data).
  { unfold found, data. cbn [calculateMinMaxHeartRate min max].
    destruct (fold_min_below (map once_heart_value rest) (once_heart_value first))
      as [Hmin_first Hmin_rest].
    destruct (fold_max_above (map once_heart_value rest) (once_heart_value first))
      as [Hmax_first Hmax_rest].
    constructor; [split; assumption |].
    rewrite Forall_map in Hmin_rest, Hmax_rest.
    rewrite Forall_forall in *. intros item Hitem. split; auto. }
  assert (Hattained : forall v, In v (map once_heart_value data) -> Float64.whole 0 limit v).
  { intros v Hv. apply in_map_iff in Hv as (item & <- & Hitem).
    rewrite Forall_forall in Hwhole. apply Hwhole. apply list_elem_of_In, Hitem. }
  destruct (Hattained (min found)) as (zmin & Hmin & Hzmin).
  { unfold found, data. cbn [calculateMinMaxHeartRate min map]. apply fold_min_attained. }
  destruct (Hattained (max found)) as (zmax & Hmax & Hzmax).
  { unfold found, data. cbn [calculateMinMaxHeartRate max map]. apply fold_max_attained. }
  assert (Hlength : (1 <= Z.of_nat (length data))%Z) by (cbn [data length]; lia).
  assert (Hlimit : (0 <= limit <= 2 ^ 53)%Z) by nia.
  destruct (sum_of_whole limit (min found) (max found) data 0 ltac:(lia)) as
    (total & Hsum & Hlow & Hhigh).
  { rewrite Forall_forall in *. intros item Hitem. split; [apply Hwhole | apply Hbounds];
      exact Hitem. }
  { lia. }
  set (n := inject_Z (Z.of_nat (length data))) in *.
  assert (Hn : 0 < n).
  { unfold n. change 0 with (inject_Z 0). rewrite <- Zlt_Qlt. lia. }
  rewrite Hmin in Hlow. rewrite Hmax in Hhigh.
  change (inject_Z 0) with 0 in Hlow, Hhigh.
  destruct (to_double_between_whole zmin zmax (inject_Z total / n))
    as (mean & Hmean & Hmean_low & Hmean_high); [lia | lia | | |].
  { apply Qle_shift_div_l; [exact Hn | lra]. }
  { apply Qle_shift_div_r; [exact Hn | lra]. }
  destruct (Math_round_between zmin zmax mean Hmean_low Hmean_high) as (k & Hround & Hk).
  exists k. split.
  - unfold calculateAverageHeartRate. fold data. cbn [data].
    change (first :: rest) with data. change (Float64.Finite 0) with (Float64.Finite (inject_Z 0)).
    rewrite Hsum. fold n. cbn [Float64.div].
    destruct (positive_sign n Hn) as [-> _]. rewrite Hmean. exact Hround.
  - rewrite Hmin, Hmax, <- !Zle_Qle. lia.
Qed.

(** The average of three readings that are no whole numbers: the sum
    60.3 + 68.1 + 80.1 is rounded three times, to a double just below
    208.5, and the average is 69, where the exact mean 69.5 would give
    70. *)
Example average_of_fractions :
  calculateAverageHeartRate
    (Some [ {| date := "2026-01-01T08:00:00Z"; once_heart_value := 603 # 10 |};
            {| date := "2026-01-01T09:00:00Z"; once_heart_value := 681 # 10 |};
            {| date := "2026-01-02T08:00:00Z"; once_heart_value := 801 # 10 |} ]) =
  Float64.Finite 69.
Proof. vm_compute. reflexivity. Qed.

(** Three readings of 3130763303343493, which is a double: their sum is
    rounded to an even significand, and the average comes out one above
    the readings.  The limit on the sum cannot be dropped. *)
Example average_above_the_maximum :
  calculateAverageHeartRate
    (Some [ {| date := ""; once_heart_value := 3130763303343493 |};
            {| date := ""; once_heart_value := 3130763303343493 |};
            {| date := ""; once_heart_value := 3130763303343493 |} ]) =
  Float64.Finite 3130763303343494.
Proof. vm_compute. reflexivity. Qed.

Lemma average_between_min_and_max_witness :
  exists average : Z,
    calculateAverageHeartRate (Some (Examples.hr_morning :: [Examples.hr_later])) =
      Float64.Finite (inject_Z average) /\
    72 <= inject_Z average /\ inject_Z average <= 80.
Proof.
  apply (average_between_min_and_max Examples.hr_morning [Examples.hr_later] 300).
  - repeat constructor; [exists 72%Z | exists 80%Z]; split; (reflexivity || lia).
  - cbn. lia.
Defined.

(** *** The Y axis of the chart *)

(** X19. The domain of the Y axis starts between 40 and 60 and ends between 120
    and 200, whatever the series is.  It reaches down to the lowest reading
    exactly when that reading is at least 40, and up to the highest exactly
    when that one is at most 200: readings outside 40-200 fall off the
    chart. *)
Theorem y_axis_domain (data : option (list Sample)) :
  let found := calculateMinMaxHeartRate data in
  40 <= yMin data /\ yMin data <= 60 /\
  120 <= yMax data /\ yMax data <= 200 /\
  (yMin data <= min found <-> 40 <= min found) /\
  (max found <= yMax data <-> max found <= 200).
Proof.
  intros found. unfold yMin, yMax. fold found.
  destruct (Q.max_spec 40 (Qmin 60 (min found - 10))) as [[? Hmax] | [? Hmax]];
    destruct (Q.min_spec 60 (min found - 10)) as [[? Hmin] | [? Hmin]];
    destruct (Q.min_spec 200 (Qmax 120 (max found + 10))) as [[? Hmin'] | [? Hmin']];
    destruct (Q.max_spec 120 (max found + 10)) as [[? Hmax'] | [? Hmax']];
    rewrite ?Hmax, ?Hmin in *; rewrite ?Hmin', ?Hmax' in *;
    repeat split; intros; lra.
Qed.

(** *** The status of a reading *)

Lemma Qle_bool_false (x y : Q) : Qle_bool x y = false -> y < x.
Proof.
  intros Hle. apply Qnot_le_lt. intros Hxy. apply Qle_bool_iff in Hxy. congruence.
Qed.

(** X20. The bands of [getHeartRateStatus]: Normal from 60 to 100, Elevated from
    50 to below 60 and from above 100 to 120, Low below 50, High above
    120. *)
Theorem heart_rate_status_bands (value : Q) :
  (status (getHeartRateStatus value) = "Normal"%string <-> 60 <= value /\ value <= 100) /\
  (status (getHeartRateStatus value) = "Elevated"%string <->
     (50 <= value /\ value < 60) \/ (100 < value /\ value <= 120)) /\
  (status (getHeartRateStatus value) = "Low"%string <-> value < 50) /\
  (status (getHeartRateStatus value) = "High"%string <-> 120 < value).
Proof.
  unfold getHeartRateStatus.
  destruct (Qle_bool 60 value) eqn:H60; destruct (Qle_bool value 100) eqn:H100;
    destruct (Qle_bool 50 value) eqn:H50; destruct (Qle_bool value 120) eqn:H120;
    cbn [andb negb status];
    repeat match goal with
           | H : Qle_bool _ _ = true |- _ => apply Qle_bool_iff in H
           | H : Qle_bool _ _ = false |- _ => apply Qle_bool_false in H
           end;
    repeat split; intros; try discriminate; try lra;
    repeat match goal with
           | H : _ /\ _ |- _ => destruct H
           | H : _ \/ _ |- _ => destruct H
           end; try lra.
Qed.

End StatsMore.

(** ** Properties of the heart-rate panel *)

Module PanelFacts.
Import Js Dates Shared HeartRate.

Lemma current_aborted_refs p q : refs p = refs q -> current_aborted p = current_aborted q.
Proof. unfold refs, current_aborted. intros [= -> -> _]. reflexivity. Qed.

Lemma mounted_refs p q : refs p = refs q -> isMountedRef p = isMountedRef q.
Proof. unfold refs. intros [= _ _ ->]. reflexivity. Qed.

Lemma on_catch_refs e p : refs (on_catch e p) = refs p.
Proof. unfold on_catch. repeat case_match; reflexivity. Qed.

Lemma on_finally_refs p : refs (on_finally p) = refs p.
Proof. unfold on_finally. repeat case_match; reflexivity. Qed.

Section Panel.
Context `{Runtime}.

Lemma resume_refs pending outcome now p : refs (resume pending outcome now p) = refs p.
Proof.
  unfold resume.
  repeat case_match; rewrite ?on_finally_refs, ?on_catch_refs; reflexivity.
Qed.

(** A fetch leaves a controller of its own in the ref, not aborted. *)
Lemma fetch_controller props now p :
  current_aborted (fst (fetchHeartRateData props now p)) = Some false /\
  isMountedRef (fst (fetchHeartRateData props now p)) = isMountedRef p.
Proof.
  assert (Hrefs : refs (fst (fetchHeartRateData props now p)) =
                  refs (new_controller (abort_current p))).
  { unfold fetchHeartRateData.
    repeat case_match; cbn [fst]; rewrite ?on_finally_refs, ?on_catch_refs; reflexivity. }
  split.
  - rewrite (current_aborted_refs _ _ Hrefs).
    unfold current_aborted, new_controller. cbn [abortControllerRef controllers].
    rewrite lookup_app_r by lia. rewrite Nat.sub_diag. reflexivity.
  - rewrite (mounted_refs _ _ Hrefs). unfold abort_current. case_match; reflexivity.
Qed.

(** *** The controller of a mounted panel *)

Lemma steady_start sys props now p :
  let r := fetchHeartRateData props now p in
  steady (start sys r).
Proof.
  cbn zeta. destruct (fetch_controller props now p) as [Hc _].
  destruct (fetchHeartRateData props now p) as [p' [pending |]]; cbn [fst] in Hc;
    unfold steady, start; cbn [panel inflight]; rewrite Hc; split; intros; eauto; discriminate.
Qed.

Lemma steady_step sys ev : steady sys -> steady (step sys ev).
Proof.
  intros [Hmounted Hflight]. destruct ev as [props now | | props now | i outcome now];
    cbn [step].
  - apply steady_start.
  - unfold steady, cleanup. cbn [panel inflight]. split.
    + unfold abort_current. case_match; cbn; discriminate.
    + intros Hne. destruct (Hflight Hne) as [aborted Hc].
      unfold current_aborted, abort_current, set_mounted in *.
      cbn [abortControllerRef controllers] in *.
      destruct (abortControllerRef (panel sys)) as [c |]; [| discriminate].
      cbn [abortControllerRef controllers].
      apply lookup_lt_Some in Hc.
      rewrite list_lookup_insert_eq by assumption. eauto.
  - apply steady_start.
  - destruct (inflight sys !! i) as [pending |] eqn:Hi; [| split; assumption].
    unfold steady. cbn [panel inflight].
    rewrite (current_aborted_refs _ _ (resume_refs pending outcome now (panel sys))).
    rewrite (mounted_refs _ _ (resume_refs pending outcome now (panel sys))).
    split; [assumption |]. intros _. apply Hflight.
    intros Hnil. rewrite Hnil in Hi. discriminate.
Qed.

Lemma run_snoc events ev sys : run (events ++ [ev]) sys = step (run events sys) ev.
Proof. unfold run. rewrite fold_left_app. reflexivity. Qed.

Lemma steady_run events : steady (run events boot).
Proof.
  induction events as [| ev events IH] using rev_ind.
  - split; [discriminate | intros []; reflexivity].
  - rewrite run_snoc. apply steady_step, IH.
Qed.

(** A mounted panel with a request in flight holds a live controller. *)
Lemma live_controller events i pending :
  inflight (run events boot) !! i = Some pending ->
  isMountedRef (panel (run events boot)) = true ->
  current_aborted (panel (run events boot)) = Some false.
Proof.
  intros Hi Hmounted. destruct (steady_run events) as [Hlive Hflight].
  destruct Hflight as [aborted Hc].
  - intros Hnil. rewrite Hnil in Hi. discriminate.
  - destruct aborted; [| exact Hc]. exfalso. apply (Hlive Hmounted Hc).
Qed.

(** *** What a settled request does to the panel *)

Lemma resume_failure pending e now p :
  isMountedRef p = true ->
  is_abort e = false ->
  current_aborted p = Some false ->
  resume pending (Throw e) now p = setLoading false (setError (Some failure_message) p).
Proof.
  intros Hmounted Habort Hc. unfold resume, on_catch. rewrite Habort, Hmounted.
  cbn [orb negb]. unfold on_finally.
  rewrite (current_aborted_refs (setError (Some failure_message) p) p eq_refl), Hc.
  cbn [isMountedRef setError]. rewrite Hmounted. reflexivity.
Qed.


Lemma resume_records pending first rest now p :
  isMountedRef p = true ->
  current_aborted p = Some false ->
  resume pending (Ok (first :: rest)) now p =
  setLoading false
    (onHeartRateDataUpdate (sort date (first :: rest))
       (setHeartRateData (sort date (first :: rest))
          (set_cache (Cache.put (cacheKey pending) (sort date (first :: rest)) now
                        (cacheRef p)) p))).
Proof.
  intros Hmounted Hc. unfold resume. rewrite Hmounted, Hc. cbn [negb].
  cbn [isMountedRef set_cache]. rewrite Hmounted. unfold on_finally.
  match goal with
  | |- context [current_aborted ?q] =>
      rewrite (current_aborted_refs q p eq_refl), Hc
  end.
  cbn [isMountedRef onHeartRateDataUpdate setHeartRateData set_cache].
  rewrite Hmounted. reflexivity.
Qed.

(** A fetch whose key has a fresh entry returns without the network, and a
    mounted panel then holds the cached series. *)
Lemma fetch_hit props pending cached now p :
  resolve props = Ok pending ->
  Cache.get (cacheKey pending) now (cacheRef p) = Some cached ->
  snd (fetchHeartRateData props now p) = None /\
  (isMountedRef p = true ->
   heartRateData (fst (fetchHeartRateData props now p)) = cached).
Proof.
  intros Hresolve Hget. unfold fetchHeartRateData. rewrite Hresolve.
  cbn [cacheRef setError setLoading new_controller].
  replace (cacheRef (abort_current p)) with (cacheRef p)
    by (unfold abort_current; case_match; reflexivity).
  rewrite Hget. cbn [fst snd]. split; [reflexivity |]. intros Hmounted.
  cbn [isMountedRef setError setLoading new_controller].
  replace (isMountedRef (abort_current p)) with true
    by (unfold abort_current; case_match; cbn; congruence).
  unfold on_finally. case_match; reflexivity.
Qed.

(** A fetch whose key has no fresh entry awaits the network. *)
Lemma fetch_miss props pending now p :
  resolve props = Ok pending ->
  Cache.get (cacheKey pending) now (cacheRef p) = None ->
  snd (fetchHeartRateData props now p) = Some pending.
Proof.
  intros Hresolve Hget. unfold fetchHeartRateData. rewrite Hresolve.
  cbn [cacheRef setError setLoading new_controller].
  replace (cacheRef (abort_current p)) with (cacheRef p)
    by (unfold abort_current; case_match; reflexivity).
  rewrite Hget. reflexivity.
Qed.

(** *** Where the series handed to the parent come from *)

Lemma on_catch_store e p :
  updates (on_catch e p) = updates p /\ cacheRef (on_catch e p) = cacheRef p.
Proof. unfold on_catch. repeat case_match; split; reflexivity. Qed.

Lemma on_finally_store p :
  updates (on_finally p) = updates p /\ cacheRef (on_finally p) = cacheRef p.
Proof. unfold on_finally. repeat case_match; split; reflexivity. Qed.

Lemma abort_current_store p :
  updates (abort_current p) = updates p /\ cacheRef (abort_current p) = cacheRef p.
Proof. unfold abort_current. case_match; split; reflexivity. Qed.

Lemma get_entry {A : Type} key now (cache : gmap string (Cache.Entry A)) payload :
  Cache.get key now cache = Some payload ->
  exists entry, cache !! key = Some entry /\ Cache.data entry = payload.
Proof.
  unfold Cache.get. destruct (cache !! key) as [entry |]; [| discriminate].
  case_match; [| discriminate]. intros [= <-]. eauto.
Qed.

(** A fetch writes nothing to the cache, and hands the parent at most a
    series it found there. *)
Lemma fetch_store props now p :
  cacheRef (fst (fetchHeartRateData props now p)) = cacheRef p /\
  (updates (fst (fetchHeartRateData props now p)) = updates p \/
   exists entry key, cacheRef p !! key = Some entry /\
     updates (fst (fetchHeartRateData props now p)) = updates p ++ [Cache.data entry]).
Proof.
  destruct (abort_current_store p) as [Hu Hc].
  unfold fetchHeartRateData. destruct (resolve props) as [pending | e]; cbn [fst].
  - cbn [cacheRef setError setLoading new_controller]. rewrite Hc.
    destruct (Cache.get (cacheKey pending) now (cacheRef p)) as [cached |] eqn:Hget; cbn [fst].
    + destruct (on_finally_store
                  (if isMountedRef (setError None (setLoading true (new_controller (abort_current p))))
                   then setLoading false (onHeartRateDataUpdate cached (setHeartRateData cached
                          (setError None (setLoading true (new_controller (abort_current p))))))
                   else setError None (setLoading true (new_controller (abort_current p)))))
        as [-> ->].
      apply get_entry in Hget as (entry & Hentry & <-).
      case_match; cbn; rewrite ?Hu, ?Hc; (split; [reflexivity |]); eauto 6.
    + cbn. rewrite Hu, Hc. eauto.
  - destruct (on_finally_store (on_catch e (setError None (setLoading true
                (new_controller (abort_current p)))))) as [-> ->].
    destruct (on_catch_store e (setError None (setLoading true
                (new_controller (abort_current p))))) as [-> ->].
    cbn. rewrite Hu, Hc. eauto.
Qed.

(** A settled request hands the parent nothing, or, when it settled with
    success, its sorted result, which it also puts in the cache unless it
    is empty. *)
Lemma resume_store pending outcome now p :
  (updates (resume pending outcome now p) = updates p /\
   cacheRef (resume pending outcome now p) = cacheRef p) \/
  (outcome = Ok [] /\
   updates (resume pending outcome now p) = updates p ++ [[]] /\
   cacheRef (resume pending outcome now p) = cacheRef p) \/
  (exists data, outcome = Ok data /\
     updates (resume pending outcome now p) = updates p ++ [sort date data] /\
     cacheRef (resume pending outcome now p) =
       Cache.put (cacheKey pending) (sort date data) now (cacheRef p)).
Proof.
  unfold resume.
  repeat case_match;
    repeat match goal with
           | |- context [on_finally ?q] =>
               destruct (on_finally_store q) as [-> ->]
           | |- context [on_catch ?e ?q] =>
               destruct (on_catch_store e q) as [-> ->]
           end;
    cbn [updates cacheRef onHeartRateDataUpdate setHeartRateData set_cache];
    eauto 8.
  (* the panel is mounted, so the guarded update is not skipped *)
  exfalso. cbn [isMountedRef set_cache] in *.
  destruct (isMountedRef p); discriminate.
Qed.

Lemma successes_app events : forall more sys,
  successes (events ++ more) sys = successes events sys ++ successes more (run events sys).
Proof.
  induction events as [| ev events IH]; intros more sys; [reflexivity |].
  cbn [app successes]. rewrite IH, <- app_assoc. reflexivity.
Qed.

Lemma from_success_more events more payload :
  from_success events payload -> from_success (events ++ more) payload.
Proof.
  intros (data & Hin & ->). exists data. split; [| reflexivity].
  rewrite successes_app. apply in_or_app. auto.
Qed.

Lemma sourced_more events more p : sourced events p -> sourced (events ++ more) p.
Proof.
  intros [Hupdates Hcache]. split.
  - eapply Forall_impl; [exact Hupdates |]. intros. apply from_success_more. assumption.
  - intros key entry Hentry. apply from_success_more. eapply Hcache. eassumption.
Qed.

Lemma sourced_store events p q :
  updates q = updates p -> cacheRef q = cacheRef p -> sourced events p -> sourced events q.
Proof. unfold sourced. intros -> ->. trivial. Qed.

Lemma sourced_fetch events props now p :
  sourced events p -> sourced events (fst (fetchHeartRateData props now p)).
Proof.
  intros [Hupdates Hcache]. destruct (fetch_store props now p) as [Hc Hu].
  split.
  - destruct Hu as [-> | (entry & key & Hentry & ->)]; [assumption |].
    apply Forall_app. split; [assumption |]. constructor; [| constructor].
    eapply Hcache. eassumption.
  - rewrite Hc. assumption.
Qed.

(** The success that a [Settle] of a request in flight adds to the run. *)
Lemma settled_success events i pending data now :
  inflight (run events boot) !! i = Some pending ->
  from_success (events ++ [Settle i (Ok data) now]) (sort date data).
Proof.
  intros Hi. exists data. split; [| reflexivity].
  rewrite successes_app. apply in_or_app. right.
  cbn [successes]. rewrite Hi. left. reflexivity.
Qed.

Lemma sourced_step events ev :
  sourced events (panel (run events boot)) ->
  sourced (events ++ [ev]) (panel (step (run events boot) ev)).
Proof.
  intros Hs. set (sys := run events boot) in *.
  destruct ev as [props now | | props now | i outcome now]; cbn [step].
  - apply sourced_more.
    pose proof (sourced_fetch events props now (set_mounted true (panel sys)) Hs) as Hf.
    unfold effect. destruct (fetchHeartRateData props now _) as [p' [pending |]]; exact Hf.
  - apply sourced_more. unfold cleanup.
    destruct (abort_current_store (set_mounted false (panel sys))) as [Hu Hc].
    eapply sourced_store; [exact Hu | exact Hc | exact Hs].
  - apply sourced_more.
    pose proof (sourced_fetch events props now (panel sys) Hs) as Hf.
    destruct (fetchHeartRateData props now _) as [p' [pending |]]; exact Hf.
  - destruct (inflight sys !! i) as [pending |] eqn:Hi; [| apply sourced_more, Hs].
    cbn [panel].
    destruct (resume_store pending outcome now (panel sys))
      as [[Hu Hc] | [(-> & Hu & Hc) | (data & -> & Hu & Hc)]].
    + apply sourced_more. eapply sourced_store; eassumption.
    + destruct (sourced_more events [Settle i (Ok []) now] _ Hs) as [Hupdates Hcache].
      split; [| rewrite Hc; exact Hcache].
      rewrite Hu. apply Forall_app. split; [exact Hupdates |].
      constructor; [| constructor].
      apply (settled_success events i pending [] now Hi).
    + pose proof (settled_success events i pending data now Hi) as Hnew.
      destruct (sourced_more events [Settle i (Ok data) now] _ Hs) as [Hupdates Hcache].
      split.
      * rewrite Hu. apply Forall_app. split; [exact Hupdates |].
        constructor; [exact Hnew | constructor].
      * intros key entry. rewrite Hc. unfold Cache.put.
        destruct (decide (cacheKey pending = key)) as [-> | Hne].
        -- rewrite lookup_insert_eq. intros [= <-]. exact Hnew.
        -- rewrite lookup_insert_ne by assumption. apply Hcache.
Qed.

Lemma sourced_run events : sourced events (panel (run events boot)).
Proof.
  induction events as [| ev events IH] using rev_ind.
  - split; cbn; [constructor | intros key entry Hentry; rewrite lookup_empty in Hentry; discriminate].
  - rewrite run_snoc. apply sourced_step, IH.
Qed.

(** *** When the parent is called *)

(** What [resolve] throws is the [RangeError] of [toISOString], which is
    no abort. *)
Lemma resolve_throws props e : resolve props = Throw e -> is_abort e = false.
Proof.
  unfold resolve, formatDateForAPI. intros Hthrown.
  repeat case_match; simplify_eq; reflexivity.
Qed.

(** A fetch that cannot resolve its dates ends in the [catch]: a mounted
    panel shows the failure, and nothing else of it changes. *)
Lemma fetch_throws props e now p :
  resolve props = Throw e ->
  isMountedRef p = true ->
  fetchHeartRateData props now p =
  (setLoading false (setError (Some failure_message)
     (setError None (setLoading true (new_controller (abort_current p))))), None).
Proof.
  intros Hresolve Hmounted. unfold fetchHeartRateData. rewrite Hresolve.
  assert (Hm : isMountedRef (abort_current p) = true)
    by (unfold abort_current; case_match; cbn; assumption).
  unfold on_catch. rewrite (resolve_throws _ _ Hresolve).
  cbn [isMountedRef setError setLoading new_controller orb negb]. rewrite Hm.
  cbn [negb]. unfold on_finally.
  cbn [isMountedRef setError setLoading new_controller]. rewrite Hm.
  unfold current_aborted.
  cbn [abortControllerRef controllers setError setLoading new_controller].
  rewrite lookup_app_r by lia. rewrite Nat.sub_diag. reflexivity.
Qed.

(** One step calls the parent at most once, and only with the sorted
    result of the request that settles with success in it, or with the
    series that its fetch found fresh in the cache. *)
Lemma step_hands sys ev :
  updates (panel (step sys ev)) = updates (panel sys) \/
  (exists i data now pending,
     ev = Settle i (Ok data) now /\ inflight sys !! i = Some pending /\
     updates (panel (step sys ev)) = updates (panel sys) ++ [sort date data]) \/
  (exists props now pending cached,
     (ev = Effect props now \/ ev = Retry props now) /\
     resolve props = Ok pending /\
     Cache.get (cacheKey pending) now (cacheRef (panel sys)) = Some cached /\
     updates (panel (step sys ev)) = updates (panel sys) ++ [cached]).
Proof.
  assert (Hfetch : forall props now p,
            updates (fst (fetchHeartRateData props now p)) = updates p \/
            exists pending cached,
              resolve props = Ok pending /\
              Cache.get (cacheKey pending) now (cacheRef p) = Some cached /\
              updates (fst (fetchHeartRateData props now p)) = updates p ++ [cached]).
  { intros props now p. destruct (abort_current_store p) as [Hu Hc].
    unfold fetchHeartRateData. destruct (resolve props) as [pending | e]; cbn [fst].
    - cbn [cacheRef setError setLoading new_controller]. rewrite Hc.
      destruct (Cache.get (cacheKey pending) now (cacheRef p)) as [cached |] eqn:Hget;
        cbn [fst].
      + match goal with
        | |- context [on_finally ?q] => destruct (on_finally_store q) as [-> _]
        end.
        case_match; cbn; rewrite Hu; eauto 6.
      + cbn. rewrite Hu. auto.
    - match goal with
      | |- context [on_finally ?q] => destruct (on_finally_store q) as [-> _]
      end.
      match goal with
      | |- context [on_catch ?e ?q] => destruct (on_catch_store e q) as [-> _]
      end.
      cbn. rewrite Hu. auto. }
  destruct ev as [props now | | props now | i outcome now]; cbn [step].
  - unfold effect.
    destruct (Hfetch props now (set_mounted true (panel sys)))
      as [Hu | (pending & cached & Hresolve & Hget & Hu)];
      destruct (fetchHeartRateData props now _) as [p' [awaited |]];
      cbn [start panel fst] in *; eauto 12.
  - left. unfold cleanup. cbn [panel].
    destruct (abort_current_store (set_mounted false (panel sys))) as [-> _]. reflexivity.
  - destruct (Hfetch props now (panel sys))
      as [Hu | (pending & cached & Hresolve & Hget & Hu)];
      destruct (fetchHeartRateData props now _) as [p' [awaited |]];
      cbn [start panel fst] in *; eauto 12.
  - destruct (inflight sys !! i) as [pending |] eqn:Hi; [| left; reflexivity].
    cbn [panel].
    destruct (resume_store pending outcome now (panel sys))
      as [[Hu _] | [(-> & Hu & _) | (data & -> & Hu & _)]]; eauto 12.
Qed.



(** Whichever request in flight settles with records, the newest or one
    that a later fetch has superseded, a mounted panel takes its records. *)
Lemma any_request_applied (events : list Event) (i : nat) (pending : Pending)
    (first : Sample) (rest : list Sample) (now : Z) :
  inflight (run events boot) !! i = Some pending ->
  isMountedRef (panel (run events boot)) = true ->
  heartRateData (panel (run (events ++ [Settle i (Ok (first :: rest)) now]) boot)) =
  sort date (first :: rest).
Proof.
  intros Hi Hmounted. rewrite run_snoc. cbn [step]. rewrite Hi. cbn [panel].
  rewrite resume_records; [reflexivity | assumption |].
  eapply live_controller; eassumption.
Qed.

(** C9. A fetch that fails with an error that is no abort: the panel keeps
    the failure to itself.  When a request of a mounted panel fails, the
    panel shows the error view, which carries the Retry button; the parent
    is not called, and the series and the cache stay as they were.  A click
    on Retry runs the fetch anew, which awaits the network when the cache
    has no fresh entry for its key.  The same holds when the fetch fails
    before it has called the network, on a date of a custom range that is
    invalid: the error view, no call of the parent, no request.  No
    exception leaves the panel: the [try] of [fetchHeartRateData] spans its
    whole body, and [resume] and [fetchHeartRateData] return a panel on
    every input.  The parent is called in two places only, with the sorted
    result of the request that has just settled with success, and with a
    series that a fetch has found fresh in the cache; and so, in every
    run, each series the parent was handed is the sorted result of a
    request that settled with success in that run (the empty series being
    the one of a request that settled with no records). *)
Theorem failure_stays_in_panel (events : list Event) (i : nat) (pending : Pending)
    (e : JsError) (now : Z) :
  inflight (run events boot) !! i = Some pending ->
  isMountedRef (panel (run events boot)) = true ->
  is_abort e = false ->
  let before := panel (run events boot) in
  let after := panel (run (events ++ [Settle i (Throw e) now]) boot) in
  error after = Some failure_message /\
  render after = ViewError failure_message /\
  updates after = updates before /\
  heartRateData after = heartRateData before /\
  cacheRef after = cacheRef before /\
  (forall props later retried,
     resolve props = Ok retried ->
     Cache.get (cacheKey retried) later (cacheRef before) = None ->
     snd (fetchHeartRateData props later after) = Some retried) /\
  (forall trace props later thrown ev,
     resolve props = Throw thrown ->
     ev = Effect props later \/
       (ev = Retry props later /\ isMountedRef (panel (run trace boot)) = true) ->
     let sys := run trace boot in
     let failed := step sys ev in
     render (panel failed) = ViewError failure_message /\
     updates (panel failed) = updates (panel sys) /\
     heartRateData (panel failed) = heartRateData (panel sys) /\
     cacheRef (panel failed) = cacheRef (panel sys) /\
     inflight failed = inflight sys /\
     calls failed = calls sys) /\
  (forall sys ev,
     updates (panel (step sys ev)) = updates (panel sys) \/
     (exists j data later awaited,
        ev = Settle j (Ok data) later /\ inflight sys !! j = Some awaited /\
        updates (panel (step sys ev)) = updates (panel sys) ++ [sort date data]) \/
     (exists props later awaited cached,
        (ev = Effect props later \/ ev = Retry props later) /\
        resolve props = Ok awaited /\
        Cache.get (cacheKey awaited) later (cacheRef (panel sys)) = Some cached /\
        updates (panel (step sys ev)) = updates (panel sys) ++ [cached])) /\
  (forall trace, Forall (from_success trace) (updates (panel (run trace boot)))).
Proof.
  intros Hi Hmounted Habort before after.
  assert (Hafter : after = setLoading false (setError (Some failure_message) before)).
  { unfold after. rewrite run_snoc. cbn [step]. fold before. rewrite Hi. cbn [panel].
    apply resume_failure; [assumption | assumption |].
    eapply live_controller; eassumption. }
  rewrite Hafter.
  split; [reflexivity |]. split; [reflexivity |]. split; [reflexivity |].
  split; [reflexivity |]. split; [reflexivity |].
  split; [| split; [| split]].
  - intros props later retried Hresolve Hget. apply fetch_miss; assumption.
  - intros trace props later thrown ev Hresolve Hev sys failed.
    assert (Hstore : forall p, updates (abort_current p) = updates p /\
                       heartRateData (abort_current p) = heartRateData p /\
                       cacheRef (abort_current p) = cacheRef p).
    { intros p. unfold abort_current. case_match; repeat split; reflexivity. }
    destruct Hev as [-> | [-> Hm]]; unfold failed; cbn [step].
    + unfold effect.
      rewrite (fetch_throws props thrown later (set_mounted true (panel sys)) Hresolve eq_refl).
      cbn [start panel inflight calls]. destruct (Hstore (set_mounted true (panel sys)))
        as (Hu & Hd & Hc).
      repeat split; cbn; assumption.
    + rewrite (fetch_throws props thrown later (panel sys) Hresolve Hm).
      cbn [start panel inflight calls]. destruct (Hstore (panel sys)) as (Hu & Hd & Hc).
      repeat split; cbn; assumption.
  - apply step_hands.
  - intros trace. apply (sourced_run trace).
Qed.

End Panel.

Lemma failure_stays_in_panel_witness :
  error (panel (run (H := Examples.known_dates)
                  ([Effect Examples.today 0] ++
                   [Settle 0 (Throw (Error "Failed to fetch data: 500")) 1000]) boot)) =
    Some failure_message.
Proof.
  apply (failure_stays_in_panel (H := Examples.known_dates)
           [Effect Examples.today 0] 0 Examples.awaiting_today
           (Error "Failed to fetch data: 500") 1000).
  - reflexivity.
  - reflexivity.
  - reflexivity.
Defined.



(** The empty result behind an error.  The request for today is in flight
    when the period is switched to the week; it fails, and the request for
    the week then settles with no records: the panel shows the error of
    the request for today, not "no data". *)
Example empty_result_behind_error :
  let settled :=
    run (H := Examples.known_dates)
      [Settle 0 (Throw (Error "Failed to fetch data: 500")) 2000;
       Settle 0 (Ok []) 3000] Examples.racing in
  inflight settled = [] /\
  heartRateData (panel settled) = [] /\
  render (panel settled) = ViewError failure_message.
Proof. repeat split; vm_compute; reflexivity. Qed.

(** C1 on the code.  The request for today is in flight when the period is
    switched to the week: its controller is aborted and a second request is
    issued.  When the first request then settles, with records or with a
    failure, the panel applies it: it shows the records of today, hands
    them to the parent and stops loading, or it shows the error, while the
    request for the week is still in flight. *)
Lemma superseded_request_applied :
  inflight Examples.racing = [Examples.awaiting_today; Examples.awaiting_week] /\
  controllers (panel Examples.racing) = [true; false] /\
  abortControllerRef (panel Examples.racing) = Some 1 /\
  render (panel Examples.racing) = ViewLoading /\
  (let settled :=
     step (H := Examples.known_dates) Examples.racing
       (Settle 0 (Ok [Examples.hr_morning]) 2000) in
   inflight settled = [Examples.awaiting_week] /\
   heartRateData (panel settled) = [Examples.hr_morning] /\
   updates (panel settled) = [[Examples.hr_morning]] /\
   render (panel settled) = ViewChart [Examples.hr_morning]) /\
  (let failed :=
     step (H := Examples.known_dates) Examples.racing
       (Settle 0 (Throw (Error "Failed to fetch data: 500")) 2000) in
   inflight failed = [Examples.awaiting_week] /\
   render (panel failed) = ViewError failure_message).
Proof. repeat split; vm_compute; reflexivity. Qed.

End PanelFacts.

(** ** More properties of the sort *)

Module SortMore.
Import Dates Shared SortFacts.

Section Sort.
Context `{Runtime} {A : Type}.
Variable date_of : A -> string.

Local Abbreviation sort := (Shared.sort date_of).
Local Abbreviation in_order := (Shared.in_order date_of).
Local Abbreviation all_valid := (Shared.all_valid date_of).

(** A series that is in order already is left as it is. *)
Lemma sort_fixed data : Sorted in_order data -> sort data = data.
Proof.
  induction 1 as [| x rest Hsorted IH Hhd]; [reflexivity |].
  cbn [Shared.sort]. rewrite IH. destruct Hhd as [| y rest Hxy]; [reflexivity |].
  cbn [sort_insert]. unfold Shared.in_order in Hxy.
  destruct (Z.leb_spec (sort_compare date_of x y) 0); [reflexivity | lia].
Qed.

Lemma in_order_trans x y z :
  is_Some (Date_parse (date_of y)) -> in_order x y -> in_order y z -> in_order x z.
Proof.
  unfold Shared.in_order, sort_compare, by_date. intros [ty ->].
  destruct (Date_parse (date_of x)), (Date_parse (date_of z)); lia.
Qed.

Lemma in_order_refl x : in_order x x.
Proof.
  unfold Shared.in_order, sort_compare, by_date.
  destruct (Date_parse (date_of x)); lia.
Qed.

(** In a series that is in order and whose dates all parse, no item is
    later than the last one. *)
Lemma sorted_last data latest :
  Sorted in_order data -> all_valid data -> last data = Some latest ->
  Forall (fun item => in_order item latest) data.
Proof.
  induction 1 as [| x rest Hsorted IH Hhd]; intros Hvalid Hlast; [constructor |].
  inversion Hvalid as [| ? ? Hx Hrest]; subst.
  destruct rest as [| y rest].
  - injection Hlast as <-. repeat constructor. apply in_order_refl.
  - change (last (x :: y :: rest)) with (last (y :: rest)) in Hlast.
    pose proof (IH Hrest Hlast) as Hall. constructor; [| exact Hall].
    inversion Hhd as [| ? ? Hxy]; subst. inversion Hall as [| ? ? Hy _]; subst.
    inversion Hrest; subst. eapply in_order_trans; eassumption.
Qed.
End Sort.

End SortMore.

(** ** More properties of the heart-rate panel *)

Module PanelMore.
Import Js Dates Shared HeartRate PanelFacts SortFacts SortMore.

Lemma new_controller_live q : current_aborted (new_controller q) = Some false.
Proof.
  unfold current_aborted, new_controller. cbn [abortControllerRef controllers].
  rewrite lookup_app_r by lia. rewrite Nat.sub_diag. reflexivity.
Qed.

Lemma abort_current_fields p :
  heartRateData (abort_current p) = heartRateData p /\
  loading (abort_current p) = loading p /\
  error (abort_current p) = error p /\
  isMountedRef (abort_current p) = isMountedRef p /\
  abortControllerRef (abort_current p) = abortControllerRef p.
Proof.
  unfold abort_current. destruct (abortControllerRef p) eqn:Href; repeat split;
    cbn; congruence.
Qed.

Lemma cleanup_unmounts p : isMountedRef (cleanup p) = false.
Proof. unfold cleanup, abort_current. case_match; reflexivity. Qed.

Section Panel.
Context `{Runtime}.

Lemma fetch_refs props now p :
  refs (fst (fetchHeartRateData props now p)) = refs (new_controller (abort_current p)).
Proof.
  unfold fetchHeartRateData.
  repeat case_match; cbn [fst]; rewrite ?on_finally_refs, ?on_catch_refs; reflexivity.
Qed.

(** The whole effect of a fetch that finds a fresh entry under its key. *)
Lemma fetch_hit_state props pending cached now p :
  resolve props = Ok pending ->
  Cache.get (cacheKey pending) now (cacheRef p) = Some cached ->
  isMountedRef p = true ->
  fetchHeartRateData props now p =
  (setLoading false
     (setLoading false
        (onHeartRateDataUpdate cached
           (setHeartRateData cached
              (setError None (setLoading true (new_controller (abort_current p))))))),
   None).
Proof.
  intros Hresolve Hget Hmounted. unfold fetchHeartRateData. rewrite Hresolve.
  cbn [cacheRef setError setLoading new_controller].
  destruct (abort_current_store p) as [_ ->]. rewrite Hget.
  destruct (abort_current_fields p) as (_ & _ & _ & Hm & _).
  cbn [isMountedRef setError setLoading new_controller]. rewrite Hm, Hmounted.
  unfold on_finally.
  match goal with
  | |- context [current_aborted ?q] =>
      rewrite (current_aborted_refs q (new_controller (abort_current p)) eq_refl)
  end.
  rewrite new_controller_live.
  cbn [isMountedRef setError setLoading new_controller onHeartRateDataUpdate
       setHeartRateData].
  rewrite Hm, Hmounted. reflexivity.
Qed.

(** X8. The cache round trip of the panel.  After a request of a mounted panel
    has settled with records at time [now], the next run of the effect for
    the same selection is served from the cache while less than five
    minutes have passed: no request is issued, the panel shows the sorted
    records again and hands them to the parent once more.  From five
    minutes on, the effect calls the network again. *)
Theorem fresh_result_served_from_cache (events : list Event) (i : nat) (pending : Pending)
    (first : Sample) (rest : list Sample) (now : Z) (props : Props) (later : Z) :
  inflight (run events boot) !! i = Some pending ->
  isMountedRef (panel (run events boot)) = true ->
  resolve props = Ok pending ->
  let settled := run (events ++ [Settle i (Ok (first :: rest)) now]) boot in
  let again := run [Cleanup; Effect props later] settled in
  ((later - now < Cache.TTL)%Z ->
   calls again = calls settled /\
   inflight again = inflight settled /\
   heartRateData (panel again) = sort date (first :: rest) /\
   updates (panel again) = updates (panel settled) ++ [sort date (first :: rest)] /\
   render (panel again) = ViewChart (heartRateData (panel again))) /\
  ((Cache.TTL <= later - now)%Z ->
   calls again = calls settled ++ [pending] /\
   render (panel again) = ViewLoading).
Proof.
  intros Hi Hmounted Hresolve settled again.
  assert (Hsettled : panel settled =
            setLoading false
              (onHeartRateDataUpdate (sort date (first :: rest))
                 (setHeartRateData (sort date (first :: rest))
                    (set_cache (Cache.put (cacheKey pending) (sort date (first :: rest)) now
                                  (cacheRef (panel (run events boot))))
                               (panel (run events boot)))))).
  { unfold settled. rewrite run_snoc. cbn [step]. rewrite Hi. cbn [panel].
    apply resume_records; [assumption |]. eapply live_controller; eassumption. }
  set (p := set_mounted true (cleanup (panel settled))).
  assert (Hcache : cacheRef p !! cacheKey pending =
                   Some (Cache.mkEntry (sort date (first :: rest)) now)).
  { unfold p, cleanup. cbn [cacheRef set_mounted].
    destruct (abort_current_store (set_mounted false (panel settled))) as [_ ->].
    cbn [cacheRef set_mounted]. rewrite Hsettled. cbn [cacheRef setLoading
      onHeartRateDataUpdate setHeartRateData set_cache].
    unfold Cache.put. apply lookup_insert_eq. }
  assert (Hupdates : updates p = updates (panel settled)).
  { unfold p, cleanup. cbn [updates set_mounted].
    destruct (abort_current_store (set_mounted false (panel settled))) as [-> _].
    reflexivity. }
  assert (Hagain : again = start (mkSystem (cleanup (panel settled)) (inflight settled)
                                    (calls settled))
                             (fetchHeartRateData props later p)).
  { reflexivity. }
  assert (Hnonempty : sort date (first :: rest) <> []).
  { intros Hnil. pose proof (sort_perm date (first :: rest)) as Hperm.
    rewrite Hnil in Hperm. apply Permutation_nil in Hperm. discriminate. }
  split.
  - intros Hfresh.
    rewrite Hagain, (fetch_hit_state props pending (sort date (first :: rest)) later p);
      [| assumption | eapply CacheFacts.get_fresh; eassumption | reflexivity].
    cbn [start calls inflight panel heartRateData updates setLoading
         onHeartRateDataUpdate setHeartRateData setError new_controller].
    destruct (abort_current_store p) as [-> _]. rewrite Hupdates.
    repeat split.
    unfold render. cbn [loading error setLoading onHeartRateDataUpdate setHeartRateData
      setError heartRateData truthy_opt].
    destruct (sort date (first :: rest)); [contradiction | reflexivity].
  - intros Hstale.
    assert (Hmiss : snd (fetchHeartRateData props later p) = Some pending).
    { apply fetch_miss; [assumption |]. eapply CacheFacts.get_stale; eassumption. }
    assert (Hstate : fst (fetchHeartRateData props later p) =
                     setError None (setLoading true (new_controller (abort_current p)))).
    { unfold fetchHeartRateData in *. rewrite Hresolve in *.
      destruct (Cache.get _ _ _); [discriminate | reflexivity]. }
    rewrite Hagain. destruct (fetchHeartRateData props later p) as [q found].
    cbn [fst snd] in *. subst q found. cbn [start calls panel]. split; reflexivity.
Qed.

(** *** Settlements that change nothing *)

Lemma resume_unmounted pending outcome now p :
  isMountedRef p = false -> resume pending outcome now p = p.
Proof.
  intros Hm. unfold resume, on_catch, on_finally.
  destruct outcome as [data | e]; rewrite ?Hm; cbn [negb orb andb];
    rewrite ?orb_true_r, ?Hm; reflexivity.
Qed.

(** X9. After the cleanup of the effect, a request that settles, with records,
    without records or with an error, leaves the whole component as the
    cleanup left it: state, cache, refs, and the parent is not called. *)
Theorem settled_after_cleanup_ignored (events : list Event) (i : nat)
    (outcome : Result (list Sample)) (now : Z) :
  panel (run (events ++ [Cleanup; Settle i outcome now]) boot) =
  panel (run (events ++ [Cleanup]) boot).
Proof.
  replace (events ++ [Cleanup; Settle i outcome now])
    with ((events ++ [Cleanup]) ++ [Settle i outcome now])
    by (rewrite <- app_assoc; reflexivity).
  rewrite (run_snoc (events ++ [Cleanup])). cbn [step].
  destruct (inflight (run (events ++ [Cleanup]) boot) !! i) as [pending |]; [| reflexivity].
  cbn [panel]. apply resume_unmounted.
  rewrite run_snoc. cbn [step panel]. apply cleanup_unmounts.
Qed.

Lemma resume_abort pending e now p :
  isMountedRef p = true ->
  is_abort e = true ->
  current_aborted p = Some false ->
  resume pending (Throw e) now p = setLoading false p.
Proof.
  intros Hmounted Habort Hc. unfold resume, on_catch. rewrite Habort. cbn [orb].
  unfold on_finally. rewrite Hmounted, Hc. reflexivity.
Qed.

(** X10. A request of a mounted panel that fails with an abort (an error named
    [AbortError], or one whose code is [ERR_CANCELED]) shows no error: the
    error, the series, the cache and the parent are left alone, and the
    panel only stops loading. *)
Theorem abort_is_swallowed (events : list Event) (i : nat) (pending : Pending)
    (e : JsError) (now : Z) :
  inflight (run events boot) !! i = Some pending ->
  isMountedRef (panel (run events boot)) = true ->
  is_abort e = true ->
  panel (run (events ++ [Settle i (Throw e) now]) boot) =
  setLoading false (panel (run events boot)).
Proof.
  intros Hi Hmounted Habort. rewrite run_snoc. cbn [step]. rewrite Hi. cbn [panel].
  apply resume_abort; [assumption | assumption |].
  eapply live_controller; eassumption.
Qed.

(** *** One live controller *)

Lemma one_live_refs p q : refs p = refs q -> one_live q -> one_live p.
Proof. unfold refs, one_live. intros [= -> -> _]. trivial. Qed.

Lemma abort_current_none_live p c :
  one_live p -> controllers (abort_current p) !! c <> Some false.
Proof.
  intros Hone Hc. unfold abort_current in Hc.
  destruct (abortControllerRef p) as [c0 |] eqn:Href; cbn [controllers] in Hc.
  - destruct (decide (c = c0)) as [-> | Hne].
    + destruct (decide (c0 < length (controllers p))) as [Hlt | Hge].
      * rewrite list_lookup_insert_eq in Hc by assumption. discriminate.
      * rewrite list_insert_ge in Hc by lia.
        apply lookup_lt_Some in Hc. lia.
    + rewrite list_lookup_insert_ne in Hc by congruence.
      apply Hone in Hc. congruence.
  - apply Hone in Hc. congruence.
Qed.

Lemma new_controller_one_live q :
  (forall c, controllers q !! c <> Some false) -> one_live (new_controller q).
Proof.
  intros Hnone c Hc. unfold new_controller in *. cbn [controllers abortControllerRef] in *.
  destruct (decide (c < length (controllers q))) as [Hlt | Hge].
  - rewrite lookup_app_l in Hc by assumption. exfalso. exact (Hnone c Hc).
  - apply lookup_lt_Some in Hc as Hlen. rewrite length_app in Hlen. cbn in Hlen.
    f_equal. lia.
Qed.

Lemma one_live_fetch props now p :
  one_live p -> one_live (fst (fetchHeartRateData props now p)).
Proof.
  intros Hone. eapply one_live_refs; [apply fetch_refs |].
  apply new_controller_one_live. intros c. apply abort_current_none_live. exact Hone.
Qed.

Lemma one_live_mounted v p : one_live p -> one_live (set_mounted v p).
Proof. trivial. Qed.

Lemma one_live_step sys ev : one_live (panel sys) -> one_live (panel (step sys ev)).
Proof.
  intros Hone. destruct ev as [props now | | props now | i outcome now]; cbn [step].
  - pose proof (one_live_fetch props now (set_mounted true (panel sys))
                  (one_live_mounted true _ Hone)) as Hf.
    unfold effect. destruct (fetchHeartRateData props now _) as [q [pending |]]; exact Hf.
  - cbn [panel]. unfold cleanup. intros c Hc. exfalso.
    exact (abort_current_none_live _ c (one_live_mounted false _ Hone) Hc).
  - pose proof (one_live_fetch props now (panel sys) Hone) as Hf.
    destruct (fetchHeartRateData props now _) as [q [pending |]]; exact Hf.
  - destruct (inflight sys !! i) as [pending |]; [| exact Hone].
    cbn [panel]. eapply one_live_refs; [apply resume_refs | exact Hone].
Qed.

(** X11. However the effect, its cleanup, the Retry button and the settlements
    interleave, at most one [AbortController] of the panel is live, the one
    in [abortControllerRef]: every controller that a later fetch or a
    cleanup has replaced is aborted. *)
Theorem one_live_controller (events : list Event) :
  one_live (panel (run events boot)).
Proof.
  induction events as [| ev events IH] using rev_ind.
  - intros c Hc. cbn in Hc. rewrite lookup_nil in Hc. discriminate.
  - rewrite run_snoc. apply one_live_step, IH.
Qed.

(** *** The series after a successful fetch *)

Lemma sort_nonempty (first : Sample) rest : sort date (first :: rest) <> [].
Proof.
  intros Hnil. pose proof (sort_perm date (first :: rest)) as Hperm.
  rewrite Hnil in Hperm. apply Permutation_nil in Hperm. discriminate.
Qed.


(** X12. The series that a mounted panel holds after a request has settled with
    records is a rearrangement of these records, no record lost or added.
    When all their dates parse, no record in it is followed by an earlier
    one, and records that arrive in order already are kept as they are. *)
Theorem records_shown_in_time_order (events : list Event) (i : nat) (pending : Pending)
    (first : Sample) (rest : list Sample) (now : Z) :
  inflight (run events boot) !! i = Some pending ->
  isMountedRef (panel (run events boot)) = true ->
  let shown := heartRateData (panel (run (events ++ [Settle i (Ok (first :: rest)) now]) boot)) in
  Permutation shown (first :: rest) /\
  (all_valid date (first :: rest) ->
   Sorted (in_order date) shown /\
   (Sorted (in_order date) (first :: rest) -> shown = first :: rest)).
Proof.
  intros Hi Hmounted shown.
  assert (Hshown : shown = sort date (first :: rest)).
  { unfold shown. eapply any_request_applied; eassumption. }
  rewrite Hshown. split; [apply sort_perm |].
  intros _. split; [apply sort_sorted | apply sort_fixed].
Qed.

(** X13. When every date of the records parses, the latest reading that the
    panel shows after a successful fetch is one of the records, and no
    record is later than it. *)
Theorem latest_reading_is_latest (events : list Event) (i : nat) (pending : Pending)
    (first : Sample) (rest : list Sample) (now : Z) :
  inflight (run events boot) !! i = Some pending ->
  isMountedRef (panel (run events boot)) = true ->
  all_valid date (first :: rest) ->
  exists latest,
    getLatestReading (panel (run (events ++ [Settle i (Ok (first :: rest)) now]) boot)) =
      Some latest /\
    In latest (first :: rest) /\
    Forall (fun item =>
              match Date_parse (date item), Date_parse (date latest) with
              | Some t, Some t_latest => (t <= t_latest)%Z
              | _, _ => False
              end) (first :: rest).
Proof.
  intros Hi Hmounted Hvalid. unfold getLatestReading.
  rewrite (any_request_applied events i pending first rest now Hi Hmounted).
  pose proof (sort_perm date (first :: rest)) as Hperm.
  destruct (last (sort date (first :: rest))) as [latest |] eqn:Hlast.
  2:{ apply last_None in Hlast. exfalso. eapply sort_nonempty. exact Hlast. }
  exists latest. split; [reflexivity |].
  assert (Hin : In latest (first :: rest)).
  { eapply Permutation_in; [exact Hperm |]. apply list_elem_of_In.
    apply last_Some in Hlast as [front ->]. apply elem_of_app. right. constructor. }
  split; [exact Hin |].
  assert (Hsorted_valid : all_valid date (sort date (first :: rest))).
  { unfold all_valid. rewrite Hperm. exact Hvalid. }
  pose proof (sorted_last date _ latest (sort_sorted date _) Hsorted_valid Hlast) as Hall.
  rewrite Hperm in Hall.
  unfold all_valid in Hvalid. rewrite Forall_forall in *.
  intros item Hitem. specialize (Hall item Hitem).
  destruct (Hvalid item Hitem) as [t Ht]. destruct (Hvalid latest) as [tl Htl].
  { apply list_elem_of_In. exact Hin. }
  unfold in_order, sort_compare, by_date in Hall. rewrite Ht, Htl in *. lia.
Qed.

(** *** What the cache holds *)

Lemma resume_cache pending outcome now p :
  cacheRef (resume pending outcome now p) = cacheRef p \/
  exists first rest,
    cacheRef (resume pending outcome now p) =
    Cache.put (cacheKey pending) (sort date (first :: rest)) now (cacheRef p).
Proof.
  unfold resume.
  repeat case_match;
    repeat match goal with
           | |- context [on_finally ?q] =>
               destruct (on_finally_store q) as [_ ->]
           | |- context [on_catch ?e ?q] =>
               destruct (on_catch_store e q) as [_ ->]
           end;
    cbn [cacheRef onHeartRateDataUpdate setHeartRateData set_cache];
    eauto.
Qed.

Lemma step_cache sys ev :
  cacheRef (panel (step sys ev)) = cacheRef (panel sys) \/
  exists key first rest now,
    cacheRef (panel (step sys ev)) =
    Cache.put key (sort date (first :: rest)) now (cacheRef (panel sys)).
Proof.
  destruct ev as [props now | | props now | i outcome now]; cbn [step].
  - left. unfold effect.
    destruct (fetch_store props now (set_mounted true (panel sys))) as [Hc _].
    destruct (fetchHeartRateData props now _) as [q [pending |]]; exact Hc.
  - left. unfold cleanup. cbn [panel].
    destruct (abort_current_store (set_mounted false (panel sys))) as [_ ->]. reflexivity.
  - left. destruct (fetch_store props now (panel sys)) as [Hc _].
    destruct (fetchHeartRateData props now _) as [q [pending |]]; exact Hc.
  - destruct (inflight sys !! i) as [pending |]; [| left; reflexivity].
    cbn [panel]. destruct (resume_cache pending outcome now (panel sys))
      as [-> | (first & rest & ->)]; eauto 6.
Qed.

(** X14. In every run, each series in the cache has at least one record, and is
    in ascending order of time when all of its dates parse: an empty result
    is never cached, and a cache hit never shows the "no data" card. *)
Theorem cache_holds_sorted_records (events : list Event) :
  kept_well (panel (run events boot)).
Proof.
  induction events as [| ev events IH] using rev_ind.
  - intros key entry Hentry. cbn in Hentry. rewrite lookup_empty in Hentry. discriminate.
  - rewrite run_snoc.
    destruct (step_cache (run events boot) ev) as [Hsame | (k & first & rest & now & Hput)];
      intros key entry; [rewrite Hsame; apply IH |].
    rewrite Hput. unfold Cache.put.
    destruct (decide (k = key)) as [-> | Hne].
    + rewrite lookup_insert_eq. intros [= <-]. cbn [Cache.data].
      split; [apply sort_nonempty | intros _; apply (sort_sorted date (first :: rest))].
    + rewrite lookup_insert_ne by assumption. apply IH.
Qed.

(** X15. The cache only grows: a key that has an entry keeps one, whatever
    happens next; an entry is overwritten by a newer result, never removed,
    also when it has expired. *)
Theorem cache_never_evicts (events more : list Event) (key : string) :
  is_Some (cacheRef (panel (run events boot)) !! key) ->
  is_Some (cacheRef (panel (run (events ++ more) boot)) !! key).
Proof.
  intros Hkey. induction more as [| ev more IH] using rev_ind.
  - rewrite app_nil_r. exact Hkey.
  - rewrite app_assoc, run_snoc.
    destruct (step_cache (run (events ++ more) boot) ev)
      as [-> | (k & first & rest & now & ->)]; [exact IH |].
    unfold Cache.put. destruct (decide (k = key)) as [-> | Hne].
    + rewrite lookup_insert_eq. eauto.
    + rewrite lookup_insert_ne by assumption. exact IH.
Qed.

(** *** The range resolution of the panel *)



(** The fallback of the resolution.  A custom range that lacks one of its
    dates, a period that is none of [today], [week], [month], and a missing
    [dateRange] all resolve to the last 24 hours, cached under the key of
    that range; the resolution does not throw. *)
Theorem resolve_falls_back (props : Props) :
  custom_selected props = false ->
  period_is "week" (dateRange props) = false ->
  period_is "month" (dateRange props) = false ->
  resolve props =
  Ok {| userId := selectedUserId props; fromDate := None; toDate := None;
        range := Some "24h";
        cacheKey := (if truthy_opt (selectedUserId props)
                     then template_opt (selectedUserId props) else "null") +:+ "-24h" |}.
Proof.
  intros Hcustom Hweek Hmonth. unfold resolve. fold (custom_selected props).
  rewrite Hcustom, Hweek, Hmonth. destruct (period_is "today" (dateRange props)); reflexivity.
Qed.
End Panel.

Lemma fresh_result_served_from_cache_witness :
  calls (run (H := Examples.known_dates) [Cleanup; Effect Examples.today 2000]
           (run (H := Examples.known_dates)
              ([Effect Examples.today 0] ++ [Settle 0 (Ok [Examples.hr_morning]) 1000])
              boot)) =
  calls (run (H := Examples.known_dates)
           ([Effect Examples.today 0] ++ [Settle 0 (Ok [Examples.hr_morning]) 1000]) boot).
Proof.
  destruct (fresh_result_served_from_cache (H := Examples.known_dates)
              [Effect Examples.today 0] 0 Examples.awaiting_today Examples.hr_morning []
              1000 Examples.today 2000 eq_refl eq_refl eq_refl) as [Hfresh _].
  apply Hfresh. reflexivity.
Defined.

Lemma abort_is_swallowed_witness :
  panel (run (H := Examples.known_dates)
           ([Effect Examples.today 0] ++
            [Settle 0 (Throw {| err_name := "AbortError"; err_code := None;
                                err_message := "The operation was aborted." |}) 1000])
           boot) =
  setLoading false (panel (run (H := Examples.known_dates) [Effect Examples.today 0] boot)).
Proof.
  apply (abort_is_swallowed (H := Examples.known_dates) [Effect Examples.today 0] 0
           Examples.awaiting_today); reflexivity.
Defined.

Lemma cache_never_evicts_witness :
  is_Some (cacheRef (panel (run (H := Examples.known_dates)
                              ([Effect Examples.today 0;
                                Settle 0 (Ok [Examples.hr_morning]) 1000] ++
                               [Cleanup; Effect Examples.week 400000;
                                Settle 0 (Ok [Examples.hr_later]) 401000]) boot))
           !! "u1-24h").
Proof.
  apply (cache_never_evicts (H := Examples.known_dates)
           [Effect Examples.today 0; Settle 0 (Ok [Examples.hr_morning]) 1000]).
  vm_compute. eauto.
Defined.


(** A custom selection whose second date is still missing. *)
Lemma resolve_falls_back_witness :
  resolve (H := Examples.known_dates)
    {| selectedUserId := None;
       dateRange := Some {| from := Some "2026-01-01"; to := None; customRange := true;
                            period := Some "custom" |} |} =
  Ok {| userId := None; fromDate := None; toDate := None; range := Some "24h";
        cacheKey := "null-24h" |}.
Proof.
  apply (resolve_falls_back (H := Examples.known_dates)
           {| selectedUserId := None;
              dateRange := Some {| from := Some "2026-01-01"; to := None;
                                   customRange := true; period := Some "custom" |} |});
    reflexivity.
Defined.

Lemma records_shown_in_time_order_witness :
  Permutation
    (heartRateData
       (panel (run (H := Examples.known_dates)
                 ([Effect Examples.today 0] ++
                  [Settle 0 (Ok (Examples.hr_later :: [Examples.hr_morning])) 1000]) boot)))
    (Examples.hr_later :: [Examples.hr_morning]).
Proof.
  apply (records_shown_in_time_order (H := Examples.known_dates)
           [Effect Examples.today 0] 0 Examples.awaiting_today Examples.hr_later
           [Examples.hr_morning] 1000); reflexivity.
Defined.

Lemma latest_reading_is_latest_witness :
  exists latest,
    getLatestReading
      (panel (run (H := Examples.known_dates)
                ([Effect Examples.today 0] ++
                 [Settle 0 (Ok (Examples.hr_later :: [Examples.hr_morning])) 1000]) boot)) =
      Some latest /\
    In latest (Examples.hr_later :: [Examples.hr_morning]) /\
    Forall (fun item =>
              match Examples.parse_known (date item), Examples.parse_known (date latest) with
              | Some t, Some t_latest => (t <= t_latest)%Z
              | _, _ => False
              end) (Examples.hr_later :: [Examples.hr_morning]).
Proof.
  apply (latest_reading_is_latest (H := Examples.known_dates)
           [Effect Examples.today 0] 0 Examples.awaiting_today Examples.hr_later
           [Examples.hr_morning] 1000).
  - reflexivity.
  - reflexivity.
  - repeat constructor; eexists; reflexivity.
Defined.

End PanelMore.

(** ** Properties of the sleep score *)

Module SleepFacts.
Import Sleep.

(** X21. The score of a record lies between 25 and 100, so the final
    [Math.min(score, 100)] never cuts anything off; it is 100 exactly when
    the duration is 7 to 9 hours, deep sleep 15 to 20 percent, light sleep
    45 to 55 percent and the time awake below 5 percent.  Without a record
    the score is 0. *)
Theorem sleep_score_range (data : Sample) :
  (25 <= calculateSleepScore (Some data) <= 100)%Z /\
  (calculateSleepScore (Some data) = 100%Z <->
     within 7 9 (duration data) = true /\
     within 15 20 (deep_sleep_percentage data) = true /\
     within 45 55 (light_sleep_percentage data) = true /\
     below 5 (awake_percentage data) = true) /\
  calculateSleepScore None = 0%Z.
Proof.
  unfold calculateSleepScore.
  destruct (within 7 9 (duration data)), (within 6 10 (duration data)),
           (within 15 20 (deep_sleep_percentage data)),
           (within 10 25 (deep_sleep_percentage data)),
           (within 45 55 (light_sleep_percentage data)),
           (within 40 60 (light_sleep_percentage data)),
           (below 5 (awake_percentage data)), (below 10 (awake_percentage data));
    cbn; repeat split; intros; try lia; try discriminate; try tauto;
    repeat match goal with H : _ /\ _ |- _ => destruct H end; discriminate.
Qed.

End SleepFacts.

(** ** Properties of the real-time dashboard *)

Module RealTimeFacts.
Import RealTime Float64Facts.

Lemma later_of_cases latest curr :
  (timestamp latest < timestamp curr /\ later_of latest curr = curr)%Z \/
  (timestamp curr <= timestamp latest /\ later_of latest curr = latest)%Z.
Proof.
  unfold later_of. destruct (Z.ltb_spec (timestamp latest) (timestamp curr)); auto.
Qed.

(** The fold never goes below where it starts, nor below what it meets. *)
Lemma fold_latest_bounds rest : forall first,
  Forall (fun r => (timestamp r <= timestamp (fold_left later_of rest first))%Z)
         (first :: rest).
Proof.
  induction rest as [| y rest IH]; intros first; cbn [fold_left].
  - repeat constructor. lia.
  - specialize (IH (later_of first y)).
    inversion IH as [| ? ? Hhead Htail]; subst.
    destruct (later_of_cases first y) as [[Hlt Heq] | [Hle Heq]]; rewrite Heq in *;
      constructor; try constructor; try assumption; lia.
Qed.

(** Started from a reading that is not later, the fold ends at the same
    reading unless the start was the latest of all. *)
Lemma fold_latest_from_earlier rest : forall x y,
  (timestamp y <= timestamp x)%Z ->
  fold_left later_of rest x =
  if (timestamp x <? timestamp (fold_left later_of rest y))%Z
  then fold_left later_of rest y else x.
Proof.
  induction rest as [| z rest IH]; intros x y Hyx; cbn [fold_left].
  - destruct (Z.ltb_spec (timestamp x) (timestamp y)); [lia | reflexivity].
  - destruct (later_of_cases x z) as [[Hxz Hx] | [Hzx Hx]];
      destruct (later_of_cases y z) as [[Hyz Hy] | [Hzy Hy]]; rewrite Hx, Hy.
    + pose proof (fold_latest_bounds rest z) as Hb. inversion Hb as [| ? ? Hz _]; subst.
      destruct (Z.ltb_spec (timestamp x) (timestamp (fold_left later_of rest z)));
        [reflexivity | lia].
    + lia.
    + apply IH. exact Hzx.
    + apply IH. exact Hyx.
Qed.

Lemma sort_insert_head x sorted :
  hd x (sort_insert x sorted) =
  match sorted with
  | [] => x
  | y :: _ => if (timestamp y <=? timestamp x)%Z then x else y
  end.
Proof.
  destruct sorted as [| y rest]; [reflexivity |].
  cbn [sort_insert]. unfold newest_first.
  destruct (Z.leb_spec (timestamp y - timestamp x) 0),
           (Z.leb_spec (timestamp y) (timestamp x)); try lia; reflexivity.
Qed.

Lemma newest_first_insert_perm x sorted : Permutation (sort_insert x sorted) (x :: sorted).
Proof.
  induction sorted as [| y rest IH]; cbn [sort_insert]; [reflexivity |].
  destruct (newest_first x y <=? 0)%Z; [reflexivity |].
  rewrite IH. apply perm_swap.
Qed.

Lemma newest_first_perm data : Permutation (sort data) data.
Proof.
  induction data as [| x rest IH]; cbn [sort]; [reflexivity |].
  rewrite newest_first_insert_perm. apply perm_skip, IH.
Qed.

Lemma sort_insert_cons x sorted : exists h t, sort_insert x sorted = h :: t.
Proof.
  destruct sorted as [| y rest]; cbn [sort_insert]; [eauto |].
  destruct (newest_first x y <=? 0)%Z; eauto.
Qed.

(** The first reading of the sorted copy is the one [getLatestData] picks. *)
Lemma sort_head rest : forall first,
  hd first (sort (first :: rest)) = fold_left later_of rest first.
Proof.
  induction rest as [| y rest IH]; intros first; [reflexivity |].
  change (sort (first :: y :: rest)) with (sort_insert first (sort (y :: rest))).
  rewrite sort_insert_head. specialize (IH y).
  destruct (sort_insert_cons y (sort rest)) as (h & t & Hsorted).
  change (sort (y :: rest)) with (sort_insert y (sort rest)) in *.
  rewrite Hsorted in *. cbn [hd] in IH. subst h. cbn [fold_left].
  pose proof (fold_latest_bounds rest y) as Hb. inversion Hb as [| ? ? Hy _]; subst.
  destruct (later_of_cases first y) as [[Hlt Heq] | [Hle Heq]]; rewrite Heq.
  - destruct (Z.leb_spec (timestamp (fold_left later_of rest y)) (timestamp first));
      [lia | reflexivity].
  - rewrite (fold_latest_from_earlier rest first y Hle).
    destruct (Z.leb_spec (timestamp (fold_left later_of rest y)) (timestamp first)),
             (Z.ltb_spec (timestamp first) (timestamp (fold_left later_of rest y)));
      try lia; reflexivity.
Qed.

(** X22. The card and the list of the real-time dashboard.  For readings that
    are not empty, [getLatestData] returns a reading of the data whose
    timestamp no other reading exceeds; the "Recent Readings" list is the
    sorted copy without exactly that reading, so that the card and the
    list together show every reading once. *)
Theorem latest_and_history (first : Reading) (rest : list Reading) :
  let data := first :: rest in
  exists latest,
    getLatestData (Some data) = Some latest /\
    sort data = latest :: history data /\
    Permutation (latest :: history data) data /\
    Forall (fun r => (timestamp r <= timestamp latest)%Z) data.
Proof.
  cbn zeta. exists (fold_left later_of rest first).
  assert (Hsorted : sort (first :: rest) =
                    fold_left later_of rest first :: history (first :: rest)).
  { pose proof (sort_head rest first) as Hhead. unfold history.
    destruct (sort_insert_cons first (sort rest)) as (h & t & Hcons).
    change (sort (first :: rest)) with (sort_insert first (sort rest)) in *.
    rewrite Hcons in *. cbn [hd] in Hhead. subst h. reflexivity. }
  repeat split.
  - exact Hsorted.
  - rewrite <- Hsorted. apply newest_first_perm.
  - apply fold_latest_bounds.
Qed.

(** Without readings there is no latest one. *)
Lemma no_readings_no_latest : getLatestData None = None /\ getLatestData (Some []) = None.
Proof. split; reflexivity. Qed.

Local Open Scope Q_scope.

Lemma whole_truthy (z : Z) : (0 < z)%Z -> Float64.truthy (Float64.Finite (inject_Z z)) = true.
Proof.
  intros Hz. cbn [Float64.truthy].
  destruct (positive_sign (inject_Z z)) as [-> _]; [| reflexivity].
  change 0 with (inject_Z 0). rewrite <- Zlt_Qlt. exact Hz.
Qed.

(** X23. The mean arterial pressure of the blood-pressure card, for pressures
    that are whole numbers up to [2^51], the diastolic one above zero and
    not above the systolic one: the card shows a whole number that lies
    between the two.  When one of the pressures is zero, whatever the
    other is, the card shows no mean. *)
Theorem mean_arterial_between (systolic diastolic : Q) (s d : Z) :
  systolic == inject_Z s -> diastolic == inject_Z d ->
  (0 < d <= s)%Z -> (s <= 2 ^ 51)%Z ->
  (exists mean : Z,
     mean_arterial systolic diastolic = Some (Float64.Finite (inject_Z mean)) /\
     (d <= mean <= s)%Z) /\
  (forall other, mean_arterial 0 other = None /\ mean_arterial other 0 = None).
Proof.
  intros Hs Hd Horder Hlimit. split.
  - unfold mean_arterial.
    rewrite (to_double_comp _ _ Hs), (to_double_comp _ _ Hd).
    rewrite (to_double_whole s), (to_double_whole d) by lia.
    rewrite !whole_truthy by lia. cbn [andb Float64.mul Float64.add].
    change 2 with (inject_Z 2). rewrite <- inject_Z_mult.
    rewrite (to_double_whole (2 * d)) by lia.
    cbn [Float64.add]. rewrite <- inject_Z_plus.
    rewrite (to_double_whole (s + 2 * d)) by lia.
    cbn [Float64.div]. change (Qeq_bool 3 0) with false. cbn match.
    destruct (to_double_between_whole d s (inject_Z (s + 2 * d) / 3))
      as (mean & Hmean & Hlow & Hhigh); [lia | lia | | |].
    + apply Qle_shift_div_l; [reflexivity |].
      change 3 with (inject_Z 3). rewrite <- inject_Z_mult, <- Zle_Qle. lia.
    + apply Qle_shift_div_r; [reflexivity |].
      change 3 with (inject_Z 3). rewrite <- inject_Z_mult, <- Zle_Qle. lia.
    + rewrite Hmean.
      destruct (Math_round_between d s mean Hlow Hhigh) as (k & Hround & Hk).
      exists k. rewrite Hround. split; [reflexivity | exact Hk].
  - intros other. unfold mean_arterial. rewrite to_double_zero.
    cbn [Float64.truthy]. change (Qeq_bool 0 0) with true. cbn [negb andb].
    rewrite andb_false_r. split; reflexivity.
Qed.

Lemma mean_arterial_between_witness :
  exists mean : Z,
    mean_arterial 117 84 = Some (Float64.Finite (inject_Z mean)) /\ (84 <= mean <= 117)%Z.
Proof.
  apply (mean_arterial_between 117 84 117 84); (reflexivity || lia).
Defined.

(** Both pressures 3130763303343493, a double above [2^51]: the sum of
    the three terms is rounded, and the mean comes out one above the
    pressures. *)
Example mean_arterial_above_both :
  mean_arterial 3130763303343493 3130763303343493 =
  Some (Float64.Finite 3130763303343494).
Proof. vm_compute. reflexivity. Qed.

End RealTimeFacts.

(** ** Properties of the date filter of the dashboard page *)

Module DashboardFacts.
Import Js Dates Shared Dashboard.

Section Filter.
Context `{Runtime}.

Lemma page_formatted_some (date : string) formatted :
  truthy_string date = true ->
  formatDateForAPI (Some date) = Ok formatted ->
  is_Some formatted.
Proof.
  unfold formatDateForAPI. intros ->. cbn [negb].
  destruct (Date_parse date); [intros [= <-]; eauto | discriminate].
Qed.

Ltac settle_coherent :=
  unfold coherent; cbn; repeat split; intros; subst;
  try reflexivity; try discriminate; try congruence; try tauto;
  try match goal with
      | H : is_Some None |- _ => destruct H; discriminate
      end.

Lemma coherent_step st action : coherent st -> coherent (step st action).
Proof.
  intros (Hperiod & Hcustom & Hpicker & Hdates & Hboth).
  destruct action as [filterType | fromDate toDate | |]; cbn [step].
  - unfold handleFilterChange.
    destruct (String.eqb_spec filterType "custom") as [-> | Hne]; settle_coherent.
  - destruct (showDatePicker st) eqn:Hshown; cbn [andb]; [| settle_coherent].
    destruct (truthy_string fromDate) eqn:Hfrom; cbn [andb]; [| settle_coherent].
    destruct (truthy_string toDate) eqn:Hto; cbn [andb]; [| settle_coherent].
    unfold handleDateRangeApply.
    destruct (formatDateForAPI (Some fromDate)) as [from' |] eqn:Ef; [| settle_coherent].
    destruct (formatDateForAPI (Some toDate)) as [to' |] eqn:Et; [| settle_coherent].
    pose proof (page_formatted_some _ _ Hfrom Ef). pose proof (page_formatted_some _ _ Hto Et).
    pose proof (Hpicker eq_refl) as Hactive.
    unfold coherent; cbn. rewrite Hactive. repeat split; intros; try discriminate; auto.
  - settle_coherent.
  - settle_coherent.
Qed.

Lemma page_run_snoc actions action st : run (actions ++ [action]) st = step (run actions st) action.
Proof. unfold run. rewrite fold_left_app. reflexivity. Qed.

Lemma coherent_initial : coherent (initial "today").
Proof. settle_coherent. Qed.


(** X24. Whatever the user clicks on a page mounted with the default period:
    the period handed to the panels is the active filter button; the range
    is custom exactly while that button is Custom; the date picker is open
    only under Custom; outside a custom range both dates are [null]; and
    the two dates are set or unset together. *)
Theorem filter_stays_coherent (actions : list Action) :
  coherent (run actions (initial "today")).
Proof.
  induction actions as [| action actions IH] using rev_ind.
  - apply coherent_initial.
  - rewrite page_run_snoc. apply coherent_step, IH.
Qed.


(** X26. From the date picker to the URL.  When the picker is open and both
    typed dates parse, Apply closes the picker, and the heart-rate panel
    then requests exactly the two dates, written as [toISOString] writes
    them, with no range; this for two dates that [toISOString] writes in
    the form YYYY-MM-DD, which are those of the years 0 to 9999. *)
Theorem applied_dates_reach_the_url (st : State) (user : option string)
    (fromDate toDate : string) (d1 d2 : Z) :
  showDatePicker st = true ->
  truthy_string fromDate = true -> truthy_string toDate = true ->
  Date_parse fromDate = Some d1 -> Date_parse toDate = Some d2 ->
  is_ymd (toISODate d1) = true -> is_ymd (toISODate d2) = true ->
  let st' := step st (Apply fromDate toDate) in
  showDatePicker st' = false /\
  exists pending,
    HeartRate.resolve (panel_props user st') = Ok pending /\
    HeartRate.range pending = None /\
    Api.getHeartRateData_url (HeartRate.userId pending) (HeartRate.fromDate pending)
      (HeartRate.toDate pending) (HeartRate.range pending) =
    (if truthy_opt user
     then "/api/HeartRate_Data/?user_id=" +:+ template_opt user
     else "/api/HeartRate_Data/?") +:+
    (if truthy_opt user then "&from=" else "from=") +:+ toISODate d1 +:+
    "&to=" +:+ toISODate d2.
Proof.
  intros Hshown Hfrom Hto Hd1 Hd2 Hiso1 Hiso2. cbn [step]. rewrite Hshown, Hfrom, Hto.
  cbn [andb]. unfold handleDateRangeApply, formatDateForAPI.
  rewrite Hfrom, Hto, Hd1, Hd2. cbn [negb]. split; [reflexivity |].
  assert (Htruthy : forall s, is_ymd s = true -> truthy_string s = true).
  { intros s Hs. destruct s; [discriminate | reflexivity]. }
  pose proof (Htruthy _ Hiso1) as Ht1. pose proof (Htruthy _ Hiso2) as Ht2.
  unfold HeartRate.resolve, panel_props.
  cbn [Shared.dateRange Shared.selectedUserId dateRange customRange Shared.from Shared.to
       truthy_opt andb].
  rewrite Ht1, Ht2. cbn [andb]. unfold Shared.formatDateForAPI.
  rewrite Ht1, Ht2, Hiso1, Hiso2.
  cbn [negb]. eexists. split; [reflexivity |]. split; [reflexivity |].
  cbn [HeartRate.userId HeartRate.fromDate HeartRate.toDate HeartRate.range].
  unfold Api.getHeartRateData_url, Api.metric_url. cbn [truthy_opt template_opt].
  rewrite Ht1, Ht2. cbn [andb].
  destruct (truthy_opt user); reflexivity.
Qed.
End Filter.


Lemma applied_dates_reach_the_url_witness :
  let st' := step (H := Examples.known_dates) MoreExamples.picking
               (Apply "2026-01-02" "2026-01-31") in
  showDatePicker st' = false /\
  exists pending,
    HeartRate.resolve (H := Examples.known_dates) (panel_props (Some "u1") st') =
      Ok pending /\
    HeartRate.range pending = None /\
    Api.getHeartRateData_url (HeartRate.userId pending) (HeartRate.fromDate pending)
      (HeartRate.toDate pending) (HeartRate.range pending) =
    "/api/HeartRate_Data/?user_id=u1&from=2026-01-02&to=2026-01-31".
Proof.
  apply (applied_dates_reach_the_url (H := Examples.known_dates) MoreExamples.picking
           (Some "u1") "2026-01-02" "2026-01-31" 1767312000000 1769817600000);
    reflexivity.
Defined.

End DashboardFacts.

(** ** Properties of the activity rings *)

Module ActivityFacts.
Import Activity Float64Facts.

Local Open Scope Q_scope.

Lemma whole_positive (z : Z) : (0 < z)%Z -> 0 < inject_Z z.
Proof. intros Hz. change 0 with (inject_Z 0). rewrite <- Zlt_Qlt. exact Hz. Qed.

(** The multiplier is a whole number, at least 1. *)
Lemma daysMultiplier_whole a :
  exists n, daysMultiplier a = Float64.Finite (inject_Z n) /\
            (1 <= n)%Z /\ (n <= Z.max 1 (Z.of_nat (recordCount a)))%Z.
Proof.
  unfold daysMultiplier. destruct (recordCount a) as [| count].
  - exists 1%Z. split; [reflexivity | lia].
  - exists (Z.of_nat (S count)). split; [reflexivity | lia].
Qed.

(** A daily goal times the multiplier is computed without rounding. *)
Lemma goal_whole (goal n : Z) :
  (0 < goal <= 10000)%Z -> (1 <= n < 2 ^ 32)%Z ->
  Float64.mul (Float64.Finite (inject_Z goal)) (Float64.Finite (inject_Z n)) =
  Float64.Finite (inject_Z (goal * n)).
Proof.
  intros Hgoal Hn. cbn [Float64.mul]. rewrite <- inject_Z_mult.
  apply to_double_whole. nia.
Qed.

Lemma percentage_of_capped (total goal : Q) :
  0 <= total -> 0 < goal ->
  exists k, percentage_of (Float64.to_double total) (Float64.Finite goal) =
              Float64.Finite (inject_Z k) /\ (0 <= k <= 100)%Z.
Proof.
  intros Htotal Hgoal. unfold percentage_of. apply capped_percentage.
  apply mul_nonneg; [| reflexivity]. apply div_nonneg; [| exact Hgoal].
  apply to_double_nonneg, Htotal.
Qed.

(** The four percentages are whole numbers from 0 to 100. *)
Lemma percentages_whole (a : ActivityData) :
  0 <= step a -> 0 <= distance a -> 0 <= calories a -> 0 <= exercise_minutes a ->
  (Z.of_nat (recordCount a) < 2 ^ 32)%Z ->
  exists k1 k2 k3 k4,
    percentages (Some a) =
      [Float64.Finite (inject_Z k1); Float64.Finite (inject_Z k2);
       Float64.Finite (inject_Z k3); Float64.Finite (inject_Z k4)] /\
    (0 <= k1 <= 100)%Z /\ (0 <= k2 <= 100)%Z /\ (0 <= k3 <= 100)%Z /\ (0 <= k4 <= 100)%Z.
Proof.
  intros Hstep Hdistance Hcalories Hexercise Hcount.
  destruct (daysMultiplier_whole a) as (n & Hm & Hn1 & Hn2).
  unfold percentages. rewrite Hm.
  change (Float64.Finite 10000) with (Float64.Finite (inject_Z 10000)).
  change (Float64.Finite 500) with (Float64.Finite (inject_Z 500)).
  change (Float64.Finite 60) with (Float64.Finite (inject_Z 60)).
  rewrite !goal_whole by lia.
  destruct (percentage_of_capped (step a) (inject_Z (10000 * n)) Hstep)
    as (k1 & -> & Hk1); [apply whole_positive; lia |].
  destruct (percentage_of_capped (calories a) (inject_Z (500 * n)) Hcalories)
    as (k3 & -> & Hk3); [apply whole_positive; lia |].
  destruct (percentage_of_capped (exercise_minutes a) (inject_Z (60 * n)) Hexercise)
    as (k4 & -> & Hk4); [apply whole_positive; lia |].
  destruct (capped_percentage
              (Float64.mul
                 (Float64.div
                    (Float64.mul (Float64.to_double (distance a))
                       (Float64.Finite (inject_Z n)))
                    (Float64.Finite 5))
                 (Float64.Finite 100))) as (k2 & -> & Hk2).
  { apply mul_nonneg; [| reflexivity]. apply div_nonneg; [| reflexivity].
    apply mul_nonneg; [| apply whole_positive; lia].
    apply to_double_nonneg, Hdistance. }
  exists k1, k2, k3, k4. auto.
Qed.

(** The dash offset of a percentage on a ring. *)
Lemma offset_on_circle (k : Z) (circumference c : Q) :
  (0 <= k <= 100)%Z -> 0 <= circumference ->
  Float64.to_double circumference = Float64.Finite c ->
  exists offset,
    calculateOffset (Float64.Finite (inject_Z k)) (Float64.Finite c) =
      Float64.Finite offset /\
    0 <= offset /\ offset <= c.
Proof.
  intros Hk Hcirc Hc.
  assert (Hc0 : 0 <= c).
  { pose proof (to_double_nonneg circumference Hcirc) as Hle. rewrite Hc in Hle. exact Hle. }
  pose proof (to_double_idempotent _ _ Hc) as Hdouble.
  unfold calculateOffset, Float64.sub. cbn [Float64.div].
  change (Qeq_bool 100 0) with false. cbn match.
  destruct (to_double_between_whole 0 1 (inject_Z k / 100))
    as (share & -> & Hshare0 & Hshare1); [lia | lia | | |].
  { apply Qle_shift_div_l; [reflexivity |].
    change 100 with (inject_Z 100). rewrite <- inject_Z_mult, <- Zle_Qle. lia. }
  { apply Qle_shift_div_r; [reflexivity |].
    change 100 with (inject_Z 100). rewrite <- inject_Z_mult, <- Zle_Qle. lia. }
  change (inject_Z 0) with 0 in Hshare0. change (inject_Z 1) with 1 in Hshare1.
  cbn [Float64.mul].
  destruct (to_double_between 0 c (share * c) 0 c to_double_zero Hdouble)
    as (covered & -> & Hcovered0 & Hcovered1).
  { apply Qmult_le_0_compat; assumption. }
  { rewrite <- (Qmult_1_l c) at 2. apply Qmult_le_compat_r; assumption. }
  cbn [Float64.neg Float64.add].
  destruct (to_double_between 0 c (c + - covered) 0 c to_double_zero Hdouble)
    as (offset & -> & Hoffset0 & Hoffset1); [lra | lra |].
  exists offset. auto.
Qed.

(** X27. The rings of the activity summary.  For totals that are not
    negative, of fewer than [2^32] records, every ring's percentage is a
    whole number from 0 to 100, so that its dash offset lies between 0 and
    the circumference of the ring, whatever double that is; the "Overall"
    figure is a whole number from 0 to 100 as well.  Without data the four
    percentages are 0. *)
Theorem rings_stay_on_the_circle (a : ActivityData) :
  0 <= step a -> 0 <= distance a -> 0 <= calories a -> 0 <= exercise_minutes a ->
  (Z.of_nat (recordCount a) < 2 ^ 32)%Z ->
  Forall (fun pct =>
            exists k : Z,
              pct = Float64.Finite (inject_Z k) /\ (0 <= k <= 100)%Z /\
              forall circumference c,
                0 <= circumference ->
                Float64.to_double circumference = Float64.Finite c ->
                exists offset,
                  calculateOffset pct (Float64.Finite c) = Float64.Finite offset /\
                  0 <= offset /\ offset <= c)
         (percentages (Some a)) /\
  (exists k : Z, overall (Some a) = Float64.Finite (inject_Z k) /\ (0 <= k <= 100)%Z) /\
  percentages None =
    [Float64.Finite 0; Float64.Finite 0; Float64.Finite 0; Float64.Finite 0].
Proof.
  intros Hstep Hdistance Hcalories Hexercise Hcount.
  destruct (percentages_whole a Hstep Hdistance Hcalories Hexercise Hcount)
    as (k1 & k2 & k3 & k4 & Hpcts & Hk1 & Hk2 & Hk3 & Hk4).
  split; [| split; [| reflexivity]].
  - rewrite Hpcts.
    repeat constructor;
      (eexists; split; [reflexivity |]; split; [assumption |];
       intros circumference c Hcirc Hc; eapply offset_on_circle; eassumption).
  - unfold overall. rewrite Hpcts.
    change (Float64.Finite 0) with (Float64.Finite (inject_Z 0)).
    cbn [fold_left length].
    cbn [Float64.add]. rewrite <- inject_Z_plus, (to_double_whole (0 + k1)) by lia.
    cbn [Float64.add]. rewrite <- inject_Z_plus, (to_double_whole (0 + k1 + k2)) by lia.
    cbn [Float64.add].
    rewrite <- inject_Z_plus, (to_double_whole (0 + k1 + k2 + k3)) by lia.
    cbn [Float64.add].
    rewrite <- inject_Z_plus, (to_double_whole (0 + k1 + k2 + k3 + k4)) by lia.
    cbn [Float64.div]. change (Qeq_bool (inject_Z (Z.of_nat 4)) 0) with false. cbn match.
    change (inject_Z (Z.of_nat 4)) with 4.
    destruct (to_double_between_whole 0 100 (inject_Z (0 + k1 + k2 + k3 + k4) / 4))
      as (mean & -> & Hlow & Hhigh); [lia | lia | | |].
    + apply Qle_shift_div_l; [reflexivity |].
      change 4 with (inject_Z 4). rewrite <- inject_Z_mult, <- Zle_Qle. lia.
    + apply Qle_shift_div_r; [reflexivity |].
      change 4 with (inject_Z 4). rewrite <- inject_Z_mult, <- Zle_Qle. lia.
    + apply (Math_round_between 0 100 mean Hlow Hhigh).
Qed.

Lemma rings_stay_on_the_circle_witness :
  exists k : Z,
    overall (Some MoreExamples.active_day) = Float64.Finite (inject_Z k) /\
    (0 <= k <= 100)%Z.
Proof.
  apply (rings_stay_on_the_circle MoreExamples.active_day); (discriminate || (cbn; lia)).
Defined.

(** A day of 1450 steps: 1450 / 10000 is rounded to a double, and that
    times 100 to a double just below 14.5, so that the ring of the steps
    shows 14 percent, where the exact 14.5 would give 15. *)
Example percentages_of_a_day :
  percentages (Some MoreExamples.active_day) =
  [Float64.Finite 14; Float64.Finite 84; Float64.Finite 60; Float64.Finite 75].
Proof. vm_compute. reflexivity. Qed.

End ActivityFacts.

(** ** More properties of the SpO2 series *)

Module SpO2More.
Import Dates Shared SpO2 SortFacts SeriesFacts.

Lemma unique_length data : forall seen, length (unique seen data) <= length data.
Proof.
  induction data as [| item rest IH]; intros seen; cbn [unique length].
  - lia.
  - destruct (decide (date item ∈ seen)); cbn [length].
    + specialize (IH seen). lia.
    + specialize (IH ({[date item]} ∪ seen)). lia.
Qed.

(** Items of pairwise distinct dates, none of them seen before, are all
    kept. *)
Lemma unique_distinct data : forall seen,
  NoDup (map date data) ->
  (forall item, In item data -> date item ∉ seen) ->
  unique seen data = data.
Proof.
  induction data as [| item rest IH]; intros seen Hdup Hnew; cbn [unique].
  - reflexivity.
  - cbn [map] in Hdup. apply NoDup_cons in Hdup as [Hnotin Hdup].
    destruct (decide (date item ∈ seen)) as [Hseen | _].
    + exfalso. apply (Hnew item); [left; reflexivity | exact Hseen].
    + f_equal. apply IH; [exact Hdup |].
      intros other Hother. rewrite elem_of_union, elem_of_singleton.
      intros [Heq | Hseen].
      * apply Hnotin. rewrite <- Heq. apply list_elem_of_In, in_map, Hother.
      * apply (Hnew other); [right; exact Hother | exact Hseen].
Qed.

Section Chart.
Context `{Runtime}.

(** X28. The chart of the SpO2 panel never has more points than the series has
    samples, and for a series without repeated dates it has a point for
    every sample: the dates of the points are the dates of the samples,
    rearranged. *)
Theorem distinct_dates_lose_nothing (data : list Sample) :
  length (processSpO2Data (Some data)) <= length data /\
  (NoDup (map date data) ->
   Permutation (map point_date (processSpO2Data (Some data))) (map date data)).
Proof.
  destruct data as [| item rest]; [split; [cbn; lia | reflexivity] |].
  unfold processSpO2Data. set (items := item :: rest).
  pose proof (sort_perm date (unique ∅ items)) as Hperm.
  split.
  - rewrite length_map, (Permutation_length Hperm). apply unique_length.
  - intros Hdup. rewrite map_map. cbn [chart_point point_date].
    rewrite (Permutation_map date Hperm), unique_distinct; [reflexivity | exact Hdup |].
    intros other _. apply not_elem_of_empty.
Qed.
End Chart.

End SpO2More.
